(** * Tool-Factory: the MCP connection layer, its adapters and the schema validator

    A shallow embedding of
    - [src/utils/mcp_manager.py]  (registry [MCPManager], session owner [MCPClient]),
    - [src/utils/mcp_utils.py]    (config loading, the cache, [wrap_tools]),
    - [src/tools/function/validator/validate_tools.py]  ([check_mcp_format]),
    together with the properties its specification states about them
    and, from the module [Operations] on, further properties of the
    same code and of the functions around it ([register_tool],
    [shutdown], [load_mcp_tools], [get_mcp_tools_schema], the
    description and availability checks and the checks that start
    from a configuration file).

    Python values are modelled by the type [value]; a Python [str] is a
    string of one-byte characters, and what depends on the length, the
    white space or the identifier characters of a text is stated for
    ASCII texts; a Python [dict] is an
    insertion-ordered association list with unique string keys; the two
    process-wide dictionaries ([MCPManager.clients], [_config_cache]) are
    finite maps.  Code that can raise runs in an exception monad; code
    that also reads or writes the registry runs in a state-and-exception
    monad in which, as in Python, the state written before an exception
    is kept. *)

From Stdlib Require Import ZArith DecimalString.
From stdpp Require Import base option list strings gmap.

Set Warnings "-register-all".

Local Open Scope Z_scope.

(* ===================================================================== *)
(** * Python values *)
(* ===================================================================== *)

Module Py.

(** The values that reach the modelled code: what [json.loads] can
    return (floats apart), plus [VObj] for any other Python object
    (a function, a class instance, ...). *)
Inductive value : Type :=
| VNone
| VBool (b : bool)
| VInt (z : Z)
| VStr (s : string)
| VList (l : list value)
| VDict (d : list (string * value))
| VObj (id : nat).

Abbreviation dict := (list (string * value)).

(** ** Exceptions *)

Inductive exn_class : Type :=
| ValueError | TypeError | KeyError | AttributeError | RuntimeError
| JSONDecodeError      (* json.JSONDecodeError, a subclass of ValueError *)
| FileNotFoundError
| IndexError
| SchemaError          (* jsonschema.SchemaError, imported by mcp_manager.py *)
| OtherError.          (* transport and server failures (McpError, OSError, ...) *)

(** An exception object: its class and [str(e)]. *)
Record exn : Type := Exn { exn_cls : exn_class; exn_str : string }.

Inductive result (A : Type) : Type :=
| Ret (a : A)
| Raise (e : exn).
Arguments Ret {A} a.
Arguments Raise {A} e.

Definition bind {A B} (r : result A) (k : A -> result B) : result B :=
  match r with
  | Ret a => k a
  | Raise e => Raise e
  end.

(** [try: body  except Exception as e: handler(e)] *)
Definition try_except {A} (body : result A) (handler : exn -> result A) : result A :=
  match body with
  | Ret a => Ret a
  | Raise e => handler e
  end.

Definition is_ret {A} (r : result A) : bool :=
  match r with Ret _ => true | Raise _ => false end.

(** ** Strings *)

(** [old in s] for strings: substring search. *)
Fixpoint is_substring (old s : string) : bool :=
  String.prefix old s ||
  match s with
  | EmptyString => false
  | String _ s' => is_substring old s'
  end.

(** The ASCII characters [str.isspace] accepts. *)
Definition is_space (c : Ascii.ascii) : bool :=
  let n := Ascii.nat_of_ascii c in
  ((9 <=? n) && (n <=? 13) || (28 <=? n) && (n <=? 32))%nat.

(** A text of ASCII characters only.  On such a text a character of
    the model is a character of the Python [str], and [len],
    [str.strip], [str.isdigit] and [str.isidentifier] are as modelled
    here. *)
Fixpoint is_ascii (s : string) : bool :=
  match s with
  | EmptyString => true
  | String c s' => (Ascii.nat_of_ascii c <? 128)%nat && is_ascii s'
  end.

(** [bool(s.strip())]: some character is not white space. *)
Fixpoint strip_nonempty (s : string) : bool :=
  match s with
  | EmptyString => false
  | String c s' => negb (is_space c) || strip_nonempty s'
  end.

(** [s.replace(old, new)] for a non-empty [old]: every non-overlapping
    occurrence, left to right.  [skip] counts the characters of a
    matched occurrence that are still to be dropped. *)
Fixpoint replace_from (skip : nat) (old new s : string) : string :=
  match s with
  | EmptyString => EmptyString
  | String c s' =>
      match skip with
      | S k => replace_from k old new s'
      | O =>
          if String.prefix old s
          then new +:+ replace_from (Nat.pred (String.length old)) old new s'
          else String c (replace_from O old new s')
      end
  end.

Definition str_replace (old new s : string) : string := replace_from O old new s.

(** ** Dictionaries (insertion ordered, keys unique) *)

Fixpoint dict_get (d : dict) (k : string) : option value :=
  match d with
  | [] => None
  | (k', v) :: d' => if String.eqb k' k then Some v else dict_get d' k
  end.

Definition dict_mem (d : dict) (k : string) : bool :=
  match dict_get d k with Some _ => true | None => false end.

(** [d[k] = v]: an existing key keeps its position. *)
Fixpoint dict_set (d : dict) (k : string) (v : value) : dict :=
  match d with
  | [] => [(k, v)]
  | (k', v') :: d' =>
      if String.eqb k' k then (k', v) :: d' else (k', v') :: dict_set d' k v
  end.

(** [d.update(other)] for a dict [other]. *)
Definition dict_update (d other : dict) : dict :=
  fold_left (fun acc kv => dict_set acc (fst kv) (snd kv)) other d.

Definition dict_keys (d : dict) : list string := map fst d.

(** ** Equality, truth, type names *)

(** Python's [==] on the modelled values ([bool] is a subclass of
    [int]; dict equality ignores the insertion order; objects compare
    by identity). *)
Fixpoint py_eq (a b : value) : bool :=
  match a, b with
  | VNone, VNone => true
  | VBool x, VBool y => Bool.eqb x y
  | VBool x, VInt y => Z.b2z x =? y
  | VInt x, VBool y => x =? Z.b2z y
  | VInt x, VInt y => x =? y
  | VStr x, VStr y => String.eqb x y
  | VList xs, VList ys =>
      (fix go (xs ys : list value) : bool :=
         match xs, ys with
         | [], [] => true
         | x :: xs', y :: ys' => py_eq x y && go xs' ys'
         | _, _ => false
         end) xs ys
  | VDict d1, VDict d2 =>
      (length d1 =? length d2)%nat &&
      (fix go (d : dict) : bool :=
         match d with
         | [] => true
         | (k, v) :: d' =>
             match dict_get d2 k with
             | Some v' => py_eq v v'
             | None => false
             end && go d'
         end) d1
  | VObj i, VObj j => (i =? j)%nat
  | _, _ => false
  end.

(** [bool(v)] *)
Definition truthy (v : value) : bool :=
  match v with
  | VNone => false
  | VBool b => b
  | VInt z => negb (z =? 0)
  | VStr s => negb (String.eqb s EmptyString)
  | VList l => match l with [] => false | _ => true end
  | VDict d => match d with [] => false | _ => true end
  | VObj _ => true
  end.

Definition type_name (v : value) : string :=
  match v with
  | VNone => "NoneType"
  | VBool _ => "bool"
  | VInt _ => "int"
  | VStr _ => "str"
  | VList _ => "list"
  | VDict _ => "dict"
  | VObj _ => "object"
  end.

Definition is_dict (v : value) : bool :=
  match v with VDict _ => true | _ => false end.
Definition is_str (v : value) : bool :=
  match v with VStr _ => true | _ => false end.
Definition is_list (v : value) : bool :=
  match v with VList _ => true | _ => false end.

Definition hashable (v : value) : bool :=
  match v with VList _ | VDict _ => false | _ => true end.

Definition string_of_Z (z : Z) : string := NilZero.string_of_int (Z.to_int z).

(** [str(v)] as an f-string renders it.  Containers and objects are
    rendered by their type name only: the modelled code formats a
    value only after a dictionary membership test, which such values
    do not pass. *)
Definition py_str (v : value) : string :=
  match v with
  | VNone => "None"
  | VBool true => "True"
  | VBool false => "False"
  | VInt z => string_of_Z z
  | VStr s => s
  | _ => "<" +:+ type_name v +:+ ">"
  end.

(** ** Operators that can raise *)

(** [x in container] *)
Definition py_contains (container x : value) : result bool :=
  match container with
  | VDict d =>
      if hashable x
      then Ret (match x with VStr k => dict_mem d k | _ => false end)
      else Raise (Exn TypeError ("unhashable type: '" +:+ type_name x +:+ "'"))
  | VList l => Ret (existsb (py_eq x) l)
  | VStr s =>
      match x with
      | VStr t => Ret (is_substring t s)
      | _ => Raise (Exn TypeError
               ("'in <string>' requires string as left operand, not " +:+ type_name x))
      end
  | _ => Raise (Exn TypeError
           ("argument of type '" +:+ type_name container +:+ "' is not iterable"))
  end.

(** [container[key]] for a string key *)
Definition py_getitem (container : value) (key : string) : result value :=
  match container with
  | VDict d =>
      match dict_get d key with
      | Some v => Ret v
      | None => Raise (Exn KeyError ("'" +:+ key +:+ "'"))
      end
  | VList _ => Raise (Exn TypeError "list indices must be integers or slices, not str")
  | VStr _ => Raise (Exn TypeError "string indices must be integers, not 'str'")
  | _ => Raise (Exn TypeError ("'" +:+ type_name container +:+ "' object is not subscriptable"))
  end.

Definition no_attribute (v : value) (attr : string) : exn :=
  Exn AttributeError ("'" +:+ type_name v +:+ "' object has no attribute '" +:+ attr +:+ "'").

(** [v.items()] *)
Definition py_items (v : value) : result dict :=
  match v with
  | VDict d => Ret d
  | _ => Raise (no_attribute v "items")
  end.

(** [v.get(key, default)] *)
Definition py_get (v : value) (key : string) (default : value) : result value :=
  match v with
  | VDict d => Ret (match dict_get d key with Some x => x | None => default end)
  | _ => Raise (no_attribute v "get")
  end.

Fixpoint chars (s : string) : list value :=
  match s with
  | EmptyString => []
  | String c s' => VStr (String c EmptyString) :: chars s'
  end.

(** [for x in v] *)
Definition py_iter (v : value) : result (list value) :=
  match v with
  | VList l => Ret l
  | VDict d => Ret (map (fun kv => VStr (fst kv)) d)
  | VStr s => Ret (chars s)
  | _ => Raise (Exn TypeError ("'" +:+ type_name v +:+ "' object is not iterable"))
  end.

(** ** Facts on dictionaries *)

Lemma dict_get_set_eq (d : dict) k v : dict_get (dict_set d k v) k = Some v.
Proof.
  induction d as [|[k' v'] d IH]; simpl.
  - rewrite String.eqb_refl; reflexivity.
  - destruct (String.eqb k' k) eqn:E; simpl; rewrite E; [reflexivity | exact IH].
Qed.

Lemma dict_get_set_ne (d : dict) k k' v :
  k <> k' -> dict_get (dict_set d k v) k' = dict_get d k'.
Proof.
  intros Hne; induction d as [|[k0 v0] d IH]; simpl.
  - destruct (String.eqb_spec k k'); [contradiction | reflexivity].
  - destruct (String.eqb_spec k0 k) as [->|Hk]; simpl.
    + destruct (String.eqb_spec k k'); [contradiction | reflexivity].
    + destruct (String.eqb k0 k'); [reflexivity | exact IH].
Qed.

Lemma dict_mem_get (d : dict) k : dict_mem d k = true <-> exists v, dict_get d k = Some v.
Proof.
  unfold dict_mem; destruct (dict_get d k) as [v|]; split; eauto.
  - discriminate.
  - intros [v Hv]; discriminate.
Qed.

End Py.

Export Py.

Declare Scope result_scope.
Delimit Scope result_scope with result.
Notation "x <- c1 ;; c2" := (Py.bind c1 (fun x => c2))
  (at level 100, c1 at next level, right associativity) : result_scope.

(* ===================================================================== *)
(** * The schema format check ([validate_tools.py]) *)
(* ===================================================================== *)

Module Validator.

Local Open Scope result_scope.

(** What [check_mcp_format] reads of its argument:
    [getattr(mcp_tool, 'parameters', None)].  [None] stands for a tool
    without the attribute; a tool whose attribute is Python's [None] is
    [Some VNone]. *)
Record tool_object : Type := ToolObject { tool_parameters : option value }.

(** The dictionary the check returns; its ['parameters'] entry is
    missing on the early return. *)
Record report : Type := Report {
  valid : bool;
  issues : list string;
  suggestions : list string;
  parameters : option value
}.

(** The two lists the check appends to. *)
Record findings : Type := Findings {
  f_issues : list string;
  f_suggestions : list string
}.

Definition append_finding (f : findings) (issue suggestion : string) : findings :=
  {| f_issues := f_issues f ++ [issue];
     f_suggestions := f_suggestions f ++ [suggestion] |}.

(** [for field in ['type', 'properties', 'required']: ...] *)
Fixpoint check_top_level (fields : list string) (params_schema : value)
    (f : findings) : result findings :=
  match fields with
  | [] => Ret f
  | field :: rest =>
      present <- py_contains params_schema (VStr field);;
      check_top_level rest params_schema
        (if present then f
         else append_finding f
                ("Missing top-level field: " +:+ field)
                ("Please add the " +:+ field +:+ " field in parameters."))
  end.

(** [for name, prop in params_schema['properties'].items(): ...] *)
Fixpoint check_each_property (items : dict) (f : findings) : result findings :=
  match items with
  | [] => Ret f
  | (name, prop) :: rest =>
      has_type <- py_contains prop (VStr "type");;
      check_each_property rest
        (if has_type then f
         else append_finding f
                ("Parameter " +:+ name +:+ " is missing the type field.")
                ("Please add the type field for parameter " +:+ name +:+ "."))
  end.

Definition check_properties (params_schema : value) (f : findings) : result findings :=
  present <- py_contains params_schema (VStr "properties");;
  if (present : bool) then
    props <- py_getitem params_schema "properties";;
    items <- py_items props;;
    check_each_property items f
  else Ret f.

(** [for req in params_schema.get('required', []): ...] *)
Fixpoint check_each_required (reqs : list value) (params_schema : value)
    (f : findings) : result findings :=
  match reqs with
  | [] => Ret f
  | req :: rest =>
      props <- py_get params_schema "properties" (VDict []);;
      defined <- py_contains props req;;
      check_each_required rest params_schema
        (if defined then f
         else append_finding f
                ("Required parameter " +:+ py_str req +:+ " is not defined in properties.")
                ("Please add the required parameter " +:+ py_str req +:+ " in properties."))
  end.

Definition check_required (params_schema : value) (f : findings) : result findings :=
  present <- py_contains params_schema (VStr "required");;
  if (present : bool) then
    required <- py_get params_schema "required" (VList []);;
    reqs <- py_iter required;;
    check_each_required reqs params_schema f
  else Ret f.

Definition no_parameters_report : report :=
  {| valid := false;
     issues := ["No parameters attribute found, unable to check parameter format."];
     suggestions := ["Please add a parameters attribute to the tool."];
     parameters := None |}.

(** The body of the check once [params_schema is None] is excluded. *)
Definition check_schema (params_schema : value) : result report :=
  f1 <- check_top_level ["type"; "properties"; "required"] params_schema
          (Findings [] []);;
  f2 <- check_properties params_schema f1;;
  f3 <- check_required params_schema f2;;
  Ret {| valid := (length (f_issues f3) =? 0)%nat;
         issues := f_issues f3;
         suggestions := f_suggestions f3;
         parameters := Some params_schema |}.

Definition check_mcp_format (mcp_tool : tool_object) : result report :=
  match tool_parameters mcp_tool with
  | None | Some VNone => Ret no_parameters_report
  | Some params_schema => check_schema params_schema
  end.

(** The schemas on which no operator of the check can raise: a dict
    whose ['properties'], when present, is a dict of dict sub-schemas
    and whose ['required'], when present, is a list of strings. *)
Definition well_formed_schema (params_schema : value) : bool :=
  match params_schema with
  | VDict d =>
      match dict_get d "properties" with
      | None => true
      | Some (VDict props) => forallb (fun kv => is_dict (snd kv)) props
      | Some _ => false
      end &&
      match dict_get d "required" with
      | None => true
      | Some (VList reqs) => forallb is_str reqs
      | Some _ => false
      end
  | _ => false
  end.

Definition well_formed_tool (mcp_tool : tool_object) : bool :=
  match tool_parameters mcp_tool with
  | None | Some VNone => true
  | Some params_schema => well_formed_schema params_schema
  end.

(** The schemas the specification names. *)
Definition string_type : value := VDict [("type", VStr "string")].

Definition schema_valid_q : value :=
  VDict [("type", VStr "object");
         ("properties", VDict [("q", string_type)]);
         ("required", VList [VStr "q"])].

Definition schema_untyped_q : value :=
  VDict [("type", VStr "object");
         ("properties", VDict [("q", VDict [])]);
         ("required", VList [VStr "q"])].

Definition schema_missing : value :=
  VDict [("required", VList [VStr "missing"]);
         ("properties", VDict [])].

(** A schema whose ['properties'] is a list. *)
Definition schema_list_properties : value :=
  VDict [("type", VStr "object");
         ("properties", VList []);
         ("required", VList [])].

(** ** Properties of the check *)

Definition paired (f : findings) : Prop :=
  length (f_issues f) = length (f_suggestions f).

Lemma append_finding_paired f i s : paired f -> paired (append_finding f i s).
Proof.
  unfold paired, append_finding; simpl; intros H.
  rewrite !length_app, H; reflexivity.
Qed.

Lemma check_top_level_paired fields ps :
  forall f f', paired f -> check_top_level fields ps f = Ret f' -> paired f'.
Proof.
  induction fields as [|field rest IH]; simpl; intros f f' Hp H.
  - congruence.
  - destruct (py_contains ps (VStr field)) as [[|]|e]; simpl in H; try discriminate.
    + eapply IH; eauto.
    + eapply IH; [apply append_finding_paired|]; eauto.
Qed.

Lemma check_each_property_paired items :
  forall f f', paired f -> check_each_property items f = Ret f' -> paired f'.
Proof.
  induction items as [|[name prop] rest IH]; simpl; intros f f' Hp H.
  - congruence.
  - destruct (py_contains prop (VStr "type")) as [[|]|e]; simpl in H; try discriminate.
    + eapply IH; eauto.
    + eapply IH; [apply append_finding_paired|]; eauto.
Qed.

Lemma check_each_required_paired reqs ps :
  forall f f', paired f -> check_each_required reqs ps f = Ret f' -> paired f'.
Proof.
  induction reqs as [|req rest IH]; simpl; intros f f' Hp H.
  - congruence.
  - destruct (py_get ps "properties" (VDict [])) as [props|e]; simpl in H; try discriminate.
    destruct (py_contains props req) as [[|]|e]; simpl in H; try discriminate.
    + eapply IH; eauto.
    + eapply IH; [apply append_finding_paired|]; eauto.
Qed.

Lemma check_properties_paired ps f f' :
  paired f -> check_properties ps f = Ret f' -> paired f'.
Proof.
  unfold check_properties; intros Hp H.
  destruct (py_contains ps (VStr "properties")) as [[|]|e]; simpl in H; try discriminate.
  - destruct (py_getitem ps "properties") as [props|e]; simpl in H; try discriminate.
    destruct (py_items props) as [items|e]; simpl in H; try discriminate.
    eapply check_each_property_paired; eauto.
  - congruence.
Qed.

Lemma check_required_paired ps f f' :
  paired f -> check_required ps f = Ret f' -> paired f'.
Proof.
  unfold check_required; intros Hp H.
  destruct (py_contains ps (VStr "required")) as [[|]|e]; simpl in H; try discriminate.
  - destruct (py_get ps "required" (VList [])) as [required|e]; simpl in H; try discriminate.
    destruct (py_iter required) as [reqs|e]; simpl in H; try discriminate.
    eapply check_each_required_paired; eauto.
  - congruence.
Qed.

Lemma length_eqb_0_nil {A} (l : list A) : (length l =? 0)%nat = true <-> l = [].
Proof.
  destruct l; simpl; split; intros H; try reflexivity; discriminate.
Qed.

Lemma check_schema_consistent ps r :
  check_schema ps = Ret r ->
  length (issues r) = length (suggestions r) /\
  (valid r = true <-> issues r = []).
Proof.
  unfold check_schema; intros H.
  destruct (check_top_level _ ps _) as [f1|e] eqn:E1; simpl in H; try discriminate.
  destruct (check_properties ps f1) as [f2|e] eqn:E2; simpl in H; try discriminate.
  destruct (check_required ps f2) as [f3|e] eqn:E3; simpl in H; try discriminate.
  injection H as <-; simpl.
  assert (Hp : paired f3).
  { eapply check_required_paired; [|exact E3].
    eapply check_properties_paired; [|exact E2].
    eapply check_top_level_paired; [|exact E1]. reflexivity. }
  split; [exact Hp | apply length_eqb_0_nil].
Qed.

(** Whatever the check returns is consistent: as many suggestions as
    issues, and [valid] exactly when there is no issue. *)
Lemma check_mcp_format_consistent mcp_tool r :
  check_mcp_format mcp_tool = Ret r ->
  length (issues r) = length (suggestions r) /\
  (valid r = true <-> issues r = []).
Proof.
  unfold check_mcp_format; intros H.
  assert (Hnone : Ret no_parameters_report = Ret r ->
                  length (issues r) = length (suggestions r) /\
                  (valid r = true <-> issues r = [])).
  { intros [= <-]; simpl; split; [reflexivity | split; discriminate]. }
  destruct (tool_parameters mcp_tool) as [ps|]; [|auto].
  destruct ps; first [exact (Hnone H) | exact (check_schema_consistent _ _ H)].
Qed.

(** On a dict, the top-level loop never raises. *)
Lemma check_top_level_dict fields d :
  forall f, exists f', check_top_level fields (VDict d) f = Ret f'.
Proof.
  induction fields as [|field rest IH]; simpl; intros f; eauto.
Qed.

Lemma check_each_property_dicts items :
  forallb (fun kv => is_dict (snd kv)) items = true ->
  forall f, exists f', check_each_property items f = Ret f'.
Proof.
  induction items as [|[name prop] rest IH]; simpl; intros Hall f; eauto.
  apply andb_prop in Hall as [Hd Hrest].
  destruct prop; try discriminate; simpl; eauto.
Qed.

Lemma check_each_required_strings reqs d :
  (forall v, dict_get d "properties" = Some v -> is_dict v = true) ->
  forallb is_str reqs = true ->
  forall f, exists f', check_each_required reqs (VDict d) f = Ret f'.
Proof.
  intros Hprops; induction reqs as [|req rest IH]; simpl; intros Hall f; eauto.
  apply andb_prop in Hall as [Hs Hrest].
  destruct req; try discriminate; simpl.
  destruct (dict_get d "properties") as [v|] eqn:E; simpl; eauto.
  specialize (Hprops v eq_refl); destruct v; try discriminate; simpl; eauto.
Qed.

(** On a well-formed schema the check returns a report. *)
Lemma check_mcp_format_total mcp_tool :
  well_formed_tool mcp_tool = true ->
  exists r, check_mcp_format mcp_tool = Ret r.
Proof.
  unfold well_formed_tool, check_mcp_format.
  destruct (tool_parameters mcp_tool) as [ps|]; [|eauto].
  destruct ps as [| | | | |d|]; simpl; try discriminate; eauto.
  intros Hwf; apply andb_prop in Hwf as [Hp Hr]. unfold check_schema.
  destruct (check_top_level_dict ["type"; "properties"; "required"] d (Findings [] []))
    as [f1 E1].
  rewrite E1; simpl.
  assert (E2 : exists f2, check_properties (VDict d) f1 = Ret f2).
  { unfold check_properties; simpl; unfold dict_mem.
    destruct (dict_get d "properties") as [v|]; simpl; eauto.
    destruct v; try discriminate; simpl.
    apply check_each_property_dicts; assumption. }
  destruct E2 as [f2 E2]; rewrite E2; simpl.
  assert (E3 : exists f3, check_required (VDict d) f2 = Ret f3).
  { unfold check_required; simpl; unfold dict_mem.
    destruct (dict_get d "required") as [v|]; simpl; eauto.
    destruct v; try discriminate; simpl.
    apply check_each_required_strings; [|assumption].
    intros v Hv; rewrite Hv in Hp; destruct v; try discriminate; reflexivity. }
  destruct E3 as [f3 E3]; rewrite E3; simpl; eauto.
Qed.

(** C9, as amended.  On every tool object whose [parameters] attribute
    is absent or [None], or is a dict whose ['properties'] (when
    present) is a dict of dict sub-schemas and whose ['required'] (when
    present) is a list of strings, the check returns a report and does
    not raise; the report has one suggestion per issue and is valid
    exactly when it has no issue.  An absent schema gives a single
    issue; of the three named schemas the first gives no issue, the
    second exactly one (no type for [q]) and the third exactly two (no
    top-level [type]; [missing] not defined in [properties]). *)
Theorem check_mcp_format_well_formed :
  (forall mcp_tool,
      well_formed_tool mcp_tool = true ->
      exists r, check_mcp_format mcp_tool = Ret r /\
                length (suggestions r) = length (issues r) /\
                (valid r = true <-> issues r = [])) /\
  (exists issue suggestion,
      check_mcp_format (ToolObject None) =
        Ret (Report false [issue] [suggestion] None) /\
      check_mcp_format (ToolObject (Some VNone)) =
        Ret (Report false [issue] [suggestion] None)) /\
  check_mcp_format (ToolObject (Some schema_valid_q)) =
    Ret (Report true [] [] (Some schema_valid_q)) /\
  check_mcp_format (ToolObject (Some schema_untyped_q)) =
    Ret (Report false
           ["Parameter q is missing the type field."]
           ["Please add the type field for parameter q."]
           (Some schema_untyped_q)) /\
  check_mcp_format (ToolObject (Some schema_missing)) =
    Ret (Report false
           ["Missing top-level field: type";
            "Required parameter missing is not defined in properties."]
           ["Please add the type field in parameters.";
            "Please add the required parameter missing in properties."]
           (Some schema_missing)).
Proof.
  split; [|split; [|repeat split]].
  - intros mcp_tool Hwf.
    destruct (check_mcp_format_total mcp_tool Hwf) as [r Hr].
    exists r; split; [exact Hr|].
    destruct (check_mcp_format_consistent mcp_tool r Hr) as [Hlen Hvalid].
    split; [symmetry; exact Hlen | exact Hvalid].
  - eexists _, _; split; reflexivity.
Qed.

Lemma check_mcp_format_well_formed_witness :
  well_formed_tool (ToolObject (Some schema_untyped_q)) = true /\
  exists r, check_mcp_format (ToolObject (Some schema_untyped_q)) = Ret r /\
            length (suggestions r) = length (issues r) /\
            (valid r = true <-> issues r = []).
Proof.
  split; [reflexivity|].
  apply (proj1 check_mcp_format_well_formed (ToolObject (Some schema_untyped_q))).
  reflexivity.
Defined.

(** C9 as stated fails: a tool whose schema carries a list under
    ['properties'] makes the check raise ([list] has no [items]). *)
Lemma check_mcp_format_raises :
  check_mcp_format (ToolObject (Some schema_list_properties)) =
    Raise (Exn AttributeError "'list' object has no attribute 'items'") /\
  ~ (forall mcp_tool, exists r, check_mcp_format mcp_tool = Ret r).
Proof.
  split; [reflexivity|].
  intros H; destruct (H (ToolObject (Some schema_list_properties))) as [r Hr].
  discriminate Hr.
Qed.

End Validator.

(* ===================================================================== *)
(** * JSON text *)
(* ===================================================================== *)

Module Json.

Local Open Scope result_scope.

(** The quotation mark, as a character and as a string. *)
Definition dquote : Ascii.ascii := Ascii.ascii_of_nat 34.
Definition dq : string := String dquote EmptyString.

(** JSON text is written below with apostrophes in place of quotation
    marks; [qq] puts the quotation marks back. *)
Fixpoint qq (s : string) : string :=
  match s with
  | EmptyString => EmptyString
  | String c s' =>
      String (if (Ascii.nat_of_ascii c =? 39)%nat then dquote else c) (qq s')
  end.

Definition hex_digit (n : nat) : string :=
  String.substring n 1 "0123456789abcdef".

(** One character of a string literal as [json.dumps] writes it (the
    model's strings are ASCII, on which [ensure_ascii] has no effect). *)
Definition escape_char (c : Ascii.ascii) : string :=
  let n := Ascii.nat_of_ascii c in
  if (n =? 34)%nat then "\" +:+ dq
  else if (n =? 92)%nat then "\\"
  else if (n =? 10)%nat then "\n"
  else if (n =? 13)%nat then "\r"
  else if (n =? 9)%nat then "\t"
  else if (n =? 8)%nat then "\b"
  else if (n =? 12)%nat then "\f"
  else if (n <? 32)%nat then "\u00" +:+ hex_digit (n / 16) +:+ hex_digit (n mod 16)
  else String c EmptyString.

Fixpoint escape (s : string) : string :=
  match s with
  | EmptyString => EmptyString
  | String c s' => escape_char c +:+ escape s'
  end.

Definition quote (s : string) : string := dq +:+ escape s +:+ dq.

(** [json.dumps(v)] with the default separators; an object that is not
    a JSON value raises [TypeError]. *)
Fixpoint dumps (v : value) : result string :=
  match v with
  | VNone => Ret "null"
  | VBool true => Ret "true"
  | VBool false => Ret "false"
  | VInt z => Ret (string_of_Z z)
  | VStr s => Ret (quote s)
  | VList l =>
      body <- (fix items (l : list value) : result string :=
                 match l with
                 | [] => Ret EmptyString
                 | x :: rest =>
                     s <- dumps x;;
                     match rest with
                     | [] => Ret s
                     | _ => r <- items rest;; Ret (s +:+ ", " +:+ r)
                     end
                 end) l;;
      Ret ("[" +:+ body +:+ "]")
  | VDict d =>
      body <- (fix members (d : dict) : result string :=
                 match d with
                 | [] => Ret EmptyString
                 | (k, x) :: rest =>
                     s <- dumps x;;
                     match rest with
                     | [] => Ret (quote k +:+ ": " +:+ s)
                     | _ => r <- members rest;;
                            Ret (quote k +:+ ": " +:+ s +:+ ", " +:+ r)
                     end
                 end) d;;
      Ret ("{" +:+ body +:+ "}")
  | VObj _ => Raise (Exn TypeError "Object of type object is not JSON serializable")
  end.

(** ** A reader for the integer fragment of JSON

    [loads] reads the JSON texts whose numbers are integers and whose
    string escapes are the two-character ones.  Texts with fractions,
    exponents or [\u] escapes are outside this reader (Python reads
    them as floats and code points, which the development does not
    model); the general results below are stated for an arbitrary
    [json.loads], and this reader runs the examples. *)

Definition is_ws (c : Ascii.ascii) : bool :=
  let n := Ascii.nat_of_ascii c in
  ((n =? 32) || (n =? 9) || (n =? 10) || (n =? 13))%nat.

Fixpoint skip_ws (s : string) : string :=
  match s with
  | String c s' => if is_ws c then skip_ws s' else s
  | EmptyString => s
  end.

Definition is_digit (c : Ascii.ascii) : bool :=
  let n := Ascii.nat_of_ascii c in ((48 <=? n) && (n <=? 57))%nat.

Definition digit_val (c : Ascii.ascii) : Z := Z.of_nat (Ascii.nat_of_ascii c) - 48.

(** Digits after the first one. *)
Fixpoint read_digits (acc : Z) (s : string) : Z * string :=
  match s with
  | String c s' => if is_digit c then read_digits (10 * acc + digit_val c) s' else (acc, s)
  | EmptyString => (acc, s)
  end.

(** A fraction or an exponent follows: a float. *)
Definition float_follows (s : string) : bool :=
  match s with
  | String c _ =>
      let n := Ascii.nat_of_ascii c in ((n =? 46) || (n =? 101) || (n =? 69))%nat
  | EmptyString => false
  end.

(** An optional minus sign, then [0] or a digit string without a leading [0]. *)
Definition read_int (s : string) : option (Z * string) :=
  let '(neg, s1) :=
    match s with
    | String c s' => if (Ascii.nat_of_ascii c =? 45)%nat then (true, s') else (false, s)
    | EmptyString => (false, s)
    end in
  match s1 with
  | String c s2 =>
      if is_digit c then
        let '(n, rest) :=
          if (Ascii.nat_of_ascii c =? 48)%nat then (0, s2)
          else read_digits (digit_val c) s2 in
        if float_follows rest then None
        else Some (if neg then - n else n, rest)
      else None
  | EmptyString => None
  end.

Definition unescape (c : Ascii.ascii) : option Ascii.ascii :=
  let n := Ascii.nat_of_ascii c in
  if ((n =? 34) || (n =? 92) || (n =? 47))%nat then Some c
  else if (n =? 98)%nat then Some (Ascii.ascii_of_nat 8)
  else if (n =? 102)%nat then Some (Ascii.ascii_of_nat 12)
  else if (n =? 110)%nat then Some (Ascii.ascii_of_nat 10)
  else if (n =? 114)%nat then Some (Ascii.ascii_of_nat 13)
  else if (n =? 116)%nat then Some (Ascii.ascii_of_nat 9)
  else None.

(** The characters of a string literal, after its opening quotation
    mark, up to and including the closing one. *)
Fixpoint read_string (s : string) : option (string * string) :=
  match s with
  | EmptyString => None
  | String c s' =>
      let n := Ascii.nat_of_ascii c in
      if (n =? 34)%nat then Some (EmptyString, s')
      else if (n =? 92)%nat then
        match s' with
        | String e s'' =>
            match unescape e, read_string s'' with
            | Some c', Some (body, rest) => Some (String c' body, rest)
            | _, _ => None
            end
        | EmptyString => None
        end
      else if (n <? 32)%nat then None
      else
        match read_string s' with
        | Some (body, rest) => Some (String c body, rest)
        | None => None
        end
  end.

Definition expect (word : string) (v : value) (s : string) : option (value * string) :=
  if String.prefix word s
  then Some (v, String.substring (String.length word) (String.length s) s)
  else None.

Definition head_is (n : nat) (s : string) : bool :=
  match s with
  | String c _ => (Ascii.nat_of_ascii c =? n)%nat
  | EmptyString => false
  end.

Definition tail (s : string) : string :=
  match s with String _ s' => s' | EmptyString => s end.

(** One value, then what follows it.  [read_elements] and
    [read_members] read what follows the opening bracket or a comma. *)
Fixpoint read_value (fuel : nat) (s : string) : option (value * string) :=
  match fuel with
  | O => None
  | S fuel' =>
      let s := skip_ws s in
      if head_is 123 s then
        let s1 := skip_ws (tail s) in
        if head_is 125 s1 then Some (VDict [], tail s1)
        else read_members fuel' s1 []
      else if head_is 91 s then
        let s1 := skip_ws (tail s) in
        if head_is 93 s1 then Some (VList [], tail s1)
        else read_elements fuel' s1 []
      else if head_is 34 s then
        match read_string (tail s) with
        | Some (str, rest) => Some (VStr str, rest)
        | None => None
        end
      else if head_is 110 s then expect "null" VNone s
      else if head_is 116 s then expect "true" (VBool true) s
      else if head_is 102 s then expect "false" (VBool false) s
      else
        match read_int s with
        | Some (n, rest) => Some (VInt n, rest)
        | None => None
        end
  end
with read_elements (fuel : nat) (s : string) (acc : list value) : option (value * string) :=
  match fuel with
  | O => None
  | S fuel' =>
      match read_value fuel' s with
      | Some (v, rest) =>
          let rest := skip_ws rest in
          if head_is 44 rest then read_elements fuel' (tail rest) (acc ++ [v])
          else if head_is 93 rest then Some (VList (acc ++ [v]), tail rest)
          else None
      | None => None
      end
  end
with read_members (fuel : nat) (s : string) (acc : dict) : option (value * string) :=
  match fuel with
  | O => None
  | S fuel' =>
      let s := skip_ws s in
      if head_is 34 s then
        match read_string (tail s) with
        | Some (key, rest) =>
            let rest := skip_ws rest in
            if head_is 58 rest then
              match read_value fuel' (tail rest) with
              | Some (v, rest) =>
                  let rest := skip_ws rest in
                  if head_is 44 rest then read_members fuel' (tail rest) (dict_set acc key v)
                  else if head_is 125 rest then Some (VDict (dict_set acc key v), tail rest)
                  else None
              | None => None
              end
            else None
        | None => None
        end
      else None
  end.

(** [json.loads(s)] on the texts of that fragment; [None] stands for
    [JSONDecodeError], or for a text outside the fragment. *)
Definition loads (s : string) : option value :=
  match read_value (2 * String.length s + 2) s with
  | Some (v, rest) =>
      match skip_ws rest with
      | EmptyString => Some v
      | _ => None
      end
  | None => None
  end.

End Json.

(* ===================================================================== *)
(** * The registry and its sessions ([mcp_manager.py]) *)
(* ===================================================================== *)

Module Registry.

Local Open Scope result_scope.

(** ** What lies outside the program *)

(** A tool as a server advertises it ([mcp.types.Tool]). *)
Record McpTool : Type := {
  mt_name : string;
  mt_description : option string;
  mt_inputSchema : dict
}.

(** A content part of a tool result. *)
Record content : Type := { c_type : string; c_text : string }.

Inductive resource_contents : Type :=
| TextResourceContents (text : string)
| BlobResourceContents (blob : string).

(** A live [ClientSession]: how the server behind it answers each
    request. *)
Record Session : Type := {
  send_ping : result unit;
  list_resources : result (list string);
  read_resource : value -> result (list resource_contents);
  call_tool : string -> value -> result (list content);
  list_resource_templates : result (list string)
}.

(** The channel [connection_server] opens. *)
Inductive transport : Type :=
| StreamableHttp (url sse_read_timeout : value)
| Sse (url headers sse_read_timeout : value)
| Stdio (command args env : value).

(** The libraries and servers the program talks to.
    - [json_loads]: [json.loads]; [None] is [JSONDecodeError], whose
      text on that input is [json_error].
    - [update_from_pairs]: [dict.update] given a list (of key/value pairs).
    - [read_file]: [open(path).read()].
    - [open_session n t]: the [n]-th connection attempt of the process,
      over transport [t]: entering the transport and session contexts,
      [initialize()] and [list_tools()].
    - [uuid4 n]: the [n]-th identifier drawn.
    - [jsonschema_accepts]: [jsonschema.validate(instance={}, schema=s)]
      does not raise [SchemaError]. *)
Record World : Type := {
  json_loads : string -> option value;
  json_error : string -> string;
  update_from_pairs : dict -> list value -> result dict;
  read_file : string -> result string;
  open_session : nat -> transport -> result (Session * list McpTool);
  uuid4 : nat -> string;
  jsonschema_accepts : value -> bool
}.

(** ** Objects of the program *)

Record MCPClient : Type := {
  session : option Session;
  tools : option (list McpTool);
  resources : bool;
  _last_mcp_server_name : option string;
  _last_mcp_server : value;
  client_id : option string
}.

(** [MCPClient()] *)
Definition new_client : MCPClient :=
  {| session := None; tools := None; resources := false;
     _last_mcp_server_name := None; _last_mcp_server := VNone;
     client_id := None |}.

(** An instance of the class [create_tool_class] builds. *)
Record ToolClass : Type := {
  name : string;
  description : option string;
  parameters : value;
  tool_client_id : string;
  tool_name : string
}.

(** The singleton [MCPManager]: its [clients] dictionary, and how many
    connection attempts and identifiers the process has used. *)
Record manager : Type := {
  clients : gmap string MCPClient;
  connections : nat;
  uuids : nat
}.

Definition empty_manager : manager :=
  {| clients := ∅; connections := O; uuids := O |}.

(** Code that reads and writes the manager and can raise. *)
Definition M (A : Type) : Type := manager -> result A * manager.

Definition retM {A} (a : A) : M A := fun st => (Ret a, st).
Definition raiseM {A} (e : exn) : M A := fun st => (Raise e, st).
Definition liftM {A} (r : result A) : M A := fun st => (r, st).
Definition bindM {A B} (m : M A) (k : A -> M B) : M B :=
  fun st =>
    match m st with
    | (Ret a, st') => k a st'
    | (Raise e, st') => (Raise e, st')
    end.

Declare Scope manager_scope.
Delimit Scope manager_scope with manager.
Notation "x <~ c1 ;; c2" := (bindM c1 (fun x => c2))
  (at level 100, c1 at next level, right associativity) : manager_scope.

(** ** [MCPManager.is_valid_mcp_servers] *)

(** [key in server and isinstance(server[key], type)] *)
Definition isinstance_at (server : dict) (key : string) (is_type : value -> bool) : bool :=
  match dict_get server key with
  | Some v => is_type v
  | None => false
  end.

(** The body of the loop over the servers: [false] where it returns
    [False], [true] where it falls through. *)
Definition check_server (server : value) : bool :=
  match server with
  | VDict s =>
      if dict_mem s "command" && negb (isinstance_at s "command" is_str) then false
      else if dict_mem s "command" &&
              (negb (dict_mem s "args") || negb (isinstance_at s "args" is_list)) then false
      else if dict_mem s "url" && negb (isinstance_at s "url" is_str) then false
      else if dict_mem s "url" &&
              (dict_mem s "headers" && negb (isinstance_at s "headers" is_dict)) then false
      else if dict_mem s "env" && negb (isinstance_at s "env" is_dict) then false
      else true
  | _ => false
  end.

Fixpoint check_servers (mcp_servers : dict) : bool :=
  match mcp_servers with
  | [] => true
  | (key, server) :: rest => if check_server server then check_servers rest else false
  end.

Definition is_valid_mcp_servers (config : value) : bool :=
  match config with
  | VDict c =>
      match dict_get c "mcpServers" with
      | Some (VDict mcp_servers) => check_servers mcp_servers
      | _ => false
      end
  | _ => false
  end.

(** ** [MCPClient.connection_server] *)

(** Which branch of [connection_server] a descriptor takes, and with
    which arguments. *)
Definition transport_of (mcp_server : value) : result transport :=
  has_url <- py_contains mcp_server (VStr "url");;
  if (has_url : bool) then
    url <- py_get mcp_server "url" VNone;;
    sse_read_timeout <- py_get mcp_server "sse_read_timeout" (VInt 300);;
    type <- py_get mcp_server "type" (VStr "sse");;
    if py_eq type (VStr "streamable-http") then
      Ret (StreamableHttp url sse_read_timeout)
    else
      headers <- py_get mcp_server "headers" (VDict [("Accept", VStr "text/event-stream")]);;
      Ret (Sse url headers sse_read_timeout)
  else
    command <- py_getitem mcp_server "command";;
    args <- py_getitem mcp_server "args";;
    env <- py_get mcp_server "env" VNone;;
    Ret (Stdio command args env).

(** The descriptor is routed to the subprocess branch: it has no
    ['url'] key. *)
Definition takes_stdio_branch (mcp_server : value) : bool :=
  match py_contains mcp_server (VStr "url") with
  | Ret false => true
  | _ => false
  end.

(** One connection attempt.  Every exception is logged and raised
    again; an attempt that reaches a transport uses up one index of
    [open_session]. *)
Definition connection_server (w : World) (self : MCPClient)
    (mcp_server_name : option string) (mcp_server : value) : M MCPClient :=
  fun st =>
    match transport_of mcp_server with
    | Raise e => (Raise e, st)
    | Ret t =>
        let st' := {| clients := clients st;
                      connections := S (connections st);
                      uuids := uuids st |} in
        match open_session w (connections st) t with
        | Raise e => (Raise e, st')
        | Ret (sess, list_tools) =>
            (Ret {| session := Some sess;
                    tools := Some list_tools;
                    resources := resources self;
                    _last_mcp_server_name := mcp_server_name;
                    _last_mcp_server := mcp_server;
                    client_id := client_id self |}, st')
        end
    end.

(** ** [is_tool_schema], [BaseTool.__init__], [create_tool_class] *)

Definition same_keys (d : dict) (ks : list string) : bool :=
  forallb (dict_mem d) ks &&
  forallb (fun k => existsb (String.eqb k) ks) (dict_keys d).

(** The tool description is always built by [BaseTool.function] with
    the keys [name], [description], [parameters]; an [AssertionError]
    makes the result [False], any other exception escapes. *)
Definition is_tool_schema (w : World) (nm : string) (desc : option string)
    (params : value) : result bool :=
  if negb (strip_nonempty nm) then Ret false
  else if negb (match desc with Some _ => true | None => false end) then Ret false
  else
    match params with
    | VDict p =>
        if negb (same_keys p ["type"; "properties"; "required"]) then Ret false
        else
          type <- py_getitem params "type";;
          if negb (py_eq type (VStr "object")) then Ret false
          else
            properties <- py_getitem params "properties";;
            required <- py_getitem params "required";;
            match properties, required with
            | VDict props, VList reqs =>
                if negb (forallb hashable reqs)
                then Raise (Exn TypeError
                       ("unhashable type: '" +:+
                        match List.find (fun r => negb (hashable r)) reqs with
                        | Some r => type_name r
                        | None => EmptyString
                        end +:+ "'"))
                else if negb (forallb (fun r => match r with
                                                | VStr k => dict_mem props k
                                                | _ => false
                                                end) reqs)
                then Ret false
                else Ret (jsonschema_accepts w params)
            | _, _ => Ret false
            end
    | _ => Ret false
    end.

Definition create_tool_class (w : World) (register_name register_client_id tool_nm : string)
    (tool_desc : option string) (tool_parameters : value) : result ToolClass :=
  if String.eqb register_name EmptyString then
    Raise (Exn ValueError
      "You must set _Class.name, either by @register_tool(name=...) or explicitly setting _Class.name")
  else
    ok <- (if is_dict tool_parameters
           then is_tool_schema w register_name tool_desc tool_parameters
           else Ret true);;
    if (ok : bool) then
      Ret {| name := register_name;
             description := tool_desc;
             parameters := tool_parameters;
             tool_client_id := register_client_id;
             tool_name := tool_nm |}
    else
      Raise (Exn ValueError
        "The parameters, when provided as a dict, must confirm to a valid openai-compatible JSON schema.").

(** ** [MCPManager.init_config_async] *)

Definition required_fields : list string := ["type"; "properties"; "required"].

(** [required_fields - parameters.keys()] *)
Definition missing_fields (parameters : dict) : list string :=
  List.filter (fun field => negb (dict_mem parameters field)) required_fields.

(** How the set of missing fields is printed (Python leaves the order
    of a set unspecified; the fields are listed here in the order of
    [required_fields]). *)
Fixpoint show_fields (fields : list string) : string :=
  match fields with
  | [] => EmptyString
  | [f] => "'" +:+ f +:+ "'"
  | f :: rest => "'" +:+ f +:+ "', " +:+ show_fields rest
  end.

(** From [parameters = tool.inputSchema] to [cleaned_parameters].  The
    source writes the default [required] into the upstream schema
    object itself; nothing reads that object afterwards. *)
Definition clean_parameters (inputSchema : dict) : result value :=
  let parameters :=
    if negb (dict_mem inputSchema "required")
    then dict_set inputSchema "required" (VList [])
    else inputSchema in
  match missing_fields parameters with
  | (_ :: _) as missing =>
      Raise (Exn ValueError
        ("Missing required fields in schema: {" +:+ show_fields missing +:+ "}"))
  | [] =>
      type <- py_getitem (VDict parameters) "type";;
      properties <- py_getitem (VDict parameters) "properties";;
      required <- py_getitem (VDict parameters) "required";;
      Ret (VDict [("type", type); ("properties", properties); ("required", required)])
  end.

(** The body of [for tool in client.tools]. *)
Definition register_operation (w : World) (server_name register_client_id : string)
    (tool : McpTool) : result ToolClass :=
  cleaned_parameters <- clean_parameters (mt_inputSchema tool);;
  create_tool_class w (server_name +:+ "-" +:+ mt_name tool) register_client_id
    (mt_name tool) (mt_description tool) cleaned_parameters.

Fixpoint register_operations (w : World) (server_name register_client_id : string)
    (discovered : list McpTool) (acc : list ToolClass) : result (list ToolClass) :=
  match discovered with
  | [] => Ret acc
  | tool :: rest =>
      agent_tool <- register_operation w server_name register_client_id tool;;
      register_operations w server_name register_client_id rest (acc ++ [agent_tool])
  end.

Definition list_resources_params : value :=
  VDict [("type", VStr "object"); ("properties", VDict []); ("required", VList [])].

Definition read_resource_params : value :=
  VDict [("type", VStr "object");
         ("properties",
          VDict [("uri",
                  VDict [("type", VStr "string");
                         ("description",
                          VStr "The URI identifying the specific resource to access")])]);
         ("required", VList [VStr "uri"])].

Definition list_resources_desc : string :=
  "Servers expose a list of concrete resources through this tool. " +:+
  "By invoking it, you can discover the available resources and obtain resource templates, which help clients understand how to construct valid URIs. " +:+
  "These URI formats will be used as input parameters for the read_resource function. ".

Definition original_tool_desc : string :=
  "Request to access a resource provided by a connected MCP server. Resources represent data sources that can be used as context, such as files, API responses, or system information.".

Definition newline : string := String (Ascii.ascii_of_nat 10) EmptyString.

Fixpoint join (sep : string) (parts : list string) : string :=
  match parts with
  | [] => EmptyString
  | [x] => x
  | x :: rest => x +:+ sep +:+ join sep rest
  end.

(** The two synthetic tools of [if client.resources:]. *)
Definition resource_operations (w : World) (server_name register_client_id : string)
    (client : MCPClient) : result (list ToolClass) :=
  if resources client then
    list_resources_agent_tool <-
      create_tool_class w (server_name +:+ "-" +:+ "list_resources") register_client_id
        "list_resources" (Some list_resources_desc) list_resources_params;;
    let resources_template_str :=
      match session client with
      | Some sess =>
          match list_resource_templates sess with
          | Ret templates => join newline templates
          | Raise _ => EmptyString
          end
      | None => EmptyString
      end in
    let tool_desc :=
      if String.eqb resources_template_str EmptyString then original_tool_desc
      else original_tool_desc +:+ newline +:+ "Resource Templates:" +:+ newline
           +:+ resources_template_str in
    read_resource_agent_tool <-
      create_tool_class w (server_name +:+ "-" +:+ "read_resource") register_client_id
        "read_resource" (Some tool_desc) read_resource_params;;
    Ret [list_resources_agent_tool; read_resource_agent_tool]
  else Ret [].

(** [str(uuid.uuid4())] *)
Definition fresh_uuid (w : World) : M string :=
  fun st => (Ret (uuid4 w (uuids st)),
             {| clients := clients st; connections := connections st;
                uuids := S (uuids st) |}).

(** [manager.clients[client_id] = client] *)
Definition install (id : string) (client : MCPClient) (st : manager) : manager :=
  {| clients := <[id := client]> (clients st);
     connections := connections st; uuids := uuids st |}.

Definition set_client (id : string) (client : MCPClient) : M unit :=
  fun st => (Ret tt, install id client st).

Definition with_client_id (client : MCPClient) (id : string) : MCPClient :=
  {| session := session client; tools := tools client; resources := resources client;
     _last_mcp_server_name := _last_mcp_server_name client;
     _last_mcp_server := _last_mcp_server client;
     client_id := Some id |}.

Definition client_tools (client : MCPClient) : result (list McpTool) :=
  match tools client with
  | Some l => Ret l
  | None => Raise (Exn TypeError "'NoneType' object is not iterable")
  end.

Local Open Scope manager_scope.

(** The loop [for server_name in mcp_servers] with the list [tools]
    built so far. *)
Fixpoint connect_servers (w : World) (mcp_servers : dict) (acc : list ToolClass)
    : M (list ToolClass) :=
  match mcp_servers with
  | [] => retM acc
  | (server_name, server) :: rest =>
      connected <~ connection_server w new_client (Some server_name) server;;
      uuid <~ fresh_uuid w;;
      let id := server_name +:+ "_" +:+ uuid in
      let client := with_client_id connected id in
      _ <~ set_client id client;;
      discovered <~ liftM (client_tools client);;
      acc1 <~ liftM (register_operations w server_name id discovered acc);;
      synthetic <~ liftM (resource_operations w server_name id client);;
      connect_servers w rest (acc1 ++ synthetic)
  end.

Definition init_config_async (w : World) (config : value) : M (list ToolClass) :=
  mcp_servers <~ liftM (py_getitem config "mcpServers");;
  entries <~ liftM (py_items mcp_servers);;
  connect_servers w entries [].

(** ** [MCPManager.initConfig] *)

Definition invalid_config : exn := Exn ValueError "Config of mcpservers is not valid".

Definition initConfig (w : World) (config : value) : M (list ToolClass) :=
  fun st =>
    if negb (is_valid_mcp_servers config) then (Raise invalid_config, st)
    else init_config_async w config st.

(** ** [MCPClient.execute_function] and [MCPClient.reconnect] *)

Definition blank_line : string := newline +:+ newline.

Definition text_parts (response : list content) : list string :=
  map c_text (List.filter (fun c => String.eqb (c_type c) "text") response).

Definition text_resources (contents : list resource_contents) : list string :=
  omap (fun r => match r with
                 | TextResourceContents text => Some text
                 | BlobResourceContents _ => None
                 end) contents.

Definition error_text (e : exn) : result string := Ret ("Error: " +:+ exn_str e).

(** The three branches on [tool_name], entered once the probe has
    passed. *)
Definition run_operation (self : MCPClient) (tool_nm : string) (tool_args : value)
    : result string :=
  if String.eqb tool_nm "list_resources" then
    try_except
      (match session self with
       | Some sess =>
           listed <- list_resources sess;;
           Ret (match listed with
                | [] => "No resources found"
                | _ => join blank_line listed
                end)
       | None => Ret "Session is not alive"
       end)
      error_text
  else if String.eqb tool_nm "read_resource" then
    try_except
      (uri <- py_get tool_args "uri" VNone;;
       if negb (truthy uri) then Raise (Exn ValueError "URI is required for read_resource")
       else
         match session self with
         | Some sess =>
             contents <- read_resource sess uri;;
             Ret (match text_resources contents with
                  | [] => "Failed to read resource"
                  | texts => join blank_line texts
                  end)
         | None => Ret "Session is not alive"
         end)
      error_text
  else
    match session self with
    | Some sess =>
        response <- call_tool sess tool_nm tool_args;;
        Ret (match text_parts response with
             | [] => "execute error"
             | texts => join blank_line texts
             end)
    | None => Ret "Session is not alive"
    end.

(** [if self.session is not None: await self.session.send_ping()] *)
Definition probe (self : MCPClient) : result unit :=
  match session self with
  | Some sess => send_ping sess
  | None => Ret tt
  end.

Definition reconnect (w : World) (self : MCPClient) : M MCPClient :=
  match client_id self with
  | None =>
      raiseM (Exn RuntimeError
        "Cannot reconnect: client_id is None. This usually means the client was not properly registered in MCPManager.")
  | Some id =>
      connection_server w (with_client_id new_client id)
        (_last_mcp_server_name self) (_last_mcp_server self)
  end.

Definition reconnect_error (detail : string) : string :=
  "Session reconnect (client creation) exception: " +:+ detail.

Definition key_error (key : string) : exn := Exn KeyError ("'" +:+ key +:+ "'").

(** The inner [try ... except Exception as e3] around the replayed
    call: what it raises is returned as text. *)
Definition replayed (outcome : option (result string * manager))
    : option (result string * manager) :=
  match outcome with
  | Some (Ret text, st3) => Some (Ret text, st3)
  | Some (Raise e3, st3) => Some (Ret (reconnect_error (exn_str e3)), st3)
  | None => None
  end.

(** [execute_function] calls itself on the replacement client, which
    probes again; [fuel] bounds the depth of that recursion and [None]
    means it was not enough. *)
Fixpoint execute_function (fuel : nat) (w : World) (self : MCPClient)
    (tool_nm : string) (tool_args : value) (st : manager)
    : option (result string * manager) :=
  match fuel with
  | O => None
  | S fuel' =>
      match probe self with
      | Ret _ => Some (run_operation self tool_nm tool_args, st)
      | Raise _ =>
          match client_id self with
          | Some id =>
              match reconnect w self st with
              | (Raise e3, st1) => replayed (Some (Raise e3, st1))
              | (Ret replacement, st1) =>
                  let st2 := install id replacement st1 in
                  match clients st2 !! id with
                  | Some current =>
                      replayed (execute_function fuel' w current tool_nm tool_args st2)
                  | None => replayed (Some (Raise (key_error id), st2))
                  end
              end
          | None => Some (Ret (reconnect_error "client_id is None"), st)
          end
      end
  end.

(** ** [ToolClass.call] *)

Definition decode_error (w : World) (text : string) : exn :=
  Exn JSONDecodeError (json_error w text).

(** The coroutine [call] submits: the client registered under the
    tool's identifier executes the operation. *)
Definition dispatch (fuel : nat) (w : World) (self : ToolClass) (tool_args : value)
    (st : manager) : option (result string * manager) :=
  match clients st !! tool_client_id self with
  | Some client => execute_function fuel w client (tool_name self) tool_args st
  | None => Some (Raise (key_error (tool_client_id self)), st)
  end.

Definition call (fuel : nat) (w : World) (self : ToolClass) (params : string)
    (st : manager) : option (result string * manager) :=
  match json_loads w params with
  | Some tool_args => dispatch fuel w self tool_args st
  | None => Some (Raise (decode_error w params), st)
  end.

(** ** The shape check and [initConfig] *)

Lemma check_servers_forall mcp_servers :
  check_servers mcp_servers = true <->
  (forall key server, In (key, server) mcp_servers -> check_server server = true).
Proof.
  induction mcp_servers as [|[k v] rest IH]; simpl.
  - split; [intros _ ? ? [] | reflexivity].
  - destruct (check_server v) eqn:E.
    + rewrite IH; split.
      * intros H key server [[= <- <-]|Hin]; eauto.
      * intros H key server Hin; eauto.
    + split; [discriminate|].
      intros H; rewrite <- E; eapply H; left; reflexivity.
Qed.

(** The malformed configurations the specification lists: [mcpServers]
    missing or not a dict, a server entry that is not a dict, a
    [command] that is not a string, a [command] without a list-valued
    [args]. *)
Inductive fails_shape_check : value -> Prop :=
| config_not_dict config :
    is_dict config = false -> fails_shape_check config
| mcpServers_missing c :
    dict_get c "mcpServers" = None -> fails_shape_check (VDict c)
| mcpServers_not_dict c v :
    dict_get c "mcpServers" = Some v -> is_dict v = false ->
    fails_shape_check (VDict c)
| server_not_dict c mcp_servers key server :
    dict_get c "mcpServers" = Some (VDict mcp_servers) ->
    In (key, server) mcp_servers -> is_dict server = false ->
    fails_shape_check (VDict c)
| command_not_string c mcp_servers key s command :
    dict_get c "mcpServers" = Some (VDict mcp_servers) ->
    In (key, VDict s) mcp_servers ->
    dict_get s "command" = Some command -> is_str command = false ->
    fails_shape_check (VDict c)
| command_without_args c mcp_servers key s :
    dict_get c "mcpServers" = Some (VDict mcp_servers) ->
    In (key, VDict s) mcp_servers ->
    dict_mem s "command" = true -> isinstance_at s "args" is_list = false ->
    fails_shape_check (VDict c).

Lemma check_servers_rejects mcp_servers key server :
  In (key, server) mcp_servers -> check_server server = false ->
  check_servers mcp_servers = false.
Proof.
  intros Hin Hbad.
  destruct (check_servers mcp_servers) eqn:E; [|reflexivity].
  rewrite (proj1 (check_servers_forall mcp_servers) E key server Hin) in Hbad.
  discriminate.
Qed.

Lemma fails_shape_check_invalid config :
  fails_shape_check config -> is_valid_mcp_servers config = false.
Proof.
  intros H; destruct H as
    [config Hd | c Hnone | c v Hget Hd | c ms key server Hget Hin Hd
     | c ms key s command Hget Hin Hcmd Hstr | c ms key s Hget Hin Hcmd Hargs];
    simpl.
  - destruct config; try reflexivity; discriminate.
  - rewrite Hnone; reflexivity.
  - rewrite Hget; destruct v; try reflexivity; discriminate.
  - rewrite Hget. eapply check_servers_rejects; [exact Hin|].
    destruct server; try reflexivity; discriminate.
  - rewrite Hget. eapply check_servers_rejects; [exact Hin|].
    simpl. unfold dict_mem at 1, isinstance_at at 1. rewrite Hcmd, Hstr. reflexivity.
  - rewrite Hget. eapply check_servers_rejects; [exact Hin|].
    simpl. rewrite Hcmd, Hargs. simpl.
    destruct (isinstance_at s "command" is_str); simpl; [|reflexivity].
    rewrite orb_true_r. reflexivity.
Qed.

(** C5.  When the configuration fails the shape check, [initConfig]
    raises [ValueError] and leaves the manager as it was: the client
    map is unchanged and no connection has been attempted. *)
Theorem initConfig_rejects_invalid (w : World) (config : value) (st : manager) :
  fails_shape_check config \/ is_valid_mcp_servers config = false ->
  initConfig w config st =
    (Raise (Exn ValueError "Config of mcpservers is not valid"), st).
Proof.
  intros H.
  assert (Hinv : is_valid_mcp_servers config = false).
  { destruct H as [H|H]; [apply fails_shape_check_invalid; exact H | exact H]. }
  unfold initConfig. rewrite Hinv. reflexivity.
Qed.

(** ** The empty server entry *)

Lemma check_server_empty : check_server (VDict []) = true.
Proof. reflexivity. Qed.

Lemma connection_server_empty (w : World) self server_name st :
  connection_server w self server_name (VDict []) st = (Raise (key_error "command"), st).
Proof. reflexivity. Qed.

Definition is_empty_entry (entry : string * value) : bool :=
  match snd entry with
  | VDict [] => true
  | _ => false
  end.

(** The verdict of the shape check does not depend on the empty
    entries. *)
Lemma check_servers_ignores_empty mcp_servers :
  check_servers mcp_servers =
  check_servers (List.filter (fun entry => negb (is_empty_entry entry)) mcp_servers).
Proof.
  induction mcp_servers as [|[key server] rest IH]; [reflexivity|].
  cbn [List.filter]. unfold is_empty_entry at 1. cbn [snd].
  destruct server as [|b|z|s|l|d|n]; cbn [negb check_servers]; rewrite <- ?IH;
    try reflexivity.
  destruct d as [|kv d]; cbn [negb check_servers]; rewrite <- ?IH; reflexivity.
Qed.

(** The loop over the servers, cut in two. *)
Lemma connect_servers_app (w : World) before rest :
  forall acc st,
    connect_servers w (before ++ rest) acc st =
    match connect_servers w before acc st with
    | (Ret acc1, st1) => connect_servers w rest acc1 st1
    | (Raise e, st1) => (Raise e, st1)
    end.
Proof.
  induction before as [|[server_name server] before IH]; intros acc st; [reflexivity|].
  cbn [app connect_servers]. unfold bindM.
  destruct (connection_server w new_client (Some server_name) server st)
    as [[connected|e] st1]; [|reflexivity].
  unfold fresh_uuid, set_client, liftM.
  destruct (client_tools _) as [discovered|e]; [|reflexivity].
  destruct (register_operations w server_name _ discovered acc) as [acc1|e];
    [|reflexivity].
  destruct (resource_operations w server_name _ _) as [synthetic|e]; [|reflexivity].
  apply IH.
Qed.

Lemma connect_servers_empty_entry (w : World) server_name rest acc st :
  connect_servers w ((server_name, VDict []) :: rest) acc st =
    (Raise (Exn KeyError "'command'"), st).
Proof. reflexivity. Qed.

(** A loop that meets an empty entry does not return. *)
Lemma connect_servers_raises (w : World) server_name mcp_servers :
  In (server_name, VDict []) mcp_servers ->
  forall acc st, exists e st', connect_servers w mcp_servers acc st = (Raise e, st').
Proof.
  intros Hin. apply in_split in Hin as (before & after & ->).
  intros acc st. rewrite connect_servers_app.
  destruct (connect_servers w before acc st) as [[acc1|e] st1]; [|eauto].
  rewrite connect_servers_empty_entry. eauto.
Qed.

Lemma check_servers_nonempty mcp_servers :
  check_servers mcp_servers = true <->
  (forall key server,
      In (key, server) mcp_servers -> server <> VDict [] -> check_server server = true).
Proof.
  rewrite check_servers_forall. split; intros H key server Hin.
  - intros _. exact (H key server Hin).
  - destruct server as [|b|z|t|l|d|n];
      try (apply (H key); [exact Hin | discriminate]).
    destruct d as [|kv d]; [reflexivity|].
    apply (H key); [exact Hin | discriminate].
Qed.

(** C10, as amended.  An empty server entry passes the per-entry checks
    and never changes the verdict: a configuration whose [mcpServers]
    holds an entry [{}] is valid exactly when its other entries pass
    the per-entry checks, and not whenever it holds such an entry.
    When it is valid, [initConfig] goes on to the loop over the
    servers; the entry has no ['url'], takes the subprocess branch of
    [connection_server] and fails there on [mcp_server['command']]
    before any connection is attempted.  So [initConfig] never returns
    on such a configuration, and once the entries before the empty one
    have connected and registered it raises that [KeyError]. *)
Theorem empty_server_entry_is_accepted (w : World) (c mcp_servers : dict)
    (server_name : string) (st : manager) :
  dict_get c "mcpServers" = Some (VDict mcp_servers) ->
  In (server_name, VDict []) mcp_servers ->
  check_server (VDict []) = true /\
  (is_valid_mcp_servers (VDict c) = true <->
   forall key server,
     In (key, server) mcp_servers -> server <> VDict [] -> check_server server = true) /\
  is_valid_mcp_servers (VDict c) =
    check_servers (List.filter (fun entry => negb (is_empty_entry entry)) mcp_servers) /\
  (is_valid_mcp_servers (VDict c) = true ->
   initConfig w (VDict c) st = connect_servers w mcp_servers [] st) /\
  takes_stdio_branch (VDict []) = true /\
  (forall self name st',
      connection_server w self name (VDict []) st' = (Raise (Exn KeyError "'command'"), st')) /\
  (exists e st', initConfig w (VDict c) st = (Raise e, st')) /\
  (forall before after acc st1,
      mcp_servers = before ++ (server_name, VDict []) :: after ->
      is_valid_mcp_servers (VDict c) = true ->
      connect_servers w before [] st = (Ret acc, st1) ->
      initConfig w (VDict c) st = (Raise (Exn KeyError "'command'"), st1)).
Proof.
  intros Hget Hin.
  assert (Hverdict : is_valid_mcp_servers (VDict c) = check_servers mcp_servers).
  { cbn [is_valid_mcp_servers]. rewrite Hget. reflexivity. }
  assert (Hinit : is_valid_mcp_servers (VDict c) = true ->
                  initConfig w (VDict c) st = connect_servers w mcp_servers [] st).
  { intros Hvalid. unfold initConfig. rewrite Hvalid. cbn [negb].
    unfold init_config_async, bindM, liftM. cbn [py_getitem]. rewrite Hget.
    reflexivity. }
  split; [reflexivity|].
  split; [rewrite Hverdict; apply check_servers_nonempty|].
  split; [rewrite Hverdict; apply check_servers_ignores_empty|].
  split; [exact Hinit|].
  split; [reflexivity|].
  split; [intros; reflexivity|].
  split.
  - destruct (is_valid_mcp_servers (VDict c)) eqn:Hvalid.
    + rewrite (Hinit eq_refl). eapply connect_servers_raises; exact Hin.
    + unfold initConfig. rewrite Hvalid. cbn [negb]. eauto.
  - intros before after acc st1 -> Hvalid Hbefore.
    rewrite (Hinit Hvalid), connect_servers_app, Hbefore.
    apply connect_servers_empty_entry.
Qed.

(** ** Registration of the discovered operations *)


Lemma py_getitem_dict (d : dict) key v :
  py_getitem (VDict d) key = Ret v <-> dict_get d key = Some v.
Proof.
  simpl; destruct (dict_get d key); split; intros H; try discriminate; congruence.
Qed.

Lemma missing_fields_nil (parameters : dict) :
  missing_fields parameters = [] ->
  dict_mem parameters "type" = true /\
  dict_mem parameters "properties" = true /\
  dict_mem parameters "required" = true.
Proof.
  unfold missing_fields, required_fields; cbn [List.filter].
  destruct (dict_mem parameters "type"), (dict_mem parameters "properties"),
    (dict_mem parameters "required"); simpl; intros H; try discriminate; auto.
Qed.

Lemma clean_parameters_ok (inputSchema : dict) cleaned :
  clean_parameters inputSchema = Ret cleaned ->
  exists type properties required,
    cleaned = VDict [("type", type); ("properties", properties); ("required", required)] /\
    dict_get inputSchema "type" = Some type /\
    dict_get inputSchema "properties" = Some properties /\
    required = default (VList []) (dict_get inputSchema "required").
Proof.
  unfold clean_parameters.
  set (parameters := if negb (dict_mem inputSchema "required")
                     then dict_set inputSchema "required" (VList [])
                     else inputSchema).
  assert (Htype : dict_get parameters "type" = dict_get inputSchema "type").
  { unfold parameters; destruct (dict_mem inputSchema "required"); simpl;
      [reflexivity | apply dict_get_set_ne; discriminate]. }
  assert (Hprops : dict_get parameters "properties" = dict_get inputSchema "properties").
  { unfold parameters; destruct (dict_mem inputSchema "required"); simpl;
      [reflexivity | apply dict_get_set_ne; discriminate]. }
  assert (Hreq : dict_get parameters "required" =
                 Some (default (VList []) (dict_get inputSchema "required"))).
  { unfold parameters, dict_mem.
    destruct (dict_get inputSchema "required") as [r|] eqn:E; simpl;
      [exact E | apply dict_get_set_eq]. }
  destruct (missing_fields parameters) as [|f fs] eqn:Hmiss; [|discriminate].
  apply missing_fields_nil in Hmiss as (Ht & Hp & _).
  apply dict_mem_get in Ht as [t Ht]; apply dict_mem_get in Hp as [p Hp].
  cbn [py_getitem]. rewrite Ht, Hp, Hreq. simpl.
  intros [= <-]. exists t, p, (default (VList []) (dict_get inputSchema "required")).
  rewrite <- Htype, <- Hprops. auto.
Qed.


Lemma create_tool_class_parameters (w : World) rn id tn desc params tool_obj :
  create_tool_class w rn id tn desc params = Ret tool_obj ->
  parameters tool_obj = params.
Proof.
  unfold create_tool_class.
  destruct (String.eqb rn EmptyString); [discriminate|].
  destruct (if is_dict params then is_tool_schema w rn desc params else Ret true)
    as [[|]|e]; simpl; try discriminate.
  intros [= <-]; reflexivity.
Qed.








(** ** Reconnect and replay *)

Lemma connection_server_clients (w : World) self server_name server st r st1 :
  connection_server w self server_name server st = (r, st1) ->
  clients st1 = clients st /\ uuids st1 = uuids st.
Proof.
  unfold connection_server.
  destruct (transport_of server) as [t|e]; [|intros [= _ <-]; auto].
  destruct (open_session w (connections st) t) as [[sess list_tools]|e];
    intros [= _ <-]; auto.
Qed.

Lemma connection_server_connected (w : World) self server_name server st connected st1 :
  connection_server w self server_name server st = (Ret connected, st1) ->
  client_id connected = client_id self /\
  _last_mcp_server connected = server /\
  connections st1 = S (connections st).
Proof.
  unfold connection_server.
  destruct (transport_of server) as [t|e]; [|discriminate].
  destruct (open_session w (connections st) t) as [[sess list_tools]|e];
    [|discriminate].
  intros [= <- <-]; auto.
Qed.

Lemma reconnect_replacement (w : World) self id st replacement st1 :
  client_id self = Some id ->
  reconnect w self st = (Ret replacement, st1) ->
  client_id replacement = Some id /\
  _last_mcp_server replacement = _last_mcp_server self /\
  clients st1 = clients st /\
  connections st1 = S (connections st).
Proof.
  unfold reconnect; intros ->  H.
  destruct (connection_server_clients _ _ _ _ _ _ _ H) as [Hc _].
  destruct (connection_server_connected _ _ _ _ _ _ _ H) as (Hid & Hlast & Hn).
  auto.
Qed.

Lemma replayed_returns outcome r st' :
  replayed outcome = Some (r, st') -> exists text, r = Ret text.
Proof.
  destruct outcome as [[[text|e] st0]|]; simpl; intros [= <- _] || discriminate; eauto.
Qed.

Lemma execute_function_unfold (w : World) self tool_nm tool_args st id e fuel :
  probe self = Raise e -> client_id self = Some id ->
  execute_function (S fuel) w self tool_nm tool_args st =
    match reconnect w self st with
    | (Raise e3, st1) => Some (Ret (reconnect_error (exn_str e3)), st1)
    | (Ret replacement, st1) =>
        replayed (execute_function fuel w replacement tool_nm tool_args
                    (install id replacement st1))
    end.
Proof.
  intros Hprobe Hid. cbn [execute_function]. rewrite Hprobe, Hid.
  destruct (reconnect w self st) as [[replacement|e3] st1]; [|reflexivity].
  cbn [install clients]. rewrite lookup_insert_eq. reflexivity.
Qed.

(** C2, as amended.  Let the probe of a client with a client identifier
    fail.  Then [execute_function] never raises.  One reconnect is made
    for that failure.  If it fails, its error text is returned and the
    client map is as before.  If it succeeds, the new client carries
    the same identifier, the map entry of that identifier is the new
    client, and the call is replayed by [execute_function] on the new
    client, what the replay raises being returned as text; when the
    new client's probe passes, exactly one connection has been made
    and the result of the operation on the new client is returned. *)
Theorem execute_function_reconnects (w : World) (self : MCPClient)
    (tool_nm : string) (tool_args : value) (st : manager) (id : string) (e : exn) :
  probe self = Raise e ->
  client_id self = Some id ->
  (forall fuel r st',
      execute_function fuel w self tool_nm tool_args st = Some (r, st') ->
      exists text, r = Ret text) /\
  (forall e3 st1,
      reconnect w self st = (Raise e3, st1) ->
      clients st1 = clients st /\
      forall fuel,
        execute_function (S fuel) w self tool_nm tool_args st =
          Some (Ret (reconnect_error (exn_str e3)), st1)) /\
  (forall replacement st1,
      reconnect w self st = (Ret replacement, st1) ->
      client_id replacement = Some id /\
      clients (install id replacement st1) !! id = Some replacement /\
      connections (install id replacement st1) = S (connections st) /\
      (forall fuel,
          execute_function (S fuel) w self tool_nm tool_args st =
            replayed (execute_function fuel w replacement tool_nm tool_args
                        (install id replacement st1))) /\
      (probe replacement = Ret tt ->
       forall fuel,
         execute_function (S (S fuel)) w self tool_nm tool_args st =
           Some (Ret (match run_operation replacement tool_nm tool_args with
                      | Ret text => text
                      | Raise e3 => reconnect_error (exn_str e3)
                      end),
                 install id replacement st1))).
Proof.
  intros Hprobe Hid. split; [|split].
  - intros [|fuel] r st' H; [discriminate|].
    rewrite (execute_function_unfold _ _ _ _ _ _ _ _ Hprobe Hid) in H.
    destruct (reconnect w self st) as [[replacement|e3] st1].
    + eapply replayed_returns; exact H.
    + injection H as <- _; eauto.
  - intros e3 st1 Hre. split.
    + unfold reconnect in Hre; rewrite Hid in Hre.
      apply connection_server_clients in Hre as [Hc _]; exact Hc.
    + intros fuel.
      rewrite (execute_function_unfold _ _ _ _ _ _ _ _ Hprobe Hid), Hre. reflexivity.
  - intros replacement st1 Hre.
    destruct (reconnect_replacement _ _ _ _ _ _ Hid Hre) as (Hrid & _ & _ & Hn).
    split; [exact Hrid|].
    split; [cbn [install clients]; apply lookup_insert_eq|].
    split; [exact Hn|].
    split.
    + intros fuel.
      rewrite (execute_function_unfold _ _ _ _ _ _ _ _ Hprobe Hid), Hre. reflexivity.
    + intros Hlive fuel.
      rewrite (execute_function_unfold _ _ _ _ _ _ _ _ Hprobe Hid), Hre.
      cbn [execute_function]. rewrite Hlive. cbn [replayed].
      destruct (run_operation replacement tool_nm tool_args); reflexivity.
Qed.

End Registry.

(* ===================================================================== *)
(** * Loading, the cache and the adapters ([mcp_utils.py]) *)
(* ===================================================================== *)

Module Utils.

Import Registry.
Local Open Scope result_scope.

(** ** The wrapper of [wrap_tools]: argument normalisation *)

(** The two chained [replace] calls on [kwargs_str]: an equals sign
    before a quotation mark becomes a colon; then an equals sign
    between two quotation marks becomes a colon (by then none is left). *)
Definition kwargs_fixed (kwargs_str : string) : string :=
  str_replace (Json.dq +:+ "=" +:+ Json.dq) (Json.dq +:+ ":" +:+ Json.dq)
    (str_replace ("=" +:+ Json.dq) (":" +:+ Json.dq) kwargs_str).

(** [params.update(other)] *)
Definition dict_update_value (w : World) (params : dict) (other : value) : result dict :=
  match other with
  | VDict d => Ret (dict_update params d)
  | VList pairs => update_from_pairs w params pairs
  | VStr EmptyString => Ret params
  | VStr _ =>
      Raise (Exn ValueError
        "dictionary update sequence element #0 has length 1; 2 is required")
  | _ => Raise (Exn TypeError ("'" +:+ type_name other +:+ "' object is not iterable"))
  end.

(** The block under [# Parse kwargs string]. *)
Definition merge_kwargs_fragment (w : World) (kwargs_str : value) (params : dict)
    : result dict :=
  match kwargs_str with
  | VStr text =>
      if strip_nonempty text then
        match json_loads w text with
        | Some parsed => dict_update_value w params parsed
        | None =>
            match json_loads w (kwargs_fixed text) with
            | Some parsed => dict_update_value w params parsed
            | None => Ret params
            end
        end
      else Ret params
  | other => if truthy other then Raise (no_attribute other "strip") else Ret params
  end.

(** The block under [# Parse args string]. *)
Definition merge_args_fragment (w : World) (args_str : value) (params : dict)
    : result dict :=
  match args_str with
  | VStr text =>
      if strip_nonempty text then
        match json_loads w text with
        | Some (VDict args_data) => Ret (dict_update params args_data)
        | Some _ => Ret params
        | None => Ret params
        end
      else Ret params
  | other => if truthy other then Raise (no_attribute other "strip") else Ret params
  end.

(** [params_json], from the positional arguments [args] and the
    keyword arguments [kwargs] of one invocation. *)
Definition normalize (w : World) (args : list value) (kwargs : dict) : result string :=
  if dict_mem kwargs "args" && dict_mem kwargs "kwargs" then
    args_str <- py_get (VDict kwargs) "args" (VStr EmptyString);;
    kwargs_str <- py_get (VDict kwargs) "kwargs" (VStr EmptyString);;
    params <- merge_kwargs_fragment w kwargs_str [];;
    params <- merge_args_fragment w args_str params;;
    Json.dumps (VDict params)
  else
    match args with
    | VDict first :: _ => Json.dumps (VDict first)
    | _ => Json.dumps (VDict kwargs)
    end.

Definition tool_call_error (e : exn) : string := "Tool call error: " +:+ exn_str e.

(** The [call] method of a tool object: it may change the registry, and
    it returns, raises, or (as [None]) does not finish. *)
Definition call_method : Type := string -> manager -> option (result string * manager).

(** The handler [except Exception as e] of the wrapper around an
    outcome: the error becomes the returned text. *)
Definition guarded (outcome : option (result string * manager))
    : option (result string * manager) :=
  match outcome with
  | Some (Ret text, st') => Some (Ret text, st')
  | Some (Raise e, st') => Some (Ret (tool_call_error e), st')
  | None => None
  end.

(** The function [wrap_tools] builds around a tool object: whatever is
    raised inside the [try] becomes the returned text. *)
Definition wrapper (w : World) (tool_obj_call : call_method)
    (args : list value) (kwargs : dict) (st : manager)
    : option (result string * manager) :=
  match normalize w args kwargs with
  | Raise e => guarded (Some (Raise e, st))
  | Ret params_json => guarded (tool_obj_call params_json st)
  end.

(** ** [wrap_tools]: building the adapters *)

Definition is_letter (c : Ascii.ascii) : bool :=
  let n := Ascii.nat_of_ascii c in
  ((65 <=? n) && (n <=? 90) || (97 <=? n) && (n <=? 122) || (n =? 95))%nat.

Fixpoint identifier_tail (s : string) : bool :=
  match s with
  | EmptyString => true
  | String c s' => (is_letter c || Json.is_digit c) && identifier_tail s'
  end.

(** [str.isidentifier] on ASCII names; what is proved from it is
    stated for names that satisfy [is_ascii]. *)
Definition isidentifier (s : string) : bool :=
  match s with
  | EmptyString => false
  | String c s' => is_letter c && identifier_tail s'
  end.

Definition keywords : list string :=
  ["False"; "None"; "True"; "and"; "as"; "assert"; "async"; "await"; "break";
   "class"; "continue"; "def"; "del"; "elif"; "else"; "except"; "finally";
   "for"; "from"; "global"; "if"; "import"; "in"; "is"; "lambda"; "nonlocal";
   "not"; "or"; "pass"; "raise"; "return"; "try"; "while"; "with"; "yield"].

(** [get_python_type_from_schema(value)], for what it can raise. *)
Definition get_python_type_from_schema (schema : value) : result unit :=
  t <- py_get schema "type" (VStr "string");;
  if hashable t then Ret tt
  else Raise (Exn TypeError ("unhashable type: '" +:+ type_name t +:+ "'")).

Fixpoint all_digits (s : string) : bool :=
  match s with
  | EmptyString => true
  | String c s' => Json.is_digit c && all_digits s'
  end.

(** The name [inspect.Parameter] keeps for a parameter, or the error
    of its constructor: the empty name has no first character; a dot
    followed by digits is renamed as an implicit argument; a keyword
    or a name that is not an identifier is refused. *)
Definition parameter_name (nm : string) : result string :=
  match nm with
  | EmptyString => Raise (Exn IndexError "string index out of range")
  | String c rest =>
      if (Ascii.nat_of_ascii c =? 46)%nat &&
         negb (String.eqb rest EmptyString) && all_digits rest
      then Ret ("implicit" +:+ rest)
      else if existsb (String.eqb nm) keywords || negb (isidentifier nm)
      then Raise (Exn ValueError ("'" +:+ nm +:+ "' is not a valid parameter name"))
      else Ret nm
  end.

(** The kind [inspect.Parameter] keeps: a name it takes for an implicit
    argument becomes positional-only. *)
Inductive parameter_kind : Type :=
| POSITIONAL_ONLY
| POSITIONAL_OR_KEYWORD.

Definition kind_of (nm : string) : parameter_kind :=
  match nm with
  | EmptyString => POSITIONAL_OR_KEYWORD
  | String c rest =>
      if (Ascii.nat_of_ascii c =? 46)%nat &&
         negb (String.eqb rest EmptyString) && all_digits rest
      then POSITIONAL_ONLY
      else POSITIONAL_OR_KEYWORD
  end.

Definition kind_description (kind : parameter_kind) : string :=
  match kind with
  | POSITIONAL_ONLY => "positional-only"
  | POSITIONAL_OR_KEYWORD => "positional or keyword"
  end.

(** [kind < top_kind] *)
Definition kind_below (kind top_kind : parameter_kind) : bool :=
  match kind, top_kind with
  | POSITIONAL_ONLY, POSITIONAL_OR_KEYWORD => true
  | _, _ => false
  end.

(** [Parameter(name, POSITIONAL_OR_KEYWORD, annotation=...)] for each
    item, the annotation being computed first. *)
Fixpoint signature_parameters (param_items : dict)
    : result (list (parameter_kind * string)) :=
  match param_items with
  | [] => Ret []
  | (nm, schema) :: rest =>
      _ <- get_python_type_from_schema schema;;
      kept <- parameter_name nm;;
      others <- signature_parameters rest;;
      Ret ((kind_of nm, kept) :: others)
  end.

(** The loop of [Signature([...])] over the parameters: a kind must
    not come after a later one, and a name must not have been seen. *)
Fixpoint validate_parameters (top_kind : parameter_kind) (seen : list string)
    (params : list (parameter_kind * string)) : result unit :=
  match params with
  | [] => Ret tt
  | (kind, nm) :: rest =>
      if kind_below kind top_kind
      then Raise (Exn ValueError
             ("wrong parameter order: " +:+ kind_description top_kind +:+
              " parameter before " +:+ kind_description kind +:+ " parameter"))
      else if existsb (String.eqb nm) seen
      then Raise (Exn ValueError ("duplicate parameter name: '" +:+ nm +:+ "'"))
      else validate_parameters (if kind_below top_kind kind then kind else top_kind)
             (nm :: seen) rest
  end.

Definition signature (param_items : dict) : result unit :=
  params <- signature_parameters param_items;;
  validate_parameters POSITIONAL_ONLY [] params.

(** [create_wrapper(tool_obj)]: the wrapper is determined by the tool
    object it closes over, so the adapter is represented by that
    object; building it can fail while its signature is synthesised. *)
Definition create_wrapper (tool_obj : ToolClass) : result ToolClass :=
  let params := parameters tool_obj in
  param_items <-
    match params with
    | VDict p =>
        if dict_mem p "properties"
        then properties <- py_getitem params "properties";; py_items properties
        else Ret p
    | _ => Ret []
    end;;
  _ <- signature param_items;;
  Ret tool_obj.

(** The dictionary [wrap_tools] returns: a new object each time. *)
Record adapter_map : Type := {
  map_id : nat;
  functions_map : list (string * ToolClass)
}.

Fixpoint wrap_each (tool_objs : list ToolClass) (acc : list (string * ToolClass))
    : result (list (string * ToolClass)) :=
  match tool_objs with
  | [] => Ret acc
  | tool :: rest =>
      adapter <- create_wrapper tool;;
      wrap_each rest
        (if existsb (fun kv => String.eqb (fst kv) (name tool)) acc
         then map (fun kv => if String.eqb (fst kv) (name tool)
                              then (fst kv, adapter) else kv) acc
         else acc ++ [(name tool, adapter)])
  end.

(** ** The process: the registry, [_config_cache], the allocated maps *)

Record process : Type := {
  mgr : manager;
  _config_cache : gmap string adapter_map;
  allocated : nat
}.

Definition empty_process : process :=
  {| mgr := empty_manager; _config_cache := ∅; allocated := O |}.

Definition P (A : Type) : Type := process -> result A * process.

Definition bindP {A B} (m : P A) (k : A -> P B) : P B :=
  fun ps =>
    match m ps with
    | (Ret a, ps') => k a ps'
    | (Raise e, ps') => (Raise e, ps')
    end.

Declare Scope process_scope.
Delimit Scope process_scope with process.
Notation "x <~ c1 ;; c2" := (bindP c1 (fun x => c2))
  (at level 100, c1 at next level, right associativity) : process_scope.

Definition retP {A} (a : A) : P A := fun ps => (Ret a, ps).
Definition liftP {A} (r : result A) : P A := fun ps => (r, ps).

(** Code of the registry, run on the process's manager. *)
Definition on_manager {A} (m : M A) : P A :=
  fun ps =>
    let '(r, st) := m (mgr ps) in
    (r, {| mgr := st; _config_cache := _config_cache ps; allocated := allocated ps |}).

Definition wrap_tools (tool_objs : list ToolClass) : P adapter_map :=
  fun ps =>
    match wrap_each tool_objs [] with
    | Ret fm =>
        (Ret {| map_id := allocated ps; functions_map := fm |},
         {| mgr := mgr ps; _config_cache := _config_cache ps;
            allocated := S (allocated ps) |})
    | Raise e => (Raise e, ps)
    end.

Local Open Scope process_scope.

(** ** [load_mcp_config] *)

(** The body of the [try]. *)
Definition load_mcp_config_body (w : World) (mcp_config_path : string)
    (return_callable : bool) : P (list ToolClass) :=
  text <~ liftP (read_file w mcp_config_path);;
  config <~ liftP (match json_loads w text with
                   | Some config => Ret config
                   | None => Raise (decode_error w text)
                   end);;
  tool_objs <~ on_manager (initConfig w config);;
  if return_callable then
    funcs <~ wrap_tools tool_objs;;
    retP (map snd (functions_map funcs))
  else retP tool_objs.

(** [except Exception as e: ... return []] *)
Definition load_mcp_config (w : World) (mcp_config_path : string)
    (return_callable : bool) : P (list ToolClass) :=
  fun ps =>
    match load_mcp_config_body w mcp_config_path return_callable ps with
    | (Ret loaded, ps') => (Ret loaded, ps')
    | (Raise _, ps') => (Ret [], ps')
    end.

Definition create_callable_mcp_tools (w : World) (config_path : string) : P adapter_map :=
  tool_objs <~ load_mcp_config w config_path false;;
  wrap_tools tool_objs.

(** ** [_get_cached_callable_tools] *)

Definition _get_cached_callable_tools (w : World) (mcp_config_path : string)
    : P adapter_map :=
  fun ps =>
    match _config_cache ps !! mcp_config_path with
    | Some cached => (Ret cached, ps)
    | None =>
        match create_callable_mcp_tools w mcp_config_path ps with
        | (Ret callable_tools, ps') =>
            (Ret callable_tools,
             {| mgr := mgr ps';
                _config_cache := <[mcp_config_path := callable_tools]> (_config_cache ps');
                allocated := allocated ps' |})
        | (Raise e, ps') => (Raise e, ps')
        end
    end.

(** [mcp_tool_to_callable]: the wrapper [wrap_tools] builds for the one
    tool; the fallback [callable_wrapper] has the same body. *)
Definition mcp_tool_to_callable (mcp_tool : ToolClass) : P ToolClass :=
  tools_dict <~ wrap_tools [mcp_tool];;
  match functions_map tools_dict with
  | (_, adapter) :: _ => retP adapter
  | [] => retP mcp_tool
  end.

(** ** The argument set of the specification, in its three encodings *)

Definition args_ab : dict := [("a", VInt 1); ("b", VStr "x")].
Definition args_ba : dict := [("b", VStr "x"); ("a", VInt 1)].

(** The keyword arguments of the call with the two string fragments,
    [args] holding the member [a] and [kwargs] the member [b]. *)
Definition fragments_ab : dict :=
  [("args", VStr (Json.qq "{'a':1}")); ("kwargs", VStr (Json.qq "{'b':'x'}"))].

(** A sequence of cached loads, one after the other. *)
Fixpoint load_sequence (w : World) (paths : list string) (ps : process) : process :=
  match paths with
  | [] => ps
  | path :: rest => load_sequence w rest (snd (_get_cached_callable_tools w path ps))
  end.

(** [os.path.abspath] on a path without [.] and [..] components, in the
    working directory [cwd]. *)
Definition abspath (cwd path : string) : string :=
  if String.prefix "/" path then path else cwd +:+ "/" +:+ path.

(** ** Loading *)

Lemma on_manager_initConfig_invalid (w : World) config ps :
  is_valid_mcp_servers config = false ->
  on_manager (initConfig w config) ps = (Raise invalid_config, ps).
Proof.
  intros H. unfold on_manager, initConfig. rewrite H. simpl.
  destruct ps; reflexivity.
Qed.

Lemma load_mcp_config_body_fails (w : World) path return_callable ps :
  (exists e, read_file w path = Raise e) \/
  (exists text, read_file w path = Ret text /\ json_loads w text = None) \/
  (exists text config, read_file w path = Ret text /\
                       json_loads w text = Some config /\
                       is_valid_mcp_servers config = false) ->
  exists e, load_mcp_config_body w path return_callable ps = (Raise e, ps).
Proof.
  unfold load_mcp_config_body, bindP, liftP.
  intros [[e H]|[(text & H & Hj)|(text & config & H & Hj & Hv)]]; rewrite H.
  - eauto.
  - rewrite Hj. eauto.
  - rewrite Hj, (on_manager_initConfig_invalid w config ps Hv). eauto.
Qed.

(** C1, as amended.  When the file is missing, its content is not JSON,
    or the configuration fails the shape check, [load_mcp_config]
    catches the error and returns the empty list as a normal result;
    nothing is registered and no connection is attempted;
    [create_callable_mcp_tools] returns a new, empty adapter map, and
    the cached loader returns that map and keeps it under the path. *)
Theorem load_mcp_config_returns_empty (w : World) (path : string)
    (return_callable : bool) (ps : process) :
  (exists e, read_file w path = Raise e) \/
  (exists text, read_file w path = Ret text /\ json_loads w text = None) \/
  (exists text config, read_file w path = Ret text /\
                       json_loads w text = Some config /\
                       is_valid_mcp_servers config = false) ->
  let empty_map := {| map_id := allocated ps; functions_map := [] |} in
  load_mcp_config w path return_callable ps = (Ret [], ps) /\
  create_callable_mcp_tools w path ps =
    (Ret empty_map,
     {| mgr := mgr ps; _config_cache := _config_cache ps;
        allocated := S (allocated ps) |}) /\
  (_config_cache ps !! path = None ->
   _get_cached_callable_tools w path ps =
     (Ret empty_map,
      {| mgr := mgr ps; _config_cache := <[path := empty_map]> (_config_cache ps);
         allocated := S (allocated ps) |})).
Proof.
  intros H empty_map.
  assert (Hload : forall rc, load_mcp_config w path rc ps = (Ret [], ps)).
  { intros rc. unfold load_mcp_config.
    destruct (load_mcp_config_body_fails w path rc ps H) as [e ->]. reflexivity. }
  assert (Hcreate : create_callable_mcp_tools w path ps =
            (Ret empty_map,
             {| mgr := mgr ps; _config_cache := _config_cache ps;
                allocated := S (allocated ps) |})).
  { unfold create_callable_mcp_tools, bindP. rewrite Hload. reflexivity. }
  split; [apply Hload|].
  split; [exact Hcreate|].
  intros Hmiss. unfold _get_cached_callable_tools. rewrite Hmiss, Hcreate. reflexivity.
Qed.

(** ** The cache *)

Lemma wrap_tools_cache tool_objs ps r ps' :
  wrap_tools tool_objs ps = (r, ps') -> _config_cache ps' = _config_cache ps.
Proof.
  unfold wrap_tools. destruct (wrap_each tool_objs []); intros [= _ <-]; reflexivity.
Qed.

Lemma on_manager_cache {A} (m : M A) ps r ps' :
  on_manager m ps = (r, ps') -> _config_cache ps' = _config_cache ps.
Proof.
  unfold on_manager. destruct (m (mgr ps)) as [r0 st]. intros [= _ <-]; reflexivity.
Qed.

Lemma load_mcp_config_body_cache (w : World) path return_callable ps r ps' :
  load_mcp_config_body w path return_callable ps = (r, ps') ->
  _config_cache ps' = _config_cache ps.
Proof.
  unfold load_mcp_config_body, bindP, liftP, retP.
  destruct (read_file w path) as [text|e]; [|intros [= _ <-]; reflexivity].
  destruct (json_loads w text) as [config|]; [|intros [= _ <-]; reflexivity].
  destruct (on_manager (initConfig w config) ps) as [[tool_objs|e] ps1] eqn:E1;
    apply on_manager_cache in E1; [|intros [= _ <-]; exact E1].
  destruct return_callable; [|intros [= _ <-]; exact E1].
  destruct (wrap_tools tool_objs ps1) as [[funcs|e] ps2] eqn:E2;
    apply wrap_tools_cache in E2; intros [= _ <-]; congruence.
Qed.

Lemma create_callable_mcp_tools_cache (w : World) path ps r ps' :
  create_callable_mcp_tools w path ps = (r, ps') ->
  _config_cache ps' = _config_cache ps.
Proof.
  unfold create_callable_mcp_tools, bindP, load_mcp_config.
  destruct (load_mcp_config_body w path false ps) as [[loaded|e] ps1] eqn:E1;
    apply load_mcp_config_body_cache in E1.
  - destruct (wrap_tools loaded ps1) as [r2 ps2] eqn:E2.
    apply wrap_tools_cache in E2. intros [= _ <-]; congruence.
  - destruct (wrap_tools [] ps1) as [r2 ps2] eqn:E2.
    apply wrap_tools_cache in E2. intros [= _ <-]; congruence.
Qed.

(** A call of the cached loader changes the cache at its own key only,
    and never changes an entry that is there. *)
Lemma get_cached_callable_tools_cache (w : World) path ps r ps' :
  _get_cached_callable_tools w path ps = (r, ps') ->
  (forall other, other <> path -> _config_cache ps' !! other = _config_cache ps !! other) /\
  (forall key cached, _config_cache ps !! key = Some cached ->
                      _config_cache ps' !! key = Some cached).
Proof.
  unfold _get_cached_callable_tools.
  destruct (_config_cache ps !! path) as [hit|] eqn:Hhit.
  - intros [= _ <-]; auto.
  - destruct (create_callable_mcp_tools w path ps) as [[callable_tools|e] ps1] eqn:E;
      apply create_callable_mcp_tools_cache in E; intros [= _ <-]; cbn [_config_cache];
      rewrite ?E; split; auto.
    + intros other Hne. apply lookup_insert_ne; congruence.
    + intros key cached Hkey.
      rewrite lookup_insert_ne; [exact Hkey | congruence].
Qed.

Lemma load_sequence_cache (w : World) paths :
  forall ps key cached,
    _config_cache ps !! key = Some cached ->
    _config_cache (load_sequence w paths ps) !! key = Some cached.
Proof.
  induction paths as [|path rest IH]; simpl; intros ps key cached H; [exact H|].
  apply IH.
  destruct (_get_cached_callable_tools w path ps) as [r ps'] eqn:E.
  exact (proj2 (get_cached_callable_tools_cache _ _ _ _ _ E) key cached H).
Qed.

(** C7, as amended.  The cache is keyed by the path string as it is
    passed.  Once a call of the cached loader has returned, a second
    call with the same path string returns the same adapter map and
    changes nothing (no load, no connection); so does a call after any
    sequence of later cached loads, the entry never leaving the cache;
    entries under other path strings are not affected. *)
Theorem cached_load_is_idempotent (w : World) (path : string) (ps ps1 : process)
    (callable_tools : adapter_map) :
  _get_cached_callable_tools w path ps = (Ret callable_tools, ps1) ->
  _get_cached_callable_tools w path ps1 = (Ret callable_tools, ps1) /\
  _config_cache ps1 !! path = Some callable_tools /\
  (forall w' paths,
      let later := load_sequence w' paths ps1 in
      _config_cache later !! path = Some callable_tools /\
      _get_cached_callable_tools w' path later = (Ret callable_tools, later)) /\
  (forall other, other <> path -> _config_cache ps1 !! other = _config_cache ps !! other).
Proof.
  intros H.
  assert (Hin : _config_cache ps1 !! path = Some callable_tools).
  { unfold _get_cached_callable_tools in H.
    destruct (_config_cache ps !! path) as [hit|] eqn:Hhit.
    - injection H as <- <-; exact Hhit.
    - destruct (create_callable_mcp_tools w path ps) as [[m|e] ps'];
        [|discriminate].
      injection H as <- <-. cbn [_config_cache]. apply lookup_insert_eq. }
  split; [unfold _get_cached_callable_tools; rewrite Hin; reflexivity|].
  split; [exact Hin|].
  split.
  - intros w' paths later.
    assert (Hlater : _config_cache later !! path = Some callable_tools)
      by (apply load_sequence_cache; exact Hin).
    split; [exact Hlater|].
    unfold _get_cached_callable_tools. rewrite Hlater. reflexivity.
  - apply (proj1 (get_cached_callable_tools_cache _ _ _ _ _ H)).
Qed.

(** ** The wrapper *)


(** [mcp_tool_to_callable] hands out the adapter of the tool itself. *)
Lemma mcp_tool_to_callable_adapter mcp_tool ps adapter ps' :
  mcp_tool_to_callable mcp_tool ps = (Ret adapter, ps') -> adapter = mcp_tool.
Proof.
  unfold mcp_tool_to_callable, bindP, wrap_tools, retP. cbn [wrap_each].
  destruct (create_wrapper mcp_tool) as [a|e] eqn:E; simpl; [|discriminate].
  intros [= <- _].
  unfold create_wrapper in E.
  destruct (match parameters mcp_tool with
            | VDict p => _
            | _ => _
            end) as [items|e]; simpl in E; [|discriminate].
  destruct (signature items); simpl in E; congruence.
Qed.

(** ** The three encodings *)

(** C3, as amended.  For every adapter whose client is registered, the
    keyword encoding and the positional dict give the JSON text with
    [a] before [b]; the encoding by the two string fragments, which
    merges the [kwargs] fragment first and the [args] fragment second,
    gives the text with [b] before [a].  Each text is read back by
    [call] and handed to [execute_function] of the owning client with
    the name of the operation: the first and the third as the object
    with its members in the order [a], [b], the second in the order
    [b], [a].  The two objects give every name the same value, and
    they are not the same payload. *)
Theorem three_encodings_payloads (w : World) (tool_obj : ToolClass)
    (client : MCPClient) (fuel : nat) (st : manager) :
  json_loads w (Json.qq "{'a':1}") = Some (VDict [("a", VInt 1)]) ->
  json_loads w (Json.qq "{'b':'x'}") = Some (VDict [("b", VStr "x")]) ->
  json_loads w (Json.qq "{'a': 1, 'b': 'x'}") = Some (VDict args_ab) ->
  json_loads w (Json.qq "{'b': 'x', 'a': 1}") = Some (VDict args_ba) ->
  clients st !! tool_client_id tool_obj = Some client ->
  normalize w [] args_ab = Ret (Json.qq "{'a': 1, 'b': 'x'}") /\
  normalize w [VDict args_ab] [] = Ret (Json.qq "{'a': 1, 'b': 'x'}") /\
  normalize w [] fragments_ab = Ret (Json.qq "{'b': 'x', 'a': 1}") /\
  wrapper w (call fuel w tool_obj) [] args_ab st =
    guarded (execute_function fuel w client (tool_name tool_obj) (VDict args_ab) st) /\
  wrapper w (call fuel w tool_obj) [VDict args_ab] [] st =
    guarded (execute_function fuel w client (tool_name tool_obj) (VDict args_ab) st) /\
  wrapper w (call fuel w tool_obj) [] fragments_ab st =
    guarded (execute_function fuel w client (tool_name tool_obj) (VDict args_ba) st) /\
  merge_kwargs_fragment w (VStr (Json.qq "{'b':'x'}")) [] = Ret [("b", VStr "x")] /\
  merge_args_fragment w (VStr (Json.qq "{'a':1}")) [("b", VStr "x")] = Ret args_ba /\
  (forall key, dict_get args_ba key = dict_get args_ab key) /\
  args_ba <> args_ab /\
  Json.qq "{'b': 'x', 'a': 1}" <> Json.qq "{'a': 1, 'b': 'x'}".
Proof.
  intros Ha Hb Hab Hba Hclient.
  assert (Hkw : merge_kwargs_fragment w (VStr (Json.qq "{'b':'x'}")) [] =
                Ret [("b", VStr "x")]).
  { unfold merge_kwargs_fragment.
    change (strip_nonempty (Json.qq "{'b':'x'}")) with true. cbv beta match.
    rewrite Hb. reflexivity. }
  assert (Har : merge_args_fragment w (VStr (Json.qq "{'a':1}")) [("b", VStr "x")] =
                Ret args_ba).
  { unfold merge_args_fragment.
    change (strip_nonempty (Json.qq "{'a':1}")) with true. cbv beta match.
    rewrite Ha. reflexivity. }
  assert (Hcall_ab : call fuel w tool_obj (Json.qq "{'a': 1, 'b': 'x'}") st =
            execute_function fuel w client (tool_name tool_obj) (VDict args_ab) st).
  { unfold call, dispatch. rewrite Hab, Hclient. reflexivity. }
  assert (Hcall_ba : call fuel w tool_obj (Json.qq "{'b': 'x', 'a': 1}") st =
            execute_function fuel w client (tool_name tool_obj) (VDict args_ba) st).
  { unfold call, dispatch. rewrite Hba, Hclient. reflexivity. }
  assert (Hn_ab : normalize w [] args_ab = Ret (Json.qq "{'a': 1, 'b': 'x'}"))
    by reflexivity.
  assert (Hn_pos : normalize w [VDict args_ab] [] = Ret (Json.qq "{'a': 1, 'b': 'x'}"))
    by reflexivity.
  assert (Hn_fr : normalize w [] fragments_ab = Ret (Json.qq "{'b': 'x', 'a': 1}")).
  { unfold normalize, fragments_ab.
    cbn [dict_mem dict_get String.eqb Ascii.eqb Bool.eqb andb py_get bind].
    rewrite Hkw. cbn [bind]. rewrite Har. reflexivity. }
  split; [exact Hn_ab|]. split; [exact Hn_pos|]. split; [exact Hn_fr|].
  split; [unfold wrapper; rewrite Hn_ab; cbv beta match; rewrite Hcall_ab; reflexivity|].
  split; [unfold wrapper; rewrite Hn_pos; cbv beta match; rewrite Hcall_ab; reflexivity|].
  split; [unfold wrapper; rewrite Hn_fr; cbv beta match; rewrite Hcall_ba; reflexivity|].
  split; [exact Hkw|]. split; [exact Har|].
  split; [|split; discriminate].
  intros key. unfold args_ba, args_ab. cbn [dict_get].
  destruct (String.eqb_spec "b" key) as [Hb'|Hb']; [|reflexivity].
  destruct (String.eqb_spec "a" key) as [Ha'|Ha']; [|reflexivity].
  rewrite <- Hb' in Ha'. discriminate Ha'.
Qed.

(** ** Fragments that do not parse *)

Lemma normalize_fragments (w : World) args (kwargs : dict) a k :
  dict_get kwargs "args" = Some (VStr a) ->
  dict_get kwargs "kwargs" = Some (VStr k) ->
  normalize w args kwargs =
    (params <- merge_kwargs_fragment w (VStr k) [];;
     params <- merge_args_fragment w (VStr a) params;;
     Json.dumps (VDict params)).
Proof.
  intros Ha Hk. unfold normalize, dict_mem. rewrite Ha, Hk. simpl. rewrite Ha, Hk.
  reflexivity.
Qed.

Lemma merge_kwargs_fragment_dropped (w : World) k params :
  json_loads w k = None -> json_loads w (kwargs_fixed k) = None ->
  merge_kwargs_fragment w (VStr k) params = Ret params.
Proof.
  intros H1 H2. unfold merge_kwargs_fragment. rewrite H1, H2.
  destruct (strip_nonempty k); reflexivity.
Qed.

Lemma merge_args_fragment_dropped (w : World) a params :
  json_loads w a = None -> merge_args_fragment w (VStr a) params = Ret params.
Proof.
  intros H. unfold merge_args_fragment. rewrite H.
  destruct (strip_nonempty a); reflexivity.
Qed.

(** C8, as amended.  When an adapter is invoked with both string
    fragments: a [kwargs] fragment that fails JSON parsing is parsed
    again after every equals sign before a quotation mark is replaced
    by a colon, and is dropped
    if that fails too; an [args] fragment that fails JSON parsing is
    dropped without a second attempt.  A dropped fragment does not
    fail the call: the contents of the other fragment are dispatched,
    and the empty object when both are dropped. *)
Theorem unparseable_fragments_are_dropped (w : World) (args : list value)
    (kwargs : dict) (a k : string) :
  dict_get kwargs "args" = Some (VStr a) ->
  dict_get kwargs "kwargs" = Some (VStr k) ->
  (json_loads w k = None -> strip_nonempty k = true ->
   forall params,
     merge_kwargs_fragment w (VStr k) params =
       match json_loads w (kwargs_fixed k) with
       | Some parsed => dict_update_value w params parsed
       | None => Ret params
       end) /\
  (json_loads w k = None -> json_loads w (kwargs_fixed k) = None ->
   normalize w args kwargs =
     (params <- merge_args_fragment w (VStr a) [];; Json.dumps (VDict params))) /\
  (json_loads w a = None ->
   (forall params, merge_args_fragment w (VStr a) params = Ret params) /\
   normalize w args kwargs =
     (params <- merge_kwargs_fragment w (VStr k) [];; Json.dumps (VDict params))) /\
  (json_loads w k = None -> json_loads w (kwargs_fixed k) = None ->
   json_loads w a = None ->
   normalize w args kwargs = Ret "{}" /\
   forall tool_obj_call st,
     wrapper w tool_obj_call args kwargs st = guarded (tool_obj_call "{}" st)) /\
  (json_loads w k = None -> json_loads w (kwargs_fixed k) = None ->
   forall args_data,
     json_loads w a = Some (VDict args_data) -> strip_nonempty a = true ->
     normalize w args kwargs = Json.dumps (VDict (dict_update [] args_data))) /\
  (json_loads w a = None ->
   forall kwargs_data,
     json_loads w k = Some (VDict kwargs_data) -> strip_nonempty k = true ->
     normalize w args kwargs = Json.dumps (VDict (dict_update [] kwargs_data))).
Proof.
  intros Ha Hk.
  pose proof (normalize_fragments w args kwargs a k Ha Hk) as Hn.
  split; [|split; [|split; [|split; [|split]]]].
  - intros H1 Hs params. unfold merge_kwargs_fragment. rewrite Hs, H1. reflexivity.
  - intros H1 H2. rewrite Hn, (merge_kwargs_fragment_dropped w k [] H1 H2). reflexivity.
  - intros H. split; [intros; apply merge_args_fragment_dropped; exact H|].
    rewrite Hn.
    destruct (merge_kwargs_fragment w (VStr k) []) as [params|e]; cbn [bind]; [|reflexivity].
    rewrite (merge_args_fragment_dropped w a params H). reflexivity.
  - intros H1 H2 H3.
    assert (Hp : normalize w args kwargs = Ret "{}").
    { rewrite Hn, (merge_kwargs_fragment_dropped w k [] H1 H2). cbn [bind].
      rewrite (merge_args_fragment_dropped w a [] H3). reflexivity. }
    split; [exact Hp|].
    intros tool_obj_call st. unfold wrapper. rewrite Hp. reflexivity.
  - intros H1 H2 args_data H3 Hs.
    rewrite Hn, (merge_kwargs_fragment_dropped w k [] H1 H2). cbn [bind].
    unfold merge_args_fragment. rewrite Hs, H3. reflexivity.
  - intros H kwargs_data H1 Hs.
    rewrite Hn. unfold merge_kwargs_fragment. rewrite Hs, H1. cbn [bind dict_update_value].
    rewrite (merge_args_fragment_dropped w a _ H). reflexivity.
Qed.

End Utils.

(* ===================================================================== *)
(** * Scenarios: the results above on concrete servers and files *)
(* ===================================================================== *)

Module Scenarios.

Import Registry Utils.

(** ** Servers *)

Definition pong : list content := [{| c_type := "text"; c_text := "pong" |}].

(** A session whose server answers every request. *)
Definition live_session : Session :=
  {| send_ping := Ret tt;
     list_resources := Ret [];
     read_resource := fun _ => Ret [];
     call_tool := fun _ _ => Ret pong;
     list_resource_templates := Ret [] |}.

Definition connection_closed : exn := Exn OtherError "Connection closed".

(** A session whose connection is gone. *)
Definition dead_session : Session :=
  {| send_ping := Raise connection_closed;
     list_resources := Raise connection_closed;
     read_resource := fun _ => Raise connection_closed;
     call_tool := fun _ _ => Raise connection_closed;
     list_resource_templates := Raise connection_closed |}.

(** The one tool of the example server; its schema has no [required]. *)
Definition say : McpTool :=
  {| mt_name := "say";
     mt_description := Some "Echo the text";
     mt_inputSchema :=
       [("type", VStr "object");
        ("properties", VDict [("text", VDict [("type", VStr "string")])])] |}.


Definition connection_refused : exn := Exn OtherError "Connection refused".

(** ** Worlds *)

(** [dict.update] given a list: each element is read as a sequence of
    two, the key and the value.  Exact when the keys are strings; a
    key that is a number, a truth value or [None], which the
    dictionaries of the model cannot hold, is kept under the name
    [json.dumps] prints it with. *)
Definition pair_key (key : value) : result string :=
  match key with
  | VStr k => Ret k
  | VInt z => Ret (string_of_Z z)
  | VBool true => Ret "true"
  | VBool false => Ret "false"
  | VNone => Ret "null"
  | VList _ | VDict _ => Raise (Exn TypeError ("unhashable type: '" +:+ type_name key +:+ "'"))
  | VObj _ =>
      Raise (Exn TypeError
               "keys must be str, int, float, bool or None, not object")
  end.

Fixpoint update_pairs (index : nat) (params : dict) (pairs : list value) : result dict :=
  match pairs with
  | [] => Ret params
  | item :: rest =>
      match py_iter item with
      | Raise _ =>
          Raise (Exn TypeError
                   ("cannot convert dictionary update sequence element #" +:+
                    string_of_Z (Z.of_nat index) +:+ " to a sequence"))
      | Ret [key; v] =>
          match pair_key key with
          | Ret k => update_pairs (S index) (dict_set params k v) rest
          | Raise e => Raise e
          end
      | Ret members =>
          Raise (Exn ValueError
                   ("dictionary update sequence element #" +:+
                    string_of_Z (Z.of_nat index) +:+ " has length " +:+
                    string_of_Z (Z.of_nat (length members)) +:+ "; 2 is required"))
      end
  end.

(** A world is fixed by its files and by how the servers answer the
    successive connection attempts. *)
Definition world (files : list (string * string))
    (answers : nat -> result (Session * list McpTool)) : World :=
  {| json_loads := Json.loads;
     json_error := fun _ => "Expecting value";
     update_from_pairs := update_pairs 0;
     read_file := fun path =>
       match List.find (fun f => String.eqb (fst f) path) files with
       | Some f => Ret (snd f)
       | None => Raise (Exn FileNotFoundError
                          ("[Errno 2] No such file or directory: '" +:+ path +:+ "'"))
       end;
     open_session := fun n _ => answers n;
     uuid4 := fun n => "u" +:+ string_of_Z (Z.of_nat n);
     jsonschema_accepts := fun _ => true |}.

(** Every connection succeeds. *)
Definition always_live : nat -> result (Session * list McpTool) :=
  fun _ => Ret (live_session, [say]).

(** The second attempt of the process reaches a server that is gone
    again; the third one a live server. *)
Definition live_at_third : nat -> result (Session * list McpTool) :=
  fun n =>
    match n with
    | 1%nat => Ret (dead_session, [say])
    | 2%nat => Ret (live_session, [say])
    | _ => Raise connection_refused
    end.

Definition never : nat -> result (Session * list McpTool) :=
  fun _ => Raise connection_refused.

(** ** Configurations and files *)

Definition echo_descriptor : value :=
  VDict [("command", VStr "npx"); ("args", VList [VStr "-y"; VStr "echo-server"])].

Definition echo_config_text : string :=
  Json.qq "{'mcpServers': {'echo': {'command': 'npx', 'args': ['-y', 'echo-server']}}}".

(** The same file under its relative and its absolute name, in the
    working directory [/work]. *)
Definition files : list (string * string) :=
  [("cfg.json", echo_config_text);
   ("/work/cfg.json", echo_config_text);
   ("broken.json", "{not json");
   ("noargs.json", Json.qq "{'mcpServers': {'memory': {'command': 'npx'}}}")].

Definition config_without_args : value :=
  VDict [("mcpServers", VDict [("memory", VDict [("command", VStr "npx")])])].

Definition config_empty_entry : value :=
  VDict [("mcpServers", VDict [("memory", VDict [])])].

(** An empty entry after an entry that connects, and an empty entry
    beside an entry that is not a dict. *)
Definition config_echo_and_empty : value :=
  VDict [("mcpServers", VDict [("echo", echo_descriptor); ("memory", VDict [])])].

Definition config_empty_and_malformed : value :=
  VDict [("mcpServers", VDict [("a", VDict []); ("b", VInt 5)])].

(** ** A registered client whose session has died *)

Definition dead_client : MCPClient :=
  {| session := Some dead_session;
     tools := Some [say];
     resources := false;
     _last_mcp_server_name := Some "echo";
     _last_mcp_server := echo_descriptor;
     client_id := Some "echo_u0" |}.

(** The registry after the first connection of the process. *)
Definition registry_with_dead_client : manager :=
  {| clients := {[ "echo_u0" := dead_client ]}; connections := 1; uuids := 1 |}.

Definition say_tool : ToolClass :=
  {| name := "echo-say";
     description := Some "Echo the text";
     parameters :=
       VDict [("type", VStr "object");
              ("properties", VDict [("text", VDict [("type", VStr "string")])]);
              ("required", VList [])];
     tool_client_id := "echo_u0";
     tool_name := "say" |}.

(** What is observed of an outcome: the result and the number of
    connection attempts the process has made. *)
Definition observed (outcome : option (result string * manager))
    : option (result string * nat) :=
  match outcome with
  | Some (r, st) => Some (r, connections st)
  | None => None
  end.

(** ** The fragments of the example for unparseable [args] *)

Definition kwargs_with_equals_in_args : dict :=
  [("args", VStr (Json.qq "{'a'='x'}")); ("kwargs", VStr "{}")].

Definition kwargs_with_equals_in_kwargs : dict :=
  [("args", VStr "{}"); ("kwargs", VStr (Json.qq "{'a'='x'}"))].

(** ** The first cached load of the process *)

Definition first_load : result adapter_map * process :=
  _get_cached_callable_tools (world files always_live) "cfg.json" empty_process.

Definition loaded_map : adapter_map :=
  {| map_id := 0; functions_map := [("echo-say", say_tool)] |}.

Definition returned {A} (r : result A) : option A :=
  match r with Ret a => Some a | Raise _ => None end.

(** ** A server that tells the order of the members apart *)

(** A session whose tool answers with the name of the first member of
    the arguments it is sent. *)
Definition first_member_session : Session :=
  {| send_ping := Ret tt;
     list_resources := Ret [];
     read_resource := fun _ => Ret [];
     call_tool := fun _ tool_args =>
       Ret [{| c_type := "text";
               c_text := match tool_args with
                         | VDict ((key, _) :: _) => key
                         | _ => "none"
                         end |}];
     list_resource_templates := Ret [] |}.

Definition first_member_client : MCPClient :=
  {| session := Some first_member_session;
     tools := Some [say];
     resources := false;
     _last_mcp_server_name := Some "echo";
     _last_mcp_server := echo_descriptor;
     client_id := Some "echo_u0" |}.

Definition registry_with_first_member_client : manager :=
  {| clients := {[ "echo_u0" := first_member_client ]}; connections := 1; uuids := 1 |}.

(** The text an invocation returns. *)
Definition answer (outcome : option (result string * manager)) : option (result string) :=
  fst <$> outcome.

(** ** The shape check *)

Lemma initConfig_rejects_invalid_witness :
  (fails_shape_check config_without_args \/
   is_valid_mcp_servers config_without_args = false) /\
  initConfig (world files always_live) config_without_args empty_manager =
    (Raise (Exn ValueError "Config of mcpservers is not valid"), empty_manager).
Proof.
  assert (H : fails_shape_check config_without_args \/
              is_valid_mcp_servers config_without_args = false)
    by (right; reflexivity).
  split; [exact H|].
  exact (initConfig_rejects_invalid (world files always_live) config_without_args
           empty_manager H).
Defined.

(** C10 as stated fails: a configuration that maps a name to [{}] is
    not valid for that.  Beside an entry that is not a dict the shape
    check returns [False] and [initConfig] raises [ValueError]. *)
Lemma empty_entry_beside_malformed_entry :
  In ("a", VDict []) [("a", VDict []); ("b", VInt 5)] /\
  is_valid_mcp_servers config_empty_and_malformed = false /\
  initConfig (world files always_live) config_empty_and_malformed empty_manager =
    (Raise (Exn ValueError "Config of mcpservers is not valid"), empty_manager).
Proof. split; [left; reflexivity|]. split; reflexivity. Qed.

Lemma empty_server_entry_is_accepted_witness :
  is_valid_mcp_servers config_echo_and_empty = true /\
  (exists st1,
    initConfig (world files always_live) config_echo_and_empty empty_manager =
      (Raise (Exn KeyError "'command'"), st1) /\
    connections st1 = 1%nat) /\
  initConfig (world files always_live) config_empty_entry empty_manager =
    (Raise (Exn KeyError "'command'"), empty_manager).
Proof.
  split; [reflexivity|]. split; [|reflexivity].
  pose proof (empty_server_entry_is_accepted (world files always_live)
                [("mcpServers", VDict [("echo", echo_descriptor); ("memory", VDict [])])]
                [("echo", echo_descriptor); ("memory", VDict [])] "memory" empty_manager
                eq_refl (or_intror (or_introl eq_refl)))
    as (_ & _ & _ & _ & _ & _ & _ & Hraises).
  destruct (connect_servers (world files always_live) [("echo", echo_descriptor)] []
              empty_manager) as [[acc|e] st1] eqn:E; [|vm_compute in E; discriminate E].
  exists st1. split.
  - exact (Hraises [("echo", echo_descriptor)] [] acc st1 eq_refl eq_refl E).
  - vm_compute in E. injection E as _ <-. reflexivity.
Defined.

(** ** Registration *)



(** ** Reconnect *)

(** C2 as stated fails: when the replacement's probe fails too, one
    call of [execute_function] reconnects twice.  The process had made
    one connection; after the call it has made three. *)
Lemma execute_function_reconnects_twice :
  probe dead_client = Raise connection_closed /\
  connections registry_with_dead_client = 1%nat /\
  observed (execute_function 3 (world files live_at_third) dead_client "say" (VDict [])
              registry_with_dead_client) =
    Some (Ret "pong", 3%nat).
Proof. repeat split. Qed.

Lemma execute_function_reconnects_witness :
  probe dead_client = Raise connection_closed /\
  client_id dead_client = Some "echo_u0" /\
  forall fuel r st',
    execute_function fuel (world files always_live) dead_client "say" (VDict [])
      registry_with_dead_client = Some (r, st') ->
    exists text, r = Ret text.
Proof.
  split; [reflexivity|]. split; [reflexivity|].
  exact (proj1 (execute_function_reconnects (world files always_live) dead_client
                  "say" (VDict []) registry_with_dead_client "echo_u0"
                  connection_closed eq_refl eq_refl)).
Defined.

(** ** Loading *)

(** C1 as stated fails: loading a missing file returns the empty list
    as a normal result; nothing is raised. *)
Lemma load_of_missing_file_returns :
  read_file (world files always_live) "missing.json" =
    Raise (Exn FileNotFoundError
             "[Errno 2] No such file or directory: 'missing.json'") /\
  load_mcp_config (world files always_live) "missing.json" false empty_process =
    (Ret [], empty_process) /\
  ~ (exists e ps,
        load_mcp_config (world files always_live) "missing.json" false empty_process =
          (Raise e, ps)) /\
  fst (_get_cached_callable_tools (world files always_live) "missing.json"
         empty_process) = Ret {| map_id := 0; functions_map := [] |}.
Proof.
  split; [reflexivity|].
  assert (H : load_mcp_config (world files always_live) "missing.json" false
                empty_process = (Ret [], empty_process)) by reflexivity.
  split; [exact H|].
  split; [|reflexivity].
  intros (e & ps & He). rewrite H in He. discriminate He.
Qed.

Lemma load_mcp_config_returns_empty_witness :
  load_mcp_config (world files always_live) "broken.json" false empty_process =
    (Ret [], empty_process) /\
  load_mcp_config (world files always_live) "noargs.json" true empty_process =
    (Ret [], empty_process).
Proof.
  split.
  - apply (load_mcp_config_returns_empty (world files always_live) "broken.json"
             false empty_process).
    right; left. exists "{not json". split; reflexivity.
  - apply (load_mcp_config_returns_empty (world files always_live) "noargs.json"
             true empty_process).
    right; right. exists (Json.qq "{'mcpServers': {'memory': {'command': 'npx'}}}"),
      config_without_args.
    repeat split.
Defined.

(** ** The cache *)

Lemma first_load_returns : first_load = (Ret loaded_map, snd first_load).
Proof. vm_compute. reflexivity. Qed.

(** C7 as stated fails: the cache is keyed by the path string, not by
    the absolute path.  [cfg.json] and [/work/cfg.json] name the same
    file in the working directory [/work]; loading the second after the
    first misses the cache, connects again and returns another map. *)
Lemma cache_is_keyed_by_the_string :
  abspath "/work" "cfg.json" = abspath "/work" "/work/cfg.json" /\
  fst first_load = Ret loaded_map /\
  connections (mgr (snd first_load)) = 1%nat /\
  (let second :=
     _get_cached_callable_tools (world files always_live) "/work/cfg.json"
       (snd first_load) in
   (map_id <$> returned (fst second)) = Some 1%nat /\
   connections (mgr (snd second)) = 2%nat).
Proof. vm_compute. repeat split. Qed.

Lemma cached_load_is_idempotent_witness :
  _get_cached_callable_tools (world files always_live) "cfg.json" empty_process =
    (Ret loaded_map, snd first_load) /\
  _get_cached_callable_tools (world files always_live) "cfg.json" (snd first_load) =
    (Ret loaded_map, snd first_load).
Proof.
  split; [exact first_load_returns|].
  exact (proj1 (cached_load_is_idempotent (world files always_live) "cfg.json"
                  empty_process (snd first_load) loaded_map first_load_returns)).
Defined.

(** ** The adapters *)


(** C3 as stated fails: the payloads are not the same.  The text the
    fragment encoding hands to [call] lists [b] before [a], the text of
    the two other encodings [a] before [b], and a server that answers
    with the first member it is sent answers [a] to the keyword and
    the positional encoding and [b] to the fragment encoding. *)
Lemma fragment_encoding_is_told_apart :
  normalize (world files never) [] fragments_ab <>
    normalize (world files never) [] args_ab /\
  answer (wrapper (world files never) (call 1 (world files never) say_tool)
            [] args_ab registry_with_first_member_client) = Some (Ret "a") /\
  answer (wrapper (world files never) (call 1 (world files never) say_tool)
            [VDict args_ab] [] registry_with_first_member_client) = Some (Ret "a") /\
  answer (wrapper (world files never) (call 1 (world files never) say_tool)
            [] fragments_ab registry_with_first_member_client) = Some (Ret "b").
Proof.
  split; [intros H; vm_compute in H; discriminate H|].
  repeat split; vm_compute; reflexivity.
Qed.

Lemma three_encodings_payloads_witness :
  clients registry_with_first_member_client !! tool_client_id say_tool =
    Some first_member_client /\
  wrapper (world files always_live) (call 1 (world files always_live) say_tool)
    [] fragments_ab registry_with_first_member_client =
    guarded (execute_function 1 (world files always_live) first_member_client "say"
               (VDict args_ba) registry_with_first_member_client) /\
  wrapper (world files always_live) (call 1 (world files always_live) say_tool)
    [] args_ab registry_with_first_member_client =
    guarded (execute_function 1 (world files always_live) first_member_client "say"
               (VDict args_ab) registry_with_first_member_client).
Proof.
  split; [reflexivity|].
  pose proof (three_encodings_payloads (world files always_live) say_tool
                first_member_client 1%nat registry_with_first_member_client
                eq_refl eq_refl eq_refl eq_refl eq_refl)
    as (_ & _ & _ & Hkeywords & _ & Hfragments & _).
  split; [exact Hfragments | exact Hkeywords].
Defined.

(** C8 as stated fails: an [args] fragment that does not parse is not
    tried again.  The fragment with an equals sign between [a] and [x]
    parses once the equals sign is replaced, and as the [kwargs]
    fragment it is dispatched; as the [args] fragment it is dropped
    and the empty object is dispatched. *)
Lemma args_fragment_is_not_retried :
  Json.loads (Json.qq "{'a'='x'}") = None /\
  Json.loads (kwargs_fixed (Json.qq "{'a'='x'}")) = Some (VDict [("a", VStr "x")]) /\
  normalize (world files never) [] kwargs_with_equals_in_kwargs =
    Ret (Json.qq "{'a': 'x'}") /\
  normalize (world files never) [] kwargs_with_equals_in_args = Ret "{}".
Proof. repeat split. Qed.

Lemma unparseable_fragments_are_dropped_witness :
  dict_get kwargs_with_equals_in_args "args" = Some (VStr (Json.qq "{'a'='x'}")) /\
  dict_get kwargs_with_equals_in_args "kwargs" = Some (VStr "{}") /\
  json_loads (world files never) (Json.qq "{'a'='x'}") = None /\
  normalize (world files never) [] kwargs_with_equals_in_args =
    Json.dumps (VDict (dict_update [] [])).
Proof.
  split; [reflexivity|]. split; [reflexivity|]. split; [reflexivity|].
  refine (proj2 (proj2 (proj2 (proj2 (proj2
            (unparseable_fragments_are_dropped (world files never) []
               kwargs_with_equals_in_args (Json.qq "{'a'='x'}") "{}"
               eq_refl eq_refl))))) _ [] _ _); reflexivity.
Defined.

End Scenarios.

(* ===================================================================== *)
(** * Executing an operation: the paths without a reconnect *)
(* ===================================================================== *)

Module Operations.

Import Registry Scenarios.

(** A registered client whose session answers. *)
Definition live_client : MCPClient :=
  {| session := Some live_session;
     tools := Some [say];
     resources := false;
     _last_mcp_server_name := Some "echo";
     _last_mcp_server := echo_descriptor;
     client_id := Some "echo_u0" |}.

Lemma connection_server_connections (w : World) self server_name server st r st1 :
  connection_server w self server_name server st = (r, st1) ->
  (connections st <= connections st1)%nat.
Proof.
  unfold connection_server.
  destruct (transport_of server) as [t|e]; [|intros [= _ <-]; lia].
  destruct (open_session w (connections st) t) as [[sess list_tools]|e];
    intros [= _ <-]; simpl; lia.
Qed.

Lemma run_operation_list_resources self tool_args :
  exists text, run_operation self "list_resources" tool_args = Ret text.
Proof.
  unfold run_operation. cbn [String.eqb Ascii.eqb Bool.eqb].
  destruct (session self) as [sess|]; simpl; [|eauto].
  destruct (list_resources sess); simpl; eauto.
Qed.

Lemma run_operation_read_resource self tool_args :
  exists text, run_operation self "read_resource" tool_args = Ret text.
Proof.
  unfold run_operation.
  change (String.eqb "read_resource" "list_resources") with false.
  change (String.eqb "read_resource" "read_resource") with true.
  cbv beta iota.
  destruct (py_get tool_args "uri" VNone) as [uri|e]; simpl; [|eauto].
  destruct (truthy uri); simpl; [|eauto].
  destruct (session self) as [sess|]; simpl; [|eauto].
  destruct (read_resource sess uri); simpl; eauto.
Qed.

(** X1.  When the probe passes, [execute_function] leaves the registry
    as it is and makes no connection.  The built-in operations
    [list_resources] and [read_resource] never raise (a failure is
    returned as text; a missing or empty [uri] gives the text
    [Error: URI is required for read_resource] whatever the session);
    every other operation is forwarded, and what the session raises
    on it is raised by [execute_function]. *)
Theorem execute_function_live_probe (w : World) (self : MCPClient)
    (tool_nm : string) (tool_args : value) (st : manager) (fuel : nat) :
  probe self = Ret tt ->
  (exists r, execute_function (S fuel) w self tool_nm tool_args st = Some (r, st)) /\
  (tool_nm = "list_resources" \/ tool_nm = "read_resource" ->
   exists text,
     execute_function (S fuel) w self tool_nm tool_args st = Some (Ret text, st)) /\
  (tool_nm = "read_resource" ->
   forall uri, py_get tool_args "uri" VNone = Ret uri -> truthy uri = false ->
   execute_function (S fuel) w self tool_nm tool_args st =
     Some (Ret "Error: URI is required for read_resource", st)) /\
  (tool_nm <> "list_resources" -> tool_nm <> "read_resource" ->
   forall sess e,
     session self = Some sess ->
     call_tool sess tool_nm tool_args = Raise e ->
     execute_function (S fuel) w self tool_nm tool_args st = Some (Raise e, st)).
Proof.
  intros Hprobe.
  assert (Hrun : execute_function (S fuel) w self tool_nm tool_args st =
                 Some (run_operation self tool_nm tool_args, st)).
  { cbn [execute_function]. rewrite Hprobe. reflexivity. }
  rewrite Hrun. split; [eauto|]. split; [|split].
  - intros [-> | ->].
    + destruct (run_operation_list_resources self tool_args) as [text ->]; eauto.
    + destruct (run_operation_read_resource self tool_args) as [text ->]; eauto.
  - intros -> uri Huri Hfalsy. f_equal. f_equal.
    unfold run_operation.
    change (String.eqb "read_resource" "list_resources") with false.
    change (String.eqb "read_resource" "read_resource") with true.
    cbv beta iota. rewrite Huri. simpl. rewrite Hfalsy. reflexivity.
  - intros Hl Hr sess e Hs Hcall. f_equal. f_equal.
    unfold run_operation.
    apply String.eqb_neq in Hl, Hr. rewrite Hl, Hr, Hs, Hcall. reflexivity.
Qed.

Lemma execute_function_live_probe_witness :
  probe live_client = Ret tt /\
  exists text,
    execute_function 1 (world files never) live_client "read_resource" (VList [])
      empty_manager = Some (Ret text, empty_manager).
Proof.
  split; [reflexivity|].
  apply (proj1 (proj2 (execute_function_live_probe (world files never) live_client
                         "read_resource" (VList []) empty_manager O eq_refl))).
  right; reflexivity.
Defined.

(** X2.  A call of [execute_function] changes the registry at most at
    the identifier of its own client: every other entry is as before,
    no entry is removed, no identifier is drawn, and the count of
    connection attempts does not decrease.  For a client without an
    identifier the registry is left exactly as it was. *)
Theorem execute_function_frame (w : World) (tool_nm : string) (tool_args : value)
    (fuel : nat) :
  forall (self : MCPClient) (st st' : manager) (r : result string),
    execute_function fuel w self tool_nm tool_args st = Some (r, st') ->
    uuids st' = uuids st /\
    (connections st <= connections st')%nat /\
    (forall other, client_id self <> Some other ->
                   clients st' !! other = clients st !! other) /\
    (forall key, is_Some (clients st !! key) -> is_Some (clients st' !! key)) /\
    (client_id self = None -> st' = st).
Proof.
  induction fuel as [|fuel IH]; intros self st st' r H; [discriminate|].
  cbn [execute_function] in H.
  destruct (probe self) as [u|e].
  { injection H as _ <-. repeat split; auto. }
  destruct (client_id self) as [id|] eqn:Hid.
  2:{ injection H as _ <-. repeat split; auto. }
  unfold reconnect in H. rewrite Hid in H.
  destruct (connection_server w (with_client_id new_client id)
              (_last_mcp_server_name self) (_last_mcp_server self) st)
    as [[replacement|e3] st1] eqn:Hre.
  - destruct (connection_server_clients _ _ _ _ _ _ _ Hre) as [Hc Hu].
    pose proof (connection_server_connections _ _ _ _ _ _ _ Hre) as Hn.
    destruct (connection_server_connected _ _ _ _ _ _ _ Hre) as (Hrid & _ & _).
    cbn [install clients] in H. rewrite lookup_insert_eq in H.
    destruct (execute_function fuel w replacement tool_nm tool_args
                (install id replacement st1)) as [[r0 st3]|] eqn:Hrec;
      [|discriminate].
    assert (Hst : st' = st3) by (destruct r0; injection H as _ <-; reflexivity).
    subst st'.
    destruct (IH _ _ _ _ Hrec) as (Hu3 & Hn3 & Hother & Hkeep & _).
    cbn [install uuids connections clients] in Hu3, Hn3, Hother, Hkeep.
    split; [congruence|]. split; [lia|]. split; [|split; [|discriminate]].
    + intros other Hne.
      rewrite Hother by (rewrite Hrid; exact Hne).
      rewrite lookup_insert_ne by congruence. rewrite Hc. reflexivity.
    + intros key Hkey. apply Hkeep.
      destruct (decide (id = key)) as [->|Hne].
      * rewrite lookup_insert_eq. eauto.
      * rewrite lookup_insert_ne by exact Hne. rewrite Hc. exact Hkey.
  - destruct (connection_server_clients _ _ _ _ _ _ _ Hre) as [Hc Hu].
    pose proof (connection_server_connections _ _ _ _ _ _ _ Hre) as Hn.
    cbn [replayed] in H. injection H as _ <-.
    split; [exact Hu|]. split; [exact Hn|]. split; [|split; [|discriminate]].
    + intros other _. rewrite Hc. reflexivity.
    + intros key Hkey. rewrite Hc. exact Hkey.
Qed.

Lemma execute_function_frame_witness :
  exists r st',
    execute_function 3 (world files live_at_third) dead_client "say" (VDict [])
      registry_with_dead_client = Some (r, st') /\
    uuids st' = 1%nat /\
    clients st' !! "other_u9" = None.
Proof.
  destruct (execute_function 3 (world files live_at_third) dead_client "say" (VDict [])
              registry_with_dead_client) as [[r st']|] eqn:E; [|vm_compute in E; discriminate E].
  exists r, st'. split; [reflexivity|].
  destruct (execute_function_frame _ _ _ _ _ _ _ _ E) as (Hu & _ & Hother & _).
  split; [exact Hu|].
  rewrite (Hother "other_u9") by discriminate. reflexivity.
Defined.

End Operations.

(* ===================================================================== *)
(** * The registry over its life: initialisation and shutdown *)
(* ===================================================================== *)

Module Lifecycle.

Import Registry Utils Scenarios.

(** The manager once the client connected for [server_name] has been
    given its identifier and entered in [clients]. *)
Definition registered_id (w : World) (server_name : string) (st1 : manager) : string :=
  server_name +:+ "_" +:+ uuid4 w (uuids st1).

Definition after_registration (w : World) (server_name : string)
    (connected : MCPClient) (st1 : manager) : manager :=
  install (registered_id w server_name st1)
    (with_client_id connected (registered_id w server_name st1))
    {| clients := clients st1; connections := connections st1;
       uuids := S (uuids st1) |}.


(** A tool object is routed in a registry: its client identifier is
    registered there, to a connected client that carries it. *)
Definition routed (st : manager) (tool_obj : ToolClass) : Prop :=
  exists client,
    clients st !! tool_client_id tool_obj = Some client /\
    client_id client = Some (tool_client_id tool_obj) /\
    is_Some (session client).

(** A tool object is named after one of the servers [names]. *)
Definition named_after (names : list string) (tool_obj : ToolClass) : Prop :=
  exists server_name,
    In server_name names /\
    name tool_obj = server_name +:+ "-" +:+ tool_name tool_obj /\
    String.prefix (server_name +:+ "_") (tool_client_id tool_obj) = true.

(** ** One turn of the loop over the servers *)

Lemma connection_server_new_client (w : World) server_name server st connected st1 :
  connection_server w new_client server_name server st = (Ret connected, st1) ->
  resources connected = false /\ is_Some (session connected) /\
  tools connected <> None.
Proof.
  unfold connection_server.
  destruct (transport_of server) as [t|e]; [|discriminate].
  destruct (open_session w (connections st) t) as [[sess list_tools]|e];
    [|discriminate].
  intros [= <- _]; simpl; eauto.
Qed.

Lemma resource_operations_unused (w : World) server_name id client :
  resources client = false ->
  resource_operations w server_name id client = Ret [].
Proof. unfold resource_operations; intros ->; reflexivity. Qed.

(** What one turn does: the connection fails; or the client is
    registered and a registration of its tools fails; or the loop goes
    on with the tools registered. *)
Lemma connect_servers_turn (w : World) server_name server rest acc st r st' :
  connect_servers w ((server_name, server) :: rest) acc st = (r, st') ->
  (exists e, connection_server w new_client (Some server_name) server st = (Raise e, st') /\
             r = Raise e) \/
  (exists connected st1,
      connection_server w new_client (Some server_name) server st = (Ret connected, st1) /\
      ((exists e, r = Raise e /\ st' = after_registration w server_name connected st1) \/
       (exists discovered acc1,
           tools connected = Some discovered /\
           register_operations w server_name (registered_id w server_name st1)
             discovered acc = Ret acc1 /\
           connect_servers w rest acc1 (after_registration w server_name connected st1) =
             (r, st')))).
Proof.
  cbn [connect_servers]. unfold bindM.
  destruct (connection_server w new_client (Some server_name) server st)
    as [[connected|e] st1] eqn:Hconn.
  2:{ intros [= <- <-]. left; eauto. }
  intros H. right. exists connected, st1. split; [reflexivity|].
  destruct (connection_server_new_client _ _ _ _ _ _ Hconn) as (Hres & _ & _).
  unfold fresh_uuid, set_client, liftM in H.
  cbn [uuids] in H.
  change (install (server_name +:+ "_" +:+ uuid4 w (uuids st1))
            (with_client_id connected (server_name +:+ "_" +:+ uuid4 w (uuids st1)))
            {| clients := clients st1; connections := connections st1;
               uuids := S (uuids st1) |})
    with (after_registration w server_name connected st1) in H.
  unfold client_tools in H. cbn [tools with_client_id] in H.
  destruct (tools connected) as [discovered|]; [|injection H as <- <-; left; eauto].
  change (server_name +:+ "_" +:+ uuid4 w (uuids st1))
    with (registered_id w server_name st1) in H.
  destruct (register_operations w server_name (registered_id w server_name st1)
              discovered acc) as [acc1|e] eqn:Hreg;
    [|injection H as <- <-; left; eauto].
  rewrite resource_operations_unused in H by exact Hres.
  rewrite app_nil_r in H.
  right. exists discovered, acc1. auto.
Qed.

Lemma after_registration_keeps (w : World) server_name connected st1 key :
  is_Some (clients st1 !! key) ->
  is_Some (clients (after_registration w server_name connected st1) !! key).
Proof.
  intros H. unfold after_registration, install. cbn [clients].
  destruct (decide (registered_id w server_name st1 = key)) as [->|Hne].
  - rewrite lookup_insert_eq. eauto.
  - rewrite lookup_insert_ne by exact Hne. exact H.
Qed.

(** ** What initialisation keeps *)

Lemma connect_servers_grows (w : World) mcp_servers :
  forall acc st r st',
    connect_servers w mcp_servers acc st = (r, st') ->
    (uuids st <= uuids st')%nat /\
    (connections st <= connections st' <= connections st + length mcp_servers)%nat /\
    (forall key, is_Some (clients st !! key) -> is_Some (clients st' !! key)).
Proof.
  induction mcp_servers as [|[server_name server] rest IH]; intros acc st r st' H.
  - injection H as _ <-. simpl. repeat split; auto; lia.
  - apply connect_servers_turn in H
      as [(e & Hconn & _)|(connected & st1 & Hconn & Hrest)].
    + destruct (connection_server_clients _ _ _ _ _ _ _ Hconn) as [Hc Hu].
      pose proof (Operations.connection_server_connections _ _ _ _ _ _ _ Hconn).
      assert (connections st' <= S (connections st))%nat.
      { unfold connection_server in Hconn.
        destruct (transport_of server) as [t|e0]; [|injection Hconn as _ <-; lia].
        destruct (open_session w (connections st) t) as [[? ?]|?];
          injection Hconn as _ <-; simpl; lia. }
      rewrite Hc, Hu. simpl. repeat split; auto; lia.
    + destruct (connection_server_clients _ _ _ _ _ _ _ Hconn) as [Hc Hu].
      destruct (connection_server_connected _ _ _ _ _ _ _ Hconn) as (_ & _ & Hn).
      assert (Hkeep : forall key, is_Some (clients st !! key) ->
                is_Some (clients (after_registration w server_name connected st1) !! key)).
      { intros key Hk. apply after_registration_keeps. rewrite Hc. exact Hk. }
      destruct Hrest as [(e & _ & ->)|(discovered & acc1 & _ & _ & Hloop)].
      * cbn [after_registration install uuids connections length].
        split; [lia|]. split; [lia|]. exact Hkeep.
      * destruct (IH _ _ _ _ Hloop) as (Hu' & Hn' & Hk').
        cbn [after_registration install uuids connections] in Hu', Hn'.
        cbn [length]. split; [lia|]. split; [lia|].
        intros key Hk. apply Hk', Hkeep, Hk.
Qed.

(** X3.  Whatever [initConfig] returns or raises, it removes no client
    from the registry, and it makes at most one connection attempt per
    server entry of the configuration: what was registered before the
    call, and what the call registered for its first entries before a
    later entry failed, stays registered. *)
Theorem initConfig_keeps_clients (w : World) (config : value) (st st' : manager)
    (r : result (list ToolClass)) :
  initConfig w config st = (r, st') ->
  (forall key, is_Some (clients st !! key) -> is_Some (clients st' !! key)) /\
  (uuids st <= uuids st')%nat /\
  (connections st <= connections st')%nat /\
  (forall c mcp_servers,
      config = VDict c -> dict_get c "mcpServers" = Some (VDict mcp_servers) ->
      (connections st' <= connections st + length mcp_servers)%nat) /\
  (forall c mcp_servers before after acc1 st1,
      config = VDict c -> dict_get c "mcpServers" = Some (VDict mcp_servers) ->
      is_valid_mcp_servers config = true ->
      mcp_servers = before ++ after ->
      connect_servers w before [] st = (Ret acc1, st1) ->
      forall key, is_Some (clients st1 !! key) -> is_Some (clients st' !! key)).
Proof.
  unfold initConfig, init_config_async, bindM, liftM.
  destruct (is_valid_mcp_servers config) eqn:Hvalid; simpl.
  2:{ intros [= _ <-]. repeat split; auto; intros; (lia || discriminate). }
  destruct (py_getitem config "mcpServers") as [mcp_servers|e] eqn:Hget.
  2:{ intros [= _ <-]. split; [auto|]. split; [lia|]. split; [lia|].
      split; [intros; lia|].
      intros c ms before after acc1 st1 -> Hc. simpl in Hget. rewrite Hc in Hget.
      discriminate Hget. }
  destruct (py_items mcp_servers) as [entries|e] eqn:Hitems.
  2:{ intros [= _ <-]. split; [auto|]. split; [lia|]. split; [lia|].
      split; [intros; lia|].
      intros c ms before after acc1 st1 -> Hc. simpl in Hget. rewrite Hc in Hget.
      injection Hget as <-. discriminate Hitems. }
  intros H. destruct (connect_servers_grows _ _ _ _ _ _ H) as (Hu & Hn & Hk).
  split; [exact Hk|]. split; [exact Hu|]. split; [lia|]. split.
  - intros c ms -> Hc. simpl in Hget. rewrite Hc in Hget. injection Hget as <-.
    simpl in Hitems. injection Hitems as <-. lia.
  - intros c ms before after acc1 st1 -> Hc _ -> Hbefore.
    simpl in Hget. rewrite Hc in Hget. injection Hget as <-.
    simpl in Hitems. injection Hitems as <-.
    rewrite connect_servers_app, Hbefore in H.
    exact (proj2 (proj2 (connect_servers_grows _ _ _ _ _ _ H))).
Qed.

Lemma initConfig_keeps_clients_witness :
  exists r st',
    initConfig (world files live_at_third)
      (VDict [("mcpServers", VDict [("echo", echo_descriptor); ("memory", VDict [])])])
      registry_with_dead_client = (r, st') /\
    is_Some (clients st' !! "echo_u0").
Proof.
  destruct (initConfig (world files live_at_third)
      (VDict [("mcpServers", VDict [("echo", echo_descriptor); ("memory", VDict [])])])
      registry_with_dead_client) as [r st'] eqn:E.
  exists r, st'. split; [reflexivity|].
  apply (proj1 (initConfig_keeps_clients _ _ _ _ _ E)).
  vm_compute. eauto.
Defined.

(** ** What a successful initialisation returns *)

Lemma prefix_app (a b : string) : String.prefix a (a +:+ b) = true.
Proof.
  induction a as [|c a IH]; simpl; [destruct b; reflexivity|].
  rewrite IH. destruct (Ascii.ascii_dec c c); [reflexivity|congruence].
Qed.

Lemma append_assoc (a b c : string) : a +:+ (b +:+ c) = (a +:+ b) +:+ c.
Proof.
  induction a as [|ch a IH]; [reflexivity|].
  change (String ch (a +:+ (b +:+ c)) = String ch ((a +:+ b) +:+ c)).
  rewrite IH. reflexivity.
Qed.

Lemma create_tool_class_fields (w : World) rn id tn desc params tool_obj :
  create_tool_class w rn id tn desc params = Ret tool_obj ->
  name tool_obj = rn /\ tool_client_id tool_obj = id /\ tool_name tool_obj = tn.
Proof.
  unfold create_tool_class.
  destruct (String.eqb rn EmptyString); [discriminate|].
  destruct (if is_dict params then is_tool_schema w rn desc params else Ret true)
    as [[|]|e]; simpl; try discriminate.
  intros [= <-]; auto.
Qed.

Lemma register_operation_fields (w : World) server_name id tool tool_obj :
  register_operation w server_name id tool = Ret tool_obj ->
  name tool_obj = server_name +:+ "-" +:+ tool_name tool_obj /\
  tool_client_id tool_obj = id /\
  tool_name tool_obj = mt_name tool.
Proof.
  unfold register_operation.
  destruct (clean_parameters (mt_inputSchema tool)) as [cleaned|e]; simpl;
    [|discriminate].
  intros H. apply create_tool_class_fields in H as (Hn & Hid & Ht).
  rewrite Ht. auto.
Qed.

Lemma register_operations_fields (w : World) server_name id discovered (Q : ToolClass -> Prop) :
  (forall tool_obj,
      name tool_obj = server_name +:+ "-" +:+ tool_name tool_obj ->
      tool_client_id tool_obj = id -> Q tool_obj) ->
  forall acc registered,
    Forall Q acc ->
    register_operations w server_name id discovered acc = Ret registered ->
    Forall Q registered.
Proof.
  intros HQ. induction discovered as [|tool rest IH]; simpl; intros acc registered Hacc H.
  - congruence.
  - destruct (register_operation w server_name id tool) as [tool_obj|e] eqn:E; simpl in H;
      [|discriminate].
    eapply IH; [|exact H].
    apply Forall_app; split; [exact Hacc|].
    apply register_operation_fields in E as (Hn & Hid & _).
    constructor; [apply HQ; assumption | constructor].
Qed.

Lemma routed_after_registration (w : World) server_name connected st1 tool_obj :
  is_Some (session connected) ->
  routed st1 tool_obj ->
  routed (after_registration w server_name connected st1) tool_obj.
Proof.
  intros Hs (client & Hc & Hid & Hsess).
  unfold routed, after_registration, install. cbn [clients].
  destruct (decide (registered_id w server_name st1 = tool_client_id tool_obj))
    as [Heq|Hne].
  - rewrite Heq, lookup_insert_eq. eexists; split; [reflexivity|]. auto.
  - rewrite lookup_insert_ne by exact Hne. eauto.
Qed.

Lemma connect_servers_routed (w : World) (names : list string) mcp_servers :
  (forall key, In key (dict_keys mcp_servers) -> In key names) ->
  forall acc st registered st',
    Forall (fun tool_obj => routed st tool_obj /\ named_after names tool_obj) acc ->
    connect_servers w mcp_servers acc st = (Ret registered, st') ->
    Forall (fun tool_obj => routed st' tool_obj /\ named_after names tool_obj) registered /\
    connections st' = (connections st + length mcp_servers)%nat /\
    uuids st' = (uuids st + length mcp_servers)%nat.
Proof.
  induction mcp_servers as [|[server_name server] rest IH];
    intros Hnames acc st registered st' Hacc H.
  - injection H as <- <-. simpl. split; [exact Hacc|]. split; lia.
  - apply connect_servers_turn in H
      as [(e & _ & He)|(connected & st1 & Hconn & Hrest)]; [discriminate|].
    destruct Hrest as [(e & He & _)|(discovered & acc1 & _ & Hreg & Hloop)];
      [discriminate|].
    destruct (connection_server_new_client _ _ _ _ _ _ Hconn) as (_ & Hsess & _).
    destruct (connection_server_clients _ _ _ _ _ _ _ Hconn) as [Hc Hu].
    destruct (connection_server_connected _ _ _ _ _ _ _ Hconn) as (_ & _ & Hn).
    assert (Hacc1 : Forall (fun tool_obj =>
                routed (after_registration w server_name connected st1) tool_obj /\
                named_after names tool_obj) acc1).
    { eapply register_operations_fields; [| |exact Hreg].
      - intros tool_obj Hname Hid. split.
        + exists (with_client_id connected (registered_id w server_name st1)).
          unfold after_registration, install. cbn [clients].
          rewrite Hid, lookup_insert_eq. auto.
        + exists server_name. split; [apply Hnames; left; reflexivity|].
          split; [exact Hname|]. rewrite Hid. unfold registered_id.
          rewrite append_assoc. apply prefix_app.
      - eapply Forall_impl; [exact Hacc|].
        intros tool_obj [Hr Hna]. split; [|exact Hna].
        apply routed_after_registration; [exact Hsess|].
        destruct Hr as (client & Hcl & Hrest). exists client.
        rewrite Hc. auto. }
    destruct (IH (fun key Hk => Hnames key (or_intror Hk)) _ _ _ _ Hacc1 Hloop)
      as (Hall & Hn' & Hu').
    cbn [after_registration install uuids connections] in Hn', Hu'.
    split; [exact Hall|]. cbn [length]. split; lia.
Qed.

(** X4.  When [initConfig] returns, it has made exactly one connection
    and drawn one identifier per server entry, and every tool object it
    returns is named [server-operation] after one of the entries, has a
    client identifier that begins with that server name and an
    underscore, and is routed: the registry holds a connected client
    under that identifier.  No tool for resources is ever among them:
    a client that [connection_server] has connected has its
    [resources] flag unset. *)
Theorem initConfig_returns_routed_tools (w : World) (c mcp_servers : dict)
    (st st' : manager) (registered : list ToolClass) :
  dict_get c "mcpServers" = Some (VDict mcp_servers) ->
  initConfig w (VDict c) st = (Ret registered, st') ->
  Forall (fun tool_obj => routed st' tool_obj /\
                          named_after (dict_keys mcp_servers) tool_obj) registered /\
  connections st' = (connections st + length mcp_servers)%nat /\
  uuids st' = (uuids st + length mcp_servers)%nat /\
  (forall server_name server st0 connected st1 sn id,
      connection_server w new_client server_name server st0 = (Ret connected, st1) ->
      resource_operations w sn id (with_client_id connected id) = Ret []).
Proof.
  intros Hget H.
  unfold initConfig, init_config_async, bindM, liftM in H.
  destruct (is_valid_mcp_servers (VDict c)); simpl in H; [|discriminate].
  rewrite Hget in H. simpl in H.
  destruct (connect_servers_routed w (dict_keys mcp_servers) mcp_servers
              (fun key Hk => Hk) [] st registered st' (List.Forall_nil _) H)
    as (Hall & Hn & Hu).
  split; [exact Hall|]. split; [exact Hn|]. split; [exact Hu|].
  intros server_name server st0 connected st1 sn id Hconn.
  apply resource_operations_unused.
  destruct (connection_server_new_client _ _ _ _ _ _ Hconn) as (Hres & _).
  exact Hres.
Qed.

Lemma initConfig_returns_routed_tools_witness :
  exists registered st',
    initConfig (world files always_live)
      (VDict [("mcpServers", VDict [("echo", echo_descriptor)])]) empty_manager =
      (Ret registered, st') /\
    connections st' = 1%nat /\
    Forall (fun tool_obj => routed st' tool_obj /\ named_after ["echo"] tool_obj)
      registered.
Proof.
  destruct (initConfig (world files always_live)
      (VDict [("mcpServers", VDict [("echo", echo_descriptor)])]) empty_manager)
    as [[registered|e] st'] eqn:E; [|vm_compute in E; discriminate E].
  exists registered, st'. split; [reflexivity|].
  destruct (initConfig_returns_routed_tools (world files always_live)
              [("mcpServers", VDict [("echo", echo_descriptor)])]
              [("echo", echo_descriptor)] empty_manager st' registered eq_refl E)
    as (Hall & Hn & _).
  split; [exact Hn | exact Hall].
Defined.

(** ** From the shape check to the transport *)







(** ** Shutdown *)





End Lifecycle.

(* ===================================================================== *)
(** * The table of tool classes ([register_tool]) *)
(* ===================================================================== *)

Module ToolRegistry.

(** A tool class: its [__name__], its class attribute [name] (empty by
    default), and which class it is. *)
Record tool_cls : Type := {
  cls_dunder_name : string;
  cls_name : string;
  cls_ident : nat
}.

(** [cls.name = name] *)
Definition named (cls : tool_cls) (nm : string) : tool_cls :=
  {| cls_dunder_name := cls_dunder_name cls; cls_name := nm; cls_ident := cls_ident cls |}.

Definition already_exists (nm : string) : exn :=
  Exn ValueError
    ("Tool `" +:+ nm +:+ "` already exists! Please ensure that the tool name is unique.").

Definition conflicts (cls : tool_cls) (nm : string) : exn :=
  Exn ValueError
    (cls_dunder_name cls +:+ ".name=" +:+ Json.dq +:+ cls_name cls +:+ Json.dq +:+
     " conflicts with @register_tool(name=" +:+ Json.dq +:+ nm +:+ Json.dq +:+ ").").

(** The decorator [register_tool(name, allow_overwrite)] applied to
    [cls], on the table [TOOL_REGISTRY]: the class it returns, or the
    error, and the table afterwards. *)
Definition register_tool (nm : string) (allow_overwrite : bool) (cls : tool_cls)
    (TOOL_REGISTRY : gmap string tool_cls) : result tool_cls * gmap string tool_cls :=
  if bool_decide (is_Some (TOOL_REGISTRY !! nm)) && negb allow_overwrite then
    (Raise (already_exists nm), TOOL_REGISTRY)
  else if negb (String.eqb (cls_name cls) EmptyString) &&
          negb (String.eqb (cls_name cls) nm) then
    (Raise (conflicts cls nm), TOOL_REGISTRY)
  else
    (Ret (named cls nm), <[nm := named cls nm]> TOOL_REGISTRY).

(** X7.  [register_tool] fails exactly when the name is taken and
    overwriting is not allowed, or when the class already carries
    another name, and then the table is as before; the error is a
    [ValueError], that of the taken name when both apply.  Otherwise the
    class is returned carrying the name, a lookup of the name finds
    it, the other names are untouched, and registering a second class
    under the same name without [allow_overwrite] fails and keeps the
    first. *)
Theorem register_tool_lookup (nm : string) (allow_overwrite : bool) (cls : tool_cls)
    (TOOL_REGISTRY : gmap string tool_cls) :
  let taken := is_Some (TOOL_REGISTRY !! nm) /\ allow_overwrite = false in
  let renamed := cls_name cls <> EmptyString /\ cls_name cls <> nm in
  (taken \/ renamed ->
   exists e, register_tool nm allow_overwrite cls TOOL_REGISTRY = (Raise e, TOOL_REGISTRY)) /\
  (taken ->
   register_tool nm allow_overwrite cls TOOL_REGISTRY =
     (Raise (already_exists nm), TOOL_REGISTRY)) /\
  (~ taken -> renamed ->
   register_tool nm allow_overwrite cls TOOL_REGISTRY =
     (Raise (conflicts cls nm), TOOL_REGISTRY)) /\
  exn_cls (already_exists nm) = ValueError /\
  exn_cls (conflicts cls nm) = ValueError /\
  (~ taken -> ~ renamed ->
   exists table,
     register_tool nm allow_overwrite cls TOOL_REGISTRY = (Ret (named cls nm), table) /\
     table !! nm = Some (named cls nm) /\
     (forall other, other <> nm -> table !! other = TOOL_REGISTRY !! other) /\
     (forall cls2,
         register_tool nm false cls2 table = (Raise (already_exists nm), table))).
Proof.
  intros taken renamed.
  assert (Hfree_b : ~ taken ->
            bool_decide (is_Some (TOOL_REGISTRY !! nm)) && negb allow_overwrite = false).
  { intros Hfree.
    destruct (bool_decide (is_Some (TOOL_REGISTRY !! nm))) eqn:E; [|reflexivity].
    destruct allow_overwrite; [reflexivity|].
    exfalso. apply Hfree. split; [|reflexivity].
    apply bool_decide_eq_true_1 in E. exact E. }
  unfold register_tool. split; [|split; [|split; [|split; [|split]]]];
    try reflexivity.
  - intros [[Hsome ->]|[Hne1 Hne2]].
    + rewrite bool_decide_eq_true_2 by exact Hsome. simpl. eauto.
    + destruct (bool_decide (is_Some (TOOL_REGISTRY !! nm)) && negb allow_overwrite);
        [eauto|].
      apply String.eqb_neq in Hne1, Hne2. rewrite Hne1, Hne2. simpl. eauto.
  - intros [Hsome ->]. rewrite bool_decide_eq_true_2 by exact Hsome. reflexivity.
  - intros Hfree [Hne1 Hne2]. rewrite (Hfree_b Hfree).
    apply String.eqb_neq in Hne1, Hne2. rewrite Hne1, Hne2. reflexivity.
  - intros Hfree Hsame.
    pose proof (Hfree_b Hfree) as H1.
    assert (H2 : negb (String.eqb (cls_name cls) EmptyString) &&
                 negb (String.eqb (cls_name cls) nm) = false).
    { destruct (String.eqb_spec (cls_name cls) EmptyString) as [?|Hn1]; [reflexivity|].
      destruct (String.eqb_spec (cls_name cls) nm) as [?|Hn2]; [reflexivity|].
      exfalso. apply Hsame. split; assumption. }
    rewrite H1, H2. eexists. split; [reflexivity|].
    split; [apply lookup_insert_eq|].
    split; [intros other Hne; apply lookup_insert_ne; congruence|].
    intros cls2. rewrite lookup_insert_eq.
    rewrite bool_decide_eq_true_2 by eauto. reflexivity.
Qed.

Lemma register_tool_lookup_witness :
  exists table,
    register_tool "code_interpreter" false
      {| cls_dunder_name := "CodeInterpreter"; cls_name := EmptyString; cls_ident := 0 |}
      ∅ = (Ret {| cls_dunder_name := "CodeInterpreter"; cls_name := "code_interpreter";
                  cls_ident := 0 |}, table) /\
    table !! "code_interpreter" =
      Some {| cls_dunder_name := "CodeInterpreter"; cls_name := "code_interpreter";
              cls_ident := 0 |}.
Proof.
  destruct (proj2 (proj2 (proj2 (proj2 (proj2
              (register_tool_lookup "code_interpreter" false
                 {| cls_dunder_name := "CodeInterpreter"; cls_name := EmptyString;
                    cls_ident := 0 |} ∅)))))) as (table & H & Hlook & _).
  - intros [Hsome _]. rewrite lookup_empty in Hsome. destruct Hsome as [? Hx].
    discriminate Hx.
  - intros [Hne _]. apply Hne. reflexivity.
  - exists table. split; [exact H | exact Hlook].
Defined.

End ToolRegistry.

(* ===================================================================== *)
(** * The adapters: building them, and what reaches the tool *)
(* ===================================================================== *)

Module Adapters.

Import Registry Utils Scenarios.
Local Open Scope result_scope.

(** The adapter stored under a name in a map of [wrap_tools]. *)
Definition adapter_of (functions : list (string * ToolClass)) (nm : string)
    : option ToolClass :=
  snd <$> List.find (fun kv => String.eqb (fst kv) nm) functions.

(** The last tool object of a list that carries a name. *)
Definition last_named (nm : string) (tool_objs : list ToolClass) : option ToolClass :=
  List.find (fun tool => String.eqb (name tool) nm) (rev tool_objs).

(** The last value a list of members gives to a key. *)
Definition last_member (members : dict) (key : string) : option value :=
  dict_get (rev members) key.

(** A tool object whose signature cannot be synthesised: one of its
    property names, an ASCII name, is refused by [inspect.Parameter]. *)
Definition has_refused_property (tool_obj : ToolClass) : Prop :=
  exists p props,
    parameters tool_obj = VDict p /\
    dict_get p "properties" = Some (VDict props) /\
    Exists (fun item => is_ascii (fst item) = true /\
                        is_ret (parameter_name (fst item)) = false) props.

(** A server whose one tool has a property named [user-id], and the
    configuration file that declares it. *)
Definition lookup_user : McpTool :=
  {| mt_name := "lookup";
     mt_description := Some "Look a user up";
     mt_inputSchema :=
       [("type", VStr "object");
        ("properties", VDict [("user-id", VDict [("type", VStr "string")])])] |}.

Definition lookup_tool : ToolClass :=
  {| name := "echo-lookup";
     description := Some "Look a user up";
     parameters :=
       VDict [("type", VStr "object");
              ("properties", VDict [("user-id", VDict [("type", VStr "string")])]);
              ("required", VList [])];
     tool_client_id := "echo_u0";
     tool_name := "lookup" |}.

Definition dashed_world : World :=
  world files (fun _ => Ret (live_session, [lookup_user])).

(** ** [load_mcp_tools] *)

(** [s.endswith(suffix)] *)
Definition endswith (suffix s : string) : bool :=
  (String.length suffix <=? String.length s)%nat &&
  String.eqb
    (String.substring (String.length s - String.length suffix) (String.length suffix) s)
    suffix.

(** [os.path.join(root, file)] on POSIX paths. *)
Definition os_path_join (root file : string) : string :=
  if String.prefix "/" file then file
  else if String.eqb root EmptyString || endswith "/" root then root +:+ file
  else root +:+ "/" +:+ file.

(** The loop [for file in files] of one directory, with the list
    [mcp_tools] built so far. *)
Fixpoint load_directory (w : World) (root : string) (directory_files : list string)
    (mcp_tools : list ToolClass) : P (list ToolClass) :=
  match directory_files with
  | [] => retP mcp_tools
  | file :: rest =>
      if endswith ".json" file then
        fun ps =>
          match load_mcp_config w (os_path_join root file) true ps with
          | (Ret loaded, ps') => load_directory w root rest (mcp_tools ++ loaded) ps'
          | (Raise _, ps') => load_directory w root rest mcp_tools ps'
          end
      else load_directory w root rest mcp_tools
  end.

(** The loop over [os.walk(mcp_config_path)], whose successive
    [(root, files)] are [walk]. *)
Fixpoint load_walk (w : World) (walk : list (string * list string))
    (mcp_tools : list ToolClass) : P (list ToolClass) :=
  match walk with
  | [] => retP mcp_tools
  | (root, directory_files) :: rest =>
      fun ps =>
        match load_directory w root directory_files mcp_tools ps with
        | (Ret loaded, ps') => load_walk w rest loaded ps'
        | (Raise e, ps') => (Raise e, ps')
        end
  end.

Definition load_mcp_tools (w : World) (walk : list (string * list string))
    : P (list ToolClass) :=
  load_walk w walk [].

(** ** [wrap_tools] *)

Lemma create_wrapper_same tool_obj adapter :
  create_wrapper tool_obj = Ret adapter -> adapter = tool_obj.
Proof.
  unfold create_wrapper.
  destruct (match parameters tool_obj with
            | VDict p => _
            | _ => _
            end) as [items|e]; simpl; [|discriminate].
  destruct (signature items); simpl; congruence.
Qed.

Lemma adapter_of_app_fresh functions nm tool_nm tool :
  existsb (fun kv => String.eqb (fst kv) tool_nm) functions = false ->
  adapter_of (functions ++ [(tool_nm, tool)]) nm =
    match adapter_of functions nm with
    | Some found => Some found
    | None => if String.eqb tool_nm nm then Some tool else None
    end.
Proof.
  unfold adapter_of. induction functions as [|[k v] rest IH]; simpl; intros Hfresh.
  - destruct (String.eqb tool_nm nm); reflexivity.
  - apply orb_false_elim in Hfresh as [Hk Hrest].
    destruct (String.eqb k nm) eqn:E; simpl; [reflexivity | apply IH; exact Hrest].
Qed.

Lemma adapter_of_replace functions nm tool_nm tool :
  existsb (fun kv => String.eqb (fst kv) tool_nm) functions = true ->
  adapter_of (map (fun kv => if String.eqb (fst kv) tool_nm
                             then (fst kv, tool) else kv) functions) nm =
    if String.eqb tool_nm nm then Some tool else adapter_of functions nm.
Proof.
  unfold adapter_of. induction functions as [|[k v] rest IH]; cbn [existsb map fst];
    intros Hin; [discriminate|].
  destruct (String.eqb k tool_nm) eqn:Ek; cbn [List.find fst].
  - apply String.eqb_eq in Ek. subst k.
    destruct (String.eqb tool_nm nm) eqn:E; [reflexivity|].
    clear IH Hin. induction rest as [|[k2 v2] rest IH2]; [reflexivity|].
    cbn [map fst]. destruct (String.eqb k2 tool_nm) eqn:Ek2; cbn [List.find fst].
    + apply String.eqb_eq in Ek2. subst k2. rewrite E. exact IH2.
    + destruct (String.eqb k2 nm); [reflexivity | exact IH2].
  - cbn [orb] in Hin. specialize (IH Hin).
    destruct (String.eqb k nm) eqn:Ekn.
    + apply String.eqb_eq in Ekn. subst k.
      rewrite String.eqb_sym in Ek. rewrite Ek. reflexivity.
    + exact IH.
Qed.

Lemma map_fst_replace (functions : list (string * ToolClass)) tool_nm tool :
  map fst (map (fun kv => if String.eqb (fst kv) tool_nm
                          then (fst kv, tool) else kv) functions) = map fst functions.
Proof.
  induction functions as [|[k v] rest IH]; simpl; [reflexivity|].
  rewrite IH. destruct (String.eqb k tool_nm); reflexivity.
Qed.

Lemma existsb_name_In (functions : list (string * ToolClass)) nm :
  existsb (fun kv => String.eqb (fst kv) nm) functions = false ->
  ~ In nm (map fst functions).
Proof.
  induction functions as [|[k v] rest IH]; simpl; intros H; [tauto|].
  apply orb_false_elim in H as [Hk Hrest]. apply String.eqb_neq in Hk.
  intros [Heq|Hin]; [contradiction | exact (IH Hrest Hin)].
Qed.

Lemma last_named_snoc nm processed tool :
  last_named nm (processed ++ [tool]) =
    if String.eqb (name tool) nm then Some tool else last_named nm processed.
Proof. unfold last_named. rewrite rev_app_distr. reflexivity. Qed.

Lemma wrap_each_lookup tool_objs :
  forall acc processed functions,
    List.NoDup (map fst acc) ->
    (forall nm, adapter_of acc nm = last_named nm processed) ->
    wrap_each tool_objs acc = Ret functions ->
    List.NoDup (map fst functions) /\
    (forall nm, adapter_of functions nm = last_named nm (processed ++ tool_objs)).
Proof.
  induction tool_objs as [|tool rest IH]; intros acc processed functions Hnodup Hacc H.
  - injection H as <-. rewrite app_nil_r. auto.
  - cbn [wrap_each] in H.
    destruct (create_wrapper tool) as [adapter|e] eqn:Hw; cbn [bind] in H; [|discriminate].
    apply create_wrapper_same in Hw. subst adapter.
    replace (processed ++ tool :: rest) with ((processed ++ [tool]) ++ rest)
      by (rewrite <- app_assoc; reflexivity).
    eapply IH; [| |exact H].
    + destruct (existsb (fun kv => String.eqb (fst kv) (name tool)) acc) eqn:E.
      * rewrite map_fst_replace. exact Hnodup.
      * rewrite map_app. simpl.
        apply NoDup_ListNoDup. apply NoDup_app. 
        split; [apply NoDup_ListNoDup; exact Hnodup|].
        split; [|apply NoDup_singleton].
        intros x Hx Hx'. apply list_elem_of_singleton in Hx'. subst x.
        apply list_elem_of_In in Hx. exact (existsb_name_In _ _ E Hx).
    + intros nm. rewrite last_named_snoc.
      destruct (existsb (fun kv => String.eqb (fst kv) (name tool)) acc) eqn:E.
      * rewrite (adapter_of_replace _ _ _ _ E), Hacc. reflexivity.
      * rewrite (adapter_of_app_fresh _ _ _ _ E), Hacc.
        destruct (String.eqb (name tool) nm) eqn:En; [|destruct (last_named nm processed); reflexivity].
        destruct (last_named nm processed) as [found|] eqn:Hl; [|reflexivity].
        exfalso. rewrite <- Hacc in Hl. unfold adapter_of in Hl.
        destruct (List.find (fun kv => String.eqb (fst kv) nm) acc) as [kv|] eqn:Hf;
          [|discriminate].
        apply List.find_some in Hf as [Hin Hk].
        apply String.eqb_eq in En, Hk. subst nm.
        apply (existsb_name_In _ _ E). rewrite <- Hk. apply in_map. exact Hin.
Qed.

(** X8.  In the map [wrap_tools] returns, no name occurs twice, the
    adapter under a name is the last tool object of the list that
    carries the name, and the map is a new object; the cache and the
    registry are not touched. *)
Theorem wrap_tools_last_wins (tool_objs : list ToolClass) (ps ps' : process)
    (tools_dict : adapter_map) :
  wrap_tools tool_objs ps = (Ret tools_dict, ps') ->
  List.NoDup (map fst (functions_map tools_dict)) /\
  (forall nm, adapter_of (functions_map tools_dict) nm = last_named nm tool_objs) /\
  map_id tools_dict = allocated ps /\
  allocated ps' = S (allocated ps) /\
  mgr ps' = mgr ps /\ _config_cache ps' = _config_cache ps.
Proof.
  unfold wrap_tools.
  destruct (wrap_each tool_objs []) as [functions|e] eqn:E; [|discriminate].
  intros [= <- <-]. cbn.
  destruct (wrap_each_lookup tool_objs [] [] functions (List.NoDup_nil _)
              (fun nm => eq_refl) E) as [Hnodup Hlook].
  repeat split; assumption || reflexivity.
Qed.

Lemma wrap_tools_last_wins_witness :
  exists tools_dict ps',
    wrap_tools [say_tool; say_tool] empty_process = (Ret tools_dict, ps') /\
    adapter_of (functions_map tools_dict) "echo-say" = Some say_tool /\
    List.NoDup (map fst (functions_map tools_dict)).
Proof.
  destruct (wrap_tools [say_tool; say_tool] empty_process) as [[tools_dict|e] ps'] eqn:E;
    [|vm_compute in E; discriminate E].
  exists tools_dict, ps'. split; [reflexivity|].
  destruct (wrap_tools_last_wins _ _ _ _ E) as (Hnodup & Hlook & _).
  split; [rewrite Hlook; reflexivity | exact Hnodup].
Defined.

(** ** A property name that is not a parameter name *)

Lemma signature_parameters_refused props :
  Exists (fun item => is_ret (parameter_name (fst item)) = false) props ->
  exists e, signature_parameters props = Raise e.
Proof.
  induction props as [|[nm schema] rest IH]; intros H; [inversion H|].
  cbn [signature_parameters].
  destruct (get_python_type_from_schema schema) as [u|e]; cbn [bind]; [|eauto].
  destruct (parameter_name nm) as [kept|e] eqn:E; cbn [bind]; [|eauto].
  inversion H as [? ? Hbad|? ? Hlater]; subst.
  - cbn [fst] in Hbad. rewrite E in Hbad. discriminate.
  - destruct (IH Hlater) as [e ->]. cbn [bind]. eauto.
Qed.

Lemma create_wrapper_refused tool_obj :
  has_refused_property tool_obj -> exists e, create_wrapper tool_obj = Raise e.
Proof.
  intros (p & props & Hp & Hprops & Hbad). unfold create_wrapper. rewrite Hp.
  unfold dict_mem. cbn [py_getitem]. rewrite Hprops. cbn [bind py_items].
  assert (Hrefused : Exists (fun item => is_ret (parameter_name (fst item)) = false)
                       props).
  { eapply List.Exists_impl; [|exact Hbad]. intros item [_ Hitem]. exact Hitem. }
  unfold signature. destruct (signature_parameters_refused props Hrefused) as [e ->].
  cbn [bind]. eauto.
Qed.

Lemma wrap_each_refused tool_objs :
  Exists has_refused_property tool_objs ->
  forall acc, exists e, wrap_each tool_objs acc = Raise e.
Proof.
  induction tool_objs as [|tool rest IH]; intros H acc; [inversion H|].
  cbn [wrap_each].
  destruct (create_wrapper tool) as [adapter|e] eqn:E; cbn [bind]; [|eauto].
  inversion H as [? ? Hbad|? ? Hlater]; subst.
  - destruct (create_wrapper_refused tool Hbad) as [e He]. congruence.
  - apply IH. exact Hlater.
Qed.

(** X9.  When one of the tools of a configuration has a property whose
    name, an ASCII name, [inspect.Parameter] refuses (a name that is
    not an identifier, a keyword), no adapter can be built for any of
    them:
    with [return_callable] the loader returns the empty list where
    without it it returns the tools, [create_callable_mcp_tools]
    raises, and the cached loader raises and caches nothing, while the
    connections that were made stay in the registry. *)
Theorem refused_property_loses_all_adapters (w : World) (path text : string)
    (config : value) (tool_objs : list ToolClass) (ps ps1 : process) :
  read_file w path = Ret text ->
  json_loads w text = Some config ->
  on_manager (initConfig w config) ps = (Ret tool_objs, ps1) ->
  Exists has_refused_property tool_objs ->
  load_mcp_config w path false ps = (Ret tool_objs, ps1) /\
  load_mcp_config w path true ps = (Ret [], ps1) /\
  exists e,
    create_callable_mcp_tools w path ps = (Raise e, ps1) /\
    (_config_cache ps !! path = None ->
     _get_cached_callable_tools w path ps = (Raise e, ps1)).
Proof.
  intros Hfile Hjson Hinit Hbad.
  destruct (wrap_each_refused tool_objs Hbad []) as [e He].
  assert (Hbody : forall rc, load_mcp_config_body w path rc ps =
            if rc then (Raise e, ps1) else (Ret tool_objs, ps1)).
  { intros rc. unfold load_mcp_config_body, bindP, liftP, retP.
    rewrite Hfile, Hjson, Hinit. destruct rc; [|reflexivity].
    unfold wrap_tools. rewrite He. reflexivity. }
  assert (Hplain : load_mcp_config w path false ps = (Ret tool_objs, ps1)).
  { unfold load_mcp_config. rewrite Hbody. reflexivity. }
  assert (Hcreate : create_callable_mcp_tools w path ps = (Raise e, ps1)).
  { unfold create_callable_mcp_tools, bindP. rewrite Hplain.
    unfold wrap_tools. rewrite He. reflexivity. }
  split; [exact Hplain|].
  split; [unfold load_mcp_config; rewrite Hbody; reflexivity|].
  exists e. split; [exact Hcreate|].
  intros Hmiss. unfold _get_cached_callable_tools. rewrite Hmiss, Hcreate. reflexivity.
Qed.

Lemma refused_property_loses_all_adapters_witness :
  load_mcp_config dashed_world "cfg.json" false empty_process =
    (Ret [lookup_tool], snd (on_manager (initConfig dashed_world
        (VDict [("mcpServers", VDict [("echo", echo_descriptor)])])) empty_process)) /\
  load_mcp_config dashed_world "cfg.json" true empty_process =
    (Ret [], snd (on_manager (initConfig dashed_world
        (VDict [("mcpServers", VDict [("echo", echo_descriptor)])])) empty_process)).
Proof.
  assert (Hbad : Exists has_refused_property [lookup_tool]).
  { constructor. exists [("type", VStr "object");
              ("properties", VDict [("user-id", VDict [("type", VStr "string")])]);
              ("required", VList [])],
      [("user-id", VDict [("type", VStr "string")])].
    split; [reflexivity|]. split; [reflexivity|]. constructor. split; reflexivity. }
  destruct (refused_property_loses_all_adapters dashed_world "cfg.json" echo_config_text
              (VDict [("mcpServers", VDict [("echo", echo_descriptor)])])
              [lookup_tool] empty_process
              (snd (on_manager (initConfig dashed_world
                 (VDict [("mcpServers", VDict [("echo", echo_descriptor)])]))
                 empty_process))
              eq_refl eq_refl eq_refl Hbad) as (H1 & H2 & _).
  split; [exact H1 | exact H2].
Defined.

(** ** A load that failed *)

(** X10.  A load that fails is cached like one that succeeds: after the
    cached loader has been called on a path whose file is missing, is
    not JSON or fails the shape check, every later call for that path
    returns the same empty adapter map without loading again, whatever
    the file has become in the meantime. *)
Theorem failed_load_is_cached (w : World) (path : string) (ps : process) :
  (exists e, read_file w path = Raise e) \/
  (exists text, read_file w path = Ret text /\ json_loads w text = None) \/
  (exists text config, read_file w path = Ret text /\
                       json_loads w text = Some config /\
                       is_valid_mcp_servers config = false) ->
  _config_cache ps !! path = None ->
  let empty_map := {| map_id := allocated ps; functions_map := [] |} in
  fst (_get_cached_callable_tools w path ps) = Ret empty_map /\
  forall w' paths,
    let later := load_sequence w' paths (snd (_get_cached_callable_tools w path ps)) in
    _get_cached_callable_tools w' path later = (Ret empty_map, later).
Proof.
  intros Hfail Hmiss empty_map.
  assert (Hload : load_mcp_config w path false ps = (Ret [], ps)).
  { unfold load_mcp_config.
    destruct (load_mcp_config_body_fails w path false ps Hfail) as [e ->]. reflexivity. }
  assert (Hget : _get_cached_callable_tools w path ps =
            (Ret empty_map,
             {| mgr := mgr ps; _config_cache := <[path := empty_map]> (_config_cache ps);
                allocated := S (allocated ps) |})).
  { unfold _get_cached_callable_tools. rewrite Hmiss.
    unfold create_callable_mcp_tools, bindP. rewrite Hload. reflexivity. }
  rewrite Hget. split; [reflexivity|].
  intros w' paths later. cbn [snd] in later.
  assert (Hlater : _config_cache later !! path = Some empty_map).
  { apply load_sequence_cache. cbn [_config_cache]. apply lookup_insert_eq. }
  unfold _get_cached_callable_tools. rewrite Hlater. reflexivity.
Qed.

Lemma failed_load_is_cached_witness :
  fst (_get_cached_callable_tools (world [] always_live) "cfg.json" empty_process) =
    Ret {| map_id := 0; functions_map := [] |} /\
  fst (_get_cached_callable_tools (world files always_live) "cfg.json"
         (snd (_get_cached_callable_tools (world [] always_live) "cfg.json"
                 empty_process))) =
    Ret {| map_id := 0; functions_map := [] |}.
Proof.
  assert (Hfail : (exists e, read_file (world [] always_live) "cfg.json" = Raise e) \/
     (exists text, read_file (world [] always_live) "cfg.json" = Ret text /\
                   json_loads (world [] always_live) text = None) \/
     (exists text config, read_file (world [] always_live) "cfg.json" = Ret text /\
                          json_loads (world [] always_live) text = Some config /\
                          is_valid_mcp_servers config = false))
    by (left; eexists; reflexivity).
  destruct (failed_load_is_cached (world [] always_live) "cfg.json" empty_process
              Hfail eq_refl) as [H1 H2].
  split; [exact H1|].
  exact (f_equal fst (H2 (world files always_live) [])).
Defined.

(** ** Which arguments count *)

(** X11.  The normalisation looks at its arguments in a fixed order of
    precedence.  When the keyword arguments hold both [args] and
    [kwargs], nothing else is read: the positional arguments and every
    other keyword argument are ignored.  Otherwise, a first positional
    argument that is a dict is the payload, and the keyword arguments
    and the later positional arguments are ignored; otherwise the
    keyword arguments are the payload and the positional arguments are
    ignored. *)
Theorem normalize_precedence (w : World) (args : list value) (kwargs : dict) :
  (dict_mem kwargs "args" = true -> dict_mem kwargs "kwargs" = true ->
   forall args' kwargs',
     dict_get kwargs' "args" = dict_get kwargs "args" ->
     dict_get kwargs' "kwargs" = dict_get kwargs "kwargs" ->
     normalize w args' kwargs' = normalize w args kwargs) /\
  (dict_mem kwargs "args" && dict_mem kwargs "kwargs" = false ->
   (forall first rest,
       normalize w (VDict first :: rest) kwargs = Json.dumps (VDict first)) /\
   (match args with VDict _ :: _ => False | _ => True end ->
    normalize w args kwargs = Json.dumps (VDict kwargs))).
Proof.
  split.
  - intros Ha Hk args' kwargs' Ha' Hk'.
    unfold normalize, dict_mem in *. cbn [py_get]. rewrite Ha', Hk'.
    destruct (dict_get kwargs "args"); [|discriminate].
    destruct (dict_get kwargs "kwargs"); [|discriminate]. reflexivity.
  - intros Hnot. unfold normalize. rewrite Hnot. split; [reflexivity|].
    destruct args as [|[] rest]; intros H; try reflexivity. contradiction.
Qed.

Lemma normalize_precedence_witness :
  normalize (world files never) [VInt 7] (("x", VInt 1) :: fragments_ab) =
    normalize (world files never) [] fragments_ab /\
  normalize (world files never) [VDict args_ab; VInt 7] [("x", VInt 1)] =
    Json.dumps (VDict args_ab).
Proof.
  destruct (normalize_precedence (world files never) [] fragments_ab) as [H1 _].
  destruct (normalize_precedence (world files never) [] [("x", VInt 1)]) as [_ H2].
  split.
  - apply H1; reflexivity.
  - apply (proj1 (H2 eq_refl)).
Defined.

(** ** Merging the two fragments *)

Lemma dict_get_app (d1 d2 : dict) key :
  dict_get (d1 ++ d2) key =
    match dict_get d1 key with
    | Some v => Some v
    | None => dict_get d2 key
    end.
Proof.
  induction d1 as [|[k v] d1 IH]; simpl; [reflexivity|].
  destruct (String.eqb k key); [reflexivity | exact IH].
Qed.

Lemma dict_get_set (d : dict) k v key :
  dict_get (dict_set d k v) key = if String.eqb k key then Some v else dict_get d key.
Proof.
  destruct (String.eqb_spec k key) as [->|Hne].
  - apply dict_get_set_eq.
  - apply dict_get_set_ne. exact Hne.
Qed.

Lemma dict_get_update (other : dict) :
  forall (d : dict) key,
    dict_get (dict_update d other) key =
      match last_member other key with
      | Some v => Some v
      | None => dict_get d key
      end.
Proof.
  unfold dict_update, last_member.
  induction other as [|[k v] other IH]; intros d key; [reflexivity|].
  cbn [fold_left fst snd rev]. rewrite IH, dict_get_app, dict_get_set.
  destruct (dict_get (rev other) key); [reflexivity|].
  cbn [dict_get]. destruct (String.eqb k key); reflexivity.
Qed.

(** X12.  When both fragments parse to JSON objects, the payload holds
    the members of both, and on a name that both define the [args]
    fragment wins: the value of a name is the last one the [args]
    fragment gives it, and only if it gives none, the last one the
    [kwargs] fragment gives it. *)
Theorem args_fragment_overrides_kwargs (w : World) (args : list value) (kwargs : dict)
    (a k : string) (args_data kwargs_data : dict) :
  dict_get kwargs "args" = Some (VStr a) ->
  dict_get kwargs "kwargs" = Some (VStr k) ->
  strip_nonempty a = true -> strip_nonempty k = true ->
  json_loads w a = Some (VDict args_data) ->
  json_loads w k = Some (VDict kwargs_data) ->
  exists params,
    normalize w args kwargs = Json.dumps (VDict params) /\
    forall key,
      dict_get params key =
        match last_member args_data key with
        | Some v => Some v
        | None => last_member kwargs_data key
        end.
Proof.
  intros Ha Hk Hsa Hsk Hja Hjk.
  exists (dict_update (dict_update [] kwargs_data) args_data). split.
  - rewrite (normalize_fragments w args kwargs a k Ha Hk).
    unfold merge_kwargs_fragment. rewrite Hsk, Hjk. cbn [dict_update_value bind].
    unfold merge_args_fragment. rewrite Hsa, Hja. reflexivity.
  - intros key. rewrite !dict_get_update.
    destruct (last_member args_data key); [reflexivity|].
    destruct (last_member kwargs_data key); reflexivity.
Qed.

Lemma args_fragment_overrides_kwargs_witness :
  exists params,
    normalize (world files never) []
      [("args", VStr (Json.qq "{'a': 1}")); ("kwargs", VStr (Json.qq "{'a': 2, 'b': 3}"))] =
      Json.dumps (VDict params) /\
    dict_get params "a" = Some (VInt 1) /\ dict_get params "b" = Some (VInt 3).
Proof.
  destruct (args_fragment_overrides_kwargs (world files never) []
              [("args", VStr (Json.qq "{'a': 1}"));
               ("kwargs", VStr (Json.qq "{'a': 2, 'b': 3}"))]
              (Json.qq "{'a': 1}") (Json.qq "{'a': 2, 'b': 3}")
              [("a", VInt 1)] [("a", VInt 2); ("b", VInt 3)]
              eq_refl eq_refl eq_refl eq_refl eq_refl eq_refl) as (params & Hn & Hget).
  exists params. split; [exact Hn|].
  split; rewrite Hget; reflexivity.
Defined.

(** ** The second [replace] of the repair *)

Lemma prefix_nil (t : string) : String.prefix EmptyString t = true.
Proof. destruct t; reflexivity. Qed.

Lemma prefix_cons (a x : Ascii.ascii) (s1 s2 : string) :
  String.prefix (String a s1) (String x s2) = Ascii.eqb a x && String.prefix s1 s2.
Proof.
  cbn [String.prefix].
  destruct (Ascii.ascii_dec a x) as [->|Hne].
  - rewrite Ascii.eqb_refl. reflexivity.
  - apply Ascii.eqb_neq in Hne. rewrite Hne. reflexivity.
Qed.

Section TwoCharacters.

(** [old] is the two characters [a b], replaced by [c b]. *)
Variables a b c : Ascii.ascii.
Hypothesis a_not_b : Ascii.eqb a b = false.
Hypothesis a_not_c : Ascii.eqb a c = false.
Hypothesis b_not_c : Ascii.eqb b c = false.

Let old : string := String a (String b EmptyString).
Let new : string := String c (String b EmptyString).

Definition starts_with (x : Ascii.ascii) (t : string) : bool :=
  match t with
  | String y _ => Ascii.eqb x y
  | EmptyString => false
  end.

Lemma prefix_old (t : string) :
  String.prefix old t =
    match t with
    | String x t' => Ascii.eqb a x && starts_with b t'
    | EmptyString => false
    end.
Proof.
  destruct t as [|x t']; [reflexivity|].
  unfold old. rewrite prefix_cons. destruct t' as [|y t'']; cbn [starts_with].
  - destruct (Ascii.eqb a x); reflexivity.
  - rewrite prefix_cons, prefix_nil, andb_true_r. reflexivity.
Qed.

Lemma replace_cons (x : Ascii.ascii) (t : string) :
  str_replace old new (String x t) =
    if Ascii.eqb a x && starts_with b t
    then new +:+ str_replace old new (match t with String _ t' => t' | EmptyString => t end)
    else String x (str_replace old new t).
Proof.
  unfold str_replace at 1. cbn [replace_from]. rewrite prefix_old.
  destruct (Ascii.eqb a x && starts_with b t); [|reflexivity].
  destruct t; reflexivity.
Qed.

Lemma replaced_start (t : string) :
  starts_with b (str_replace old new t) = true -> starts_with b t = true.
Proof.
  destruct t as [|x t]; [discriminate|]. rewrite replace_cons.
  destruct (Ascii.eqb a x && starts_with b t) eqn:E; cbn [starts_with].
  - unfold new.
    change (String c (String b EmptyString) +:+ ?rest) with (String c (String b rest)).
    cbn [starts_with]. rewrite b_not_c. discriminate.
  - intros H; exact H.
Qed.

Lemma replaced_has_no_old (n : nat) :
  forall t, (String.length t <= n)%nat ->
            is_substring old (str_replace old new t) = false.
Proof.
  induction n as [|n IH]; intros t Hlen.
  - destruct t; [reflexivity | simpl in Hlen; lia].
  - destruct t as [|x t]; [reflexivity|]. rewrite replace_cons.
    destruct (Ascii.eqb a x && starts_with b t) eqn:E.
    + destruct t as [|y t']; [rewrite andb_false_r in E; discriminate|].
      unfold new.
      change (String c (String b EmptyString) +:+ ?rest) with (String c (String b rest)).
      cbn [is_substring].
      rewrite !prefix_old. cbn [starts_with].
      rewrite a_not_c, a_not_b. cbn [andb orb].
      apply IH. simpl in Hlen. lia.
    + cbn [is_substring]. rewrite prefix_old.
      rewrite (IH t) by (simpl in Hlen; lia). rewrite orb_false_r.
      destruct (Ascii.eqb a x) eqn:Ea; [|reflexivity]. cbn [andb] in E |- *.
      destruct (starts_with b (str_replace old new t)) eqn:Es; [|reflexivity].
      apply replaced_start in Es. congruence.
Qed.

Lemma no_old_no_longer (t : string) :
  is_substring old t = false -> is_substring (String b old) t = false.
Proof.
  induction t as [|x t IH]; [reflexivity|].
  cbn [is_substring]. intros H. apply orb_false_elim in H as [_ Htail].
  rewrite (IH Htail), orb_false_r, prefix_cons.
  destruct t as [|y t']; [unfold old; rewrite andb_false_r; reflexivity|].
  cbn [is_substring] in Htail. apply orb_false_elim in Htail as [Hp _].
  rewrite Hp, andb_false_r. reflexivity.
Qed.

End TwoCharacters.

Lemma replace_nothing (old new : string) (t : string) :
  is_substring old t = false -> str_replace old new t = t.
Proof.
  unfold str_replace. induction t as [|x t IH]; [reflexivity|].
  cbn [is_substring replace_from]. intros H. apply orb_false_elim in H as [Hp Htail].
  rewrite Hp, (IH Htail). reflexivity.
Qed.

(** X13.  The repair of a [kwargs] fragment replaces every equals sign
    that stands before a quotation mark by a colon, and that is all it
    does: after the first [replace] no such pair is left, so the second
    [replace], of an equals sign between two quotation marks, never
    changes anything. *)
Theorem kwargs_fixed_is_one_replace (kwargs_str : string) :
  kwargs_fixed kwargs_str =
    str_replace ("=" +:+ Json.dq) (":" +:+ Json.dq) kwargs_str /\
  is_substring ("=" +:+ Json.dq) (kwargs_fixed kwargs_str) = false.
Proof.
  assert (Hnone : is_substring ("=" +:+ Json.dq)
                    (str_replace ("=" +:+ Json.dq) (":" +:+ Json.dq) kwargs_str) = false).
  { apply (replaced_has_no_old (Ascii.ascii_of_nat 61) Json.dquote
             (Ascii.ascii_of_nat 58) eq_refl eq_refl eq_refl
             (String.length kwargs_str)). lia. }
  assert (Hfix : kwargs_fixed kwargs_str =
                 str_replace ("=" +:+ Json.dq) (":" +:+ Json.dq) kwargs_str).
  { unfold kwargs_fixed. apply replace_nothing.
    apply (no_old_no_longer (Ascii.ascii_of_nat 61) Json.dquote). exact Hnone. }
  split; [exact Hfix|]. rewrite Hfix. exact Hnone.
Qed.

(** ** Loading a directory *)

Lemma load_mcp_config_unloadable (w : World) path ps :
  (exists e, read_file w path = Raise e) \/
  (exists text, read_file w path = Ret text /\ json_loads w text = None) \/
  (exists text config, read_file w path = Ret text /\
                       json_loads w text = Some config /\
                       is_valid_mcp_servers config = false) ->
  load_mcp_config w path true ps = (Ret [], ps).
Proof.
  intros H. unfold load_mcp_config.
  destruct (load_mcp_config_body_fails w path true ps H) as [e ->]. reflexivity.
Qed.

Lemma load_mcp_config_returns (w : World) path rc ps :
  exists loaded ps', load_mcp_config w path rc ps = (Ret loaded, ps').
Proof.
  unfold load_mcp_config.
  destruct (load_mcp_config_body w path rc ps) as [[loaded|e] ps']; eauto.
Qed.

Lemma load_directory_returns (w : World) root directory_files :
  forall mcp_tools ps,
    exists loaded ps',
      load_directory w root directory_files mcp_tools ps = (Ret (mcp_tools ++ loaded), ps').
Proof.
  induction directory_files as [|file rest IH]; intros mcp_tools ps; cbn [load_directory].
  - exists [], ps. rewrite app_nil_r. reflexivity.
  - destruct (endswith ".json" file); [|apply IH].
    destruct (load_mcp_config_returns w (os_path_join root file) true ps)
      as (loaded & ps' & ->).
    destruct (IH (mcp_tools ++ loaded) ps') as (more & ps'' & ->).
    exists (loaded ++ more), ps''. rewrite app_assoc. reflexivity.
Qed.

(** X14.  [load_mcp_tools] never raises and only ever adds to its list:
    a file whose name does not end in [.json] is passed over, and so
    is, without a trace in the registry or in the list, a file that is
    unreadable, is not JSON or fails the shape check; the files after
    it are loaded all the same. *)
Theorem load_mcp_tools_skips_failures (w : World) :
  (forall walk ps, exists loaded ps', load_mcp_tools w walk ps = (Ret loaded, ps')) /\
  (forall root file rest mcp_tools ps,
      endswith ".json" file = false ->
      load_directory w root (file :: rest) mcp_tools ps =
        load_directory w root rest mcp_tools ps) /\
  (forall root file rest mcp_tools ps,
      endswith ".json" file = true ->
      (exists e, read_file w (os_path_join root file) = Raise e) \/
      (exists text, read_file w (os_path_join root file) = Ret text /\
                    json_loads w text = None) \/
      (exists text config, read_file w (os_path_join root file) = Ret text /\
                           json_loads w text = Some config /\
                           is_valid_mcp_servers config = false) ->
      load_directory w root (file :: rest) mcp_tools ps =
        load_directory w root rest mcp_tools ps) /\
  (forall root directory_files mcp_tools ps,
      exists loaded ps',
        load_directory w root directory_files mcp_tools ps =
          (Ret (mcp_tools ++ loaded), ps')).
Proof.
  split; [|split; [|split]].
  - unfold load_mcp_tools. intros walk. generalize (@nil ToolClass).
    induction walk as [|[root directory_files] rest IH]; intros acc ps; cbn [load_walk].
    + eexists _, _; reflexivity.
    + destruct (load_directory_returns w root directory_files acc ps)
        as (loaded & ps' & ->). apply IH.
  - intros root file rest mcp_tools ps Hext. cbn [load_directory]. rewrite Hext.
    reflexivity.
  - intros root file rest mcp_tools ps Hext Hfail. cbn [load_directory]. rewrite Hext.
    rewrite (load_mcp_config_unloadable w _ ps Hfail), app_nil_r. reflexivity.
  - apply load_directory_returns.
Qed.

Lemma load_mcp_tools_skips_failures_witness :
  load_directory (world files always_live) "" ["notes.txt"; "broken.json"; "cfg.json"]
    [] empty_process =
  load_directory (world files always_live) "" ["cfg.json"] [] empty_process.
Proof.
  destruct (load_mcp_tools_skips_failures (world files always_live))
    as (_ & Hskip & Hfail & _).
  rewrite Hskip by reflexivity.
  apply Hfail; [reflexivity|].
  right; left. exists "{not json". split; reflexivity.
Defined.

End Adapters.

(* ===================================================================== *)
(** * The other checks of [validate_tools.py] *)
(* ===================================================================== *)

Module Checks.

Import Registry Utils Scenarios.
Local Open Scope result_scope.

(** ** [check_mcp_description] *)

(** [s.lstrip()], [s.rstrip()], [s.strip()] on ASCII text, where
    [String.length] is [len]. *)
Fixpoint lstrip (s : string) : string :=
  match s with
  | String c s' => if is_space c then lstrip s' else s
  | EmptyString => EmptyString
  end.

Fixpoint rstrip (s : string) : string :=
  match s with
  | EmptyString => EmptyString
  | String c s' =>
      let kept := rstrip s' in
      if is_space c && String.eqb kept EmptyString then EmptyString else String c kept
  end.

Definition strip (s : string) : string := rstrip (lstrip s).

(** What the check reads of its argument: the attribute [description]
    ([None] when absent or Python's [None]) and [inspect.getdoc]. *)
Record described : Type := {
  description_attr : option string;
  getdoc : option string
}.

Record description_report : Type := {
  d_valid : bool;
  d_issues : list string;
  d_suggestions : list string;
  d_description : string
}.

Definition nonempty (o : option string) : bool :=
  match o with
  | Some s => negb (String.eqb s EmptyString)
  | None => false
  end.

(** [description] after [if not description: description = inspect.getdoc(mcp_tool)]. *)
Definition effective_description (mcp_tool : described) : option string :=
  if nonempty (description_attr mcp_tool) then description_attr mcp_tool
  else getdoc mcp_tool.

Definition check_mcp_description (mcp_tool : described) : description_report :=
  let description := effective_description mcp_tool in
  if negb (nonempty description) ||
     String.eqb (strip (default EmptyString description)) EmptyString
  then
    {| d_valid := false;
       d_issues := ["Description is missing or empty."];
       d_suggestions :=
         ["Please add a description for the tool, briefly explaining its function and usage."];
       d_description := default EmptyString description |}
  else
    let short := (String.length (strip (default EmptyString description)) <? 6)%nat in
    let issues :=
      if short
      then ["Description is too short to fully reflect the tool's function and usage."]
      else [] in
    let suggestions :=
      if short
      then ["Please provide a more detailed description, explaining the tool's function, input/output, and typical usage."]
      else [] in
    {| d_valid := (length issues =? 0)%nat;
       d_issues := issues;
       d_suggestions := suggestions;
       d_description := default EmptyString description |}.

(** ** [validate_mcp_availability] *)

(** The two kinds of argument: an object with a [call] method, or a
    callable invoked with the case as its keyword arguments. *)
Inductive tool_under_test : Type :=
| WithCall (tool_call : call_method)
| Callable (qualname : string)
    (invoke : list value -> dict -> manager -> option (result string * manager)).

(** An entry of [results]. *)
Record detail : Type := {
  input : value;
  outcome : result string;
  success : bool
}.

Record availability_report : Type := {
  a_valid : bool;
  a_issues : list string;
  a_suggestions : list string;
  a_details : list detail
}.

(** The body of the [try] for one case. *)
Definition run_case (mcp_tool : tool_under_test) (case : value) (st : manager)
    : option (result string * manager) :=
  match mcp_tool with
  | WithCall tool_call =>
      match Json.dumps case with
      | Ret text => tool_call text st
      | Raise e => Some (Raise e, st)
      end
  | Callable qualname invoke =>
      match case with
      | VDict keywords => invoke [] keywords st
      | _ => Some (Raise (Exn TypeError
                 (qualname +:+ "() argument after ** must be a mapping, not " +:+
                  type_name case)), st)
      end
  end.

Definition case_failed (idx : nat) (e : exn) : string :=
  "Test case " +:+ string_of_Z (Z.of_nat idx) +:+ " failed: " +:+ exn_str e.

Definition check_case (idx : nat) : string :=
  "Please check the parameters and implementation of test case " +:+
  string_of_Z (Z.of_nat idx) +:+
  " to ensure it can be called and returns results correctly.".

(** The loop [for idx, case in enumerate(test_cases, 1)]. *)
Fixpoint run_cases (mcp_tool : tool_under_test) (idx : nat) (cases : list value)
    (report : availability_report) (st : manager)
    : option (availability_report * manager) :=
  match cases with
  | [] => Some (report, st)
  | case :: rest =>
      match run_case mcp_tool case st with
      | None => None
      | Some (Ret output, st') =>
          run_cases mcp_tool (S idx) rest
            {| a_valid := a_valid report;
               a_issues := a_issues report;
               a_suggestions := a_suggestions report;
               a_details := a_details report ++
                            [{| input := case; outcome := Ret output; success := true |}] |}
            st'
      | Some (Raise e, st') =>
          run_cases mcp_tool (S idx) rest
            {| a_valid := a_valid report;
               a_issues := a_issues report ++ [case_failed idx e];
               a_suggestions := a_suggestions report ++ [check_case idx];
               a_details := a_details report ++
                            [{| input := case; outcome := Raise e; success := false |}] |}
            st'
      end
  end.

Definition validate_mcp_availability (w : World) (mcp_tool : tool_under_test)
    (test_cases : value) (st : manager)
    : option (result availability_report * manager) :=
  match (match test_cases with
         | VStr text =>
             match json_loads w text with
             | Some parsed => Ret parsed
             | None => Raise (decode_error w text)
             end
         | other => Ret other
         end) with
  | Raise e => Some (Raise e, st)
  | Ret parsed =>
      match py_iter parsed with
      | Raise e => Some (Raise e, st)
      | Ret cases =>
          match run_cases mcp_tool 1 cases
                  {| a_valid := true; a_issues := []; a_suggestions := [];
                     a_details := [] |} st with
          | None => None
          | Some (report, st') =>
              let valid := forallb success (a_details report) in
              Some (Ret {| a_valid := valid;
                           a_issues := a_issues report;
                           a_suggestions :=
                             if negb valid &&
                                match a_suggestions report with [] => true | _ => false end
                             then a_suggestions report ++
                                  ["Please fix the tool implementation or test case parameters according to the error information."]
                             else a_suggestions report;
                           a_details := a_details report |}, st')
          end
      end
  end.

(** ** The description check *)

Lemma check_mcp_description_cases (mcp_tool : described) :
  let r := check_mcp_description mcp_tool in
  d_valid r = match effective_description mcp_tool with
              | Some description => (6 <=? String.length (strip description))%nat
              | None => false
              end /\
  length (d_issues r) = (if d_valid r then 0 else 1)%nat /\
  length (d_suggestions r) = (if d_valid r then 0 else 1)%nat.
Proof.
  unfold check_mcp_description.
  destruct (effective_description mcp_tool) as [d|]; [|repeat split].
  change (default EmptyString (Some d)) with d. cbn [nonempty].
  destruct (String.eqb_spec d EmptyString) as [->|Hd]; [repeat split|].
  cbn [negb orb].
  destruct (String.eqb_spec (strip d) EmptyString) as [Hs|Hs].
  - cbv zeta. cbn [d_valid d_issues d_suggestions length]. rewrite Hs. repeat split.
  - cbv zeta.
    destruct (Nat.ltb_spec (String.length (strip d)) 6) as [Hlt|Hge];
      cbn [d_valid d_issues d_suggestions length Nat.eqb].
    + rewrite (proj2 (Nat.leb_gt _ _)) by exact Hlt. repeat split.
    + rewrite (proj2 (Nat.leb_le _ _)) by exact Hge. repeat split.
Qed.

(** X15.  On a description of ASCII characters, the description check
    passes exactly when the description it looks at has at least six
    characters once its surrounding white space is stripped;
    otherwise it reports exactly one issue with one suggestion.  The
    description it looks at is the attribute when that is a non-empty
    string, even one of white space only, and the docstring only when
    the attribute is absent or empty. *)
Theorem check_mcp_description_valid (mcp_tool : described) :
  is_ascii (default EmptyString (effective_description mcp_tool)) = true ->
  (d_valid (check_mcp_description mcp_tool) = true <->
   exists description,
     effective_description mcp_tool = Some description /\
     (6 <= String.length (strip description))%nat) /\
  (d_valid (check_mcp_description mcp_tool) = false ->
   length (d_issues (check_mcp_description mcp_tool)) = 1%nat /\
   length (d_suggestions (check_mcp_description mcp_tool)) = 1%nat) /\
  (d_valid (check_mcp_description mcp_tool) = true ->
   d_issues (check_mcp_description mcp_tool) = [] /\
   d_suggestions (check_mcp_description mcp_tool) = []) /\
  (forall attr, description_attr mcp_tool = Some attr -> attr <> EmptyString ->
                effective_description mcp_tool = Some attr).
Proof.
  intros _.
  destruct (check_mcp_description_cases mcp_tool) as (Hvalid & Hissues & Hsuggestions).
  cbv zeta in Hvalid, Hissues, Hsuggestions.
  split; [|split; [|split]].
  - rewrite Hvalid. destruct (effective_description mcp_tool) as [d|]; split.
    + intros H. exists d. split; [reflexivity|]. apply Nat.leb_le. exact H.
    + intros (d' & [= <-] & Hlen). apply Nat.leb_le. exact Hlen.
    + discriminate.
    + intros (d' & Hd & _). discriminate.
  - intros H. rewrite H in Hissues, Hsuggestions. auto.
  - intros H. rewrite H in Hissues, Hsuggestions.
    split; [destruct (d_issues _) | destruct (d_suggestions _)];
      reflexivity || discriminate.
  - intros attr Ha Hne. unfold effective_description. rewrite Ha. cbn [nonempty].
    apply String.eqb_neq in Hne. rewrite Hne. reflexivity.
Qed.

Lemma check_mcp_description_valid_witness :
  d_valid (check_mcp_description
             {| description_attr := Some "   "; getdoc := Some "Echo the text" |}) = false /\
  d_valid (check_mcp_description
             {| description_attr := Some EmptyString; getdoc := Some "Echo the text" |}) = true.
Proof.
  split.
  - destruct (d_valid (check_mcp_description
               {| description_attr := Some "   "; getdoc := Some "Echo the text" |})) eqn:E;
      [|reflexivity].
    apply (proj1 (check_mcp_description_valid
                    {| description_attr := Some "   "; getdoc := Some "Echo the text" |}
                    eq_refl)) in E as (d & Hd & Hlen).
    injection Hd as <-. vm_compute in Hlen. lia.
  - apply (proj1 (check_mcp_description_valid
                    {| description_attr := Some EmptyString;
                       getdoc := Some "Echo the text" |} eq_refl)).
    exists "Echo the text". split; [reflexivity|]. vm_compute. lia.
Defined.

(** ** The availability check *)

Definition failures (details : list detail) : list detail :=
  List.filter (fun d => negb (success d)) details.

(** What the loop keeps true of the report it builds. *)
Definition balanced (cases : list value) (report : availability_report) : Prop :=
  map input (a_details report) = cases /\
  length (a_issues report) = length (failures (a_details report)) /\
  length (a_suggestions report) = length (failures (a_details report)).

Lemma failures_app details more :
  failures (details ++ more) = failures details ++ failures more.
Proof. unfold failures. apply List.filter_app. Qed.

Lemma run_cases_balanced (mcp_tool : tool_under_test) cases :
  forall idx seen report st report' st',
    balanced seen report ->
    run_cases mcp_tool idx cases report st = Some (report', st') ->
    balanced (seen ++ cases) report'.
Proof.
  induction cases as [|case rest IH]; intros idx seen report st report' st' Hb H.
  - injection H as <- _. rewrite app_nil_r. exact Hb.
  - cbn [run_cases] in H.
    destruct (run_case mcp_tool case st) as [[[output|e] st1]|]; [| |discriminate].
    + replace (seen ++ case :: rest) with ((seen ++ [case]) ++ rest)
        by (rewrite <- app_assoc; reflexivity).
      eapply IH; [|exact H].
      destruct Hb as (Hin & Hi & Hs). unfold balanced. cbn [a_details a_issues a_suggestions].
      rewrite map_app, failures_app, length_app, Hin. cbn. rewrite Nat.add_0_r. auto.
    + replace (seen ++ case :: rest) with ((seen ++ [case]) ++ rest)
        by (rewrite <- app_assoc; reflexivity).
      eapply IH; [|exact H].
      destruct Hb as (Hin & Hi & Hs). unfold balanced. cbn [a_details a_issues a_suggestions].
      rewrite map_app, failures_app, !length_app, Hin, Hi, Hs. cbn. auto.
Qed.

Lemma balanced_start :
  balanced [] {| a_valid := true; a_issues := []; a_suggestions := []; a_details := [] |}.
Proof. repeat split. Qed.

Lemma forallb_success details :
  forallb success details = true <-> failures details = [].
Proof.
  unfold failures. induction details as [|d rest IH]; cbn; [tauto|].
  destruct (success d); cbn; [exact IH|]. split; discriminate.
Qed.

(** X16.  Whatever the tool, the report of the availability check on a
    list of cases has one detail per case, in order, and as many
    issues, and as many suggestions, as failed details; it is valid
    exactly when it has no issue.  The generic suggestion for an
    invalid report without suggestions is therefore never added. *)
Theorem validate_mcp_availability_report (w : World) (mcp_tool : tool_under_test)
    (cases : list value) (st st' : manager) (report : availability_report) :
  validate_mcp_availability w mcp_tool (VList cases) st = Some (Ret report, st') ->
  map input (a_details report) = cases /\
  length (a_issues report) = length (failures (a_details report)) /\
  length (a_suggestions report) = length (a_issues report) /\
  (a_valid report = true <-> a_issues report = []) /\
  (exists built, run_cases mcp_tool 1 cases
                   {| a_valid := true; a_issues := []; a_suggestions := [];
                      a_details := [] |} st = Some (built, st') /\
                 a_suggestions report = a_suggestions built).
Proof.
  unfold validate_mcp_availability. cbn [py_iter].
  destruct (run_cases mcp_tool 1 cases _ st) as [[built st1]|] eqn:Hrun; [|discriminate].
  intros [= <- <-].
  destruct (run_cases_balanced mcp_tool cases 1 [] _ st built st1
              balanced_start Hrun) as (Hin & Hi & Hs).
  cbn [app] in Hin. cbn [a_details a_issues a_suggestions a_valid].
  assert (Hdead : (negb (forallb success (a_details built)) &&
                   match a_suggestions built with [] => true | _ => false end) = false).
  { destruct (forallb success (a_details built)) eqn:Hall; [reflexivity|]. cbn [negb andb].
    destruct (a_suggestions built); [|reflexivity].
    assert (failures (a_details built) = []) by
      (destruct (failures (a_details built)); [reflexivity | discriminate Hs]).
    apply forallb_success in H. congruence. }
  rewrite Hdead.
  split; [exact Hin|]. split; [exact Hi|]. split; [congruence|]. split.
  - rewrite forallb_success. split; intros H.
    + rewrite H in Hi. destruct (a_issues built); [reflexivity | discriminate Hi].
    + rewrite H in Hi. destruct (failures (a_details built)); [reflexivity | discriminate Hi].
  - exists built. auto.
Qed.

Lemma validate_mcp_availability_report_witness :
  exists report st',
    validate_mcp_availability (world files never)
      (WithCall (call 1 (world files never) say_tool))
      (VList [VDict args_ab; VObj 0]) empty_manager = Some (Ret report, st') /\
    length (a_details report) = 2%nat /\
    length (a_suggestions report) = length (a_issues report).
Proof.
  destruct (validate_mcp_availability (world files never)
      (WithCall (call 1 (world files never) say_tool))
      (VList [VDict args_ab; VObj 0]) empty_manager) as [[[report|e] st']|] eqn:E;
    try (vm_compute in E; discriminate E).
  exists report, st'. split; [reflexivity|].
  destruct (validate_mcp_availability_report _ _ _ _ _ _ E) as (Hin & _ & Hs & _).
  split; [|exact Hs].
  rewrite <- (length_map input), Hin. reflexivity.
Defined.

(** ** Checking an adapter *)

Lemma wrapper_returns (w : World) (tool_obj_call : call_method) args kwargs st :
  (forall params_json st0, tool_obj_call params_json st0 <> None) ->
  exists text st', wrapper w tool_obj_call args kwargs st = Some (Ret text, st').
Proof.
  intros Hfin. unfold wrapper.
  destruct (normalize w args kwargs) as [params_json|e]; cbn [guarded]; [|eauto].
  specialize (Hfin params_json st).
  destruct (tool_obj_call params_json st) as [[[text|e] st1]|]; cbn [guarded]; eauto.
  contradiction.
Qed.

Lemma run_cases_adapter (w : World) (tool_obj_call : call_method) qualname cases :
  (forall params_json st0, tool_obj_call params_json st0 <> None) ->
  Forall (fun case => is_dict case = true) cases ->
  forall idx report st,
    a_issues report = [] ->
    Forall (fun d => success d = true /\ exists text, outcome d = Ret text)
      (a_details report) ->
    exists built st',
      run_cases (Callable qualname (wrapper w tool_obj_call)) idx cases report st =
        Some (built, st') /\
      a_issues built = [] /\
      Forall (fun d => success d = true /\ exists text, outcome d = Ret text)
        (a_details built).
Proof.
  intros Hfin Hdicts. induction Hdicts as [|case rest Hcase _ IH];
    intros idx report st Hi Hd; cbn [run_cases].
  - eauto.
  - destruct case as [|?|?|?|?|keywords|?]; try discriminate Hcase. cbn [run_case].
    destruct (wrapper_returns w tool_obj_call [] keywords st Hfin) as (text & st1 & ->).
    apply IH; cbn [a_issues a_details]; [exact Hi|].
    apply Forall_app; split; [exact Hd|].
    constructor; [|constructor]. cbn. eauto.
Qed.

(** X17.  The availability check cannot fail an adapter built by
    [wrap_tools]: invoked with dict cases, an adapter whose tool
    finishes returns a string on every case, also when the tool
    raised, so every detail counts as a success and the report is
    valid, with no issue and no suggestion. *)
Theorem validate_mcp_availability_of_adapter (w : World) (tool_obj_call : call_method)
    (qualname : string) (cases : list value) (st : manager) :
  (forall params_json st0, tool_obj_call params_json st0 <> None) ->
  Forall (fun case => is_dict case = true) cases ->
  exists report st',
    validate_mcp_availability w (Callable qualname (wrapper w tool_obj_call))
      (VList cases) st = Some (Ret report, st') /\
    a_valid report = true /\
    a_issues report = [] /\
    a_suggestions report = [] /\
    map input (a_details report) = cases /\
    Forall (fun d => success d = true /\ exists text, outcome d = Ret text)
      (a_details report).
Proof.
  intros Hfin Hdicts.
  destruct (run_cases_adapter w tool_obj_call qualname cases Hfin Hdicts 1
              {| a_valid := true; a_issues := []; a_suggestions := []; a_details := [] |}
              st eq_refl (List.Forall_nil _)) as (built & st' & Hrun & Hi & Hd).
  pose proof (run_cases_balanced _ cases 1 [] _ st built st'
                balanced_start Hrun) as (Hin & _ & Hs).
  assert (Hall : forallb success (a_details built) = true).
  { apply forallb_forall. intros d Hind.
    rewrite List.Forall_forall in Hd. apply (Hd d Hind). }
  assert (Hnos : a_suggestions built = []).
  { apply forallb_success in Hall. rewrite Hall in Hs.
    destruct (a_suggestions built); [reflexivity | discriminate Hs]. }
  exists {| a_valid := true; a_issues := []; a_suggestions := [];
            a_details := a_details built |}, st'.
  split.
  - unfold validate_mcp_availability. cbn [py_iter]. rewrite Hrun, Hall, Hi, Hnos.
    reflexivity.
  - cbn [a_valid a_issues a_suggestions a_details].
    repeat split; [exact Hin | exact Hd].
Qed.

(** An adapter whose tool always raises. *)
Lemma validate_mcp_availability_of_adapter_witness :
  exists report st',
    validate_mcp_availability (world files never)
      (Callable "echo-say"
         (wrapper (world files never)
            (fun _ st => Some (Raise connection_closed, st))))
      (VList [VDict args_ab]) empty_manager = Some (Ret report, st') /\
    a_valid report = true /\
    map outcome (a_details report) = [Ret "Tool call error: Connection closed"].
Proof.
  destruct (validate_mcp_availability_of_adapter (world files never)
              (fun _ st => Some (Raise connection_closed, st)) "echo-say"
              [VDict args_ab] empty_manager)
    as (report & st' & Hrun & Hvalid & _).
  - intros params_json st0. discriminate.
  - repeat constructor.
  - exists report, st'. split; [exact Hrun|]. split; [exact Hvalid|].
    vm_compute in Hrun. injection Hrun as <- _. reflexivity.
Defined.

End Checks.

(* ===================================================================== *)
(** * The checks on a configuration file, and the schema of its first tool *)
(* ===================================================================== *)

Module ConfigChecks.

Import Registry Utils Scenarios Adapters Checks.
Local Open Scope result_scope.

(** ** The adapter as the checks see it *)

(** [wrapper.parameters], set by [create_wrapper] from the tool object. *)
Definition adapter_parameters (adapter : ToolClass) : Validator.tool_object :=
  {| Validator.tool_parameters := Some (parameters adapter) |}.

(** [wrapper.description], and [inspect.getdoc] of the wrapper, which
    the library computes from [wrapper.__doc__]. *)
Definition adapter_description (getdoc_of : ToolClass -> option string)
    (adapter : ToolClass) : described :=
  {| description_attr := description adapter; getdoc := getdoc_of adapter |}.

(** The wrapper has no [call] attribute: it is invoked with the case as
    its keyword arguments.  An error message that names the function
    shows it under the module [wrap_tools] was imported as. *)
Definition adapter_under_test (fuel : nat) (w : World) (module_name : string)
    (adapter : ToolClass) : tool_under_test :=
  Callable (module_name +:+ "." +:+ name adapter) (wrapper w (call fuel w adapter)).

(** ** The checks on the first tool of a configuration file *)

Definition no_tool_issue : string := "No MCP tool found in the config file.".

Definition no_tool_suggestion : string :=
  "Please check the config file to ensure at least one MCP tool is included.".

Definition no_tool_format : Validator.report :=
  {| Validator.valid := false;
     Validator.issues := [no_tool_issue];
     Validator.suggestions := [no_tool_suggestion];
     Validator.parameters := Some (VDict []) |}.

Definition no_tool_description : description_report :=
  {| d_valid := false;
     d_issues := [no_tool_issue];
     d_suggestions := [no_tool_suggestion];
     d_description := EmptyString |}.

Definition no_tool_availability : availability_report :=
  {| a_valid := false;
     a_issues := [no_tool_issue];
     a_suggestions := [no_tool_suggestion];
     a_details := [] |}.

Definition check_mcp_format_from_config (w : World) (config_path : string)
    : P Validator.report :=
  fun ps =>
    match _get_cached_callable_tools w config_path ps with
    | (Raise e, ps') => (Raise e, ps')
    | (Ret callable_tools, ps') =>
        match functions_map callable_tools with
        | [] => (Ret no_tool_format, ps')
        | (_, first_tool) :: _ =>
            (Validator.check_mcp_format (adapter_parameters first_tool), ps')
        end
    end.

Definition check_mcp_description_from_config (w : World)
    (getdoc_of : ToolClass -> option string) (config_path : string)
    : P description_report :=
  fun ps =>
    match _get_cached_callable_tools w config_path ps with
    | (Raise e, ps') => (Raise e, ps')
    | (Ret callable_tools, ps') =>
        match functions_map callable_tools with
        | [] => (Ret no_tool_description, ps')
        | (_, first_tool) :: _ =>
            (Ret (check_mcp_description (adapter_description getdoc_of first_tool)), ps')
        end
    end.

Definition validate_mcp_availability_from_config (fuel : nat) (w : World)
    (module_name config_path : string) (test_cases : value) (ps : process)
    : option (result availability_report * process) :=
  match _get_cached_callable_tools w config_path ps with
  | (Raise e, ps') => Some (Raise e, ps')
  | (Ret callable_tools, ps') =>
      match functions_map callable_tools with
      | [] => Some (Ret no_tool_availability, ps')
      | (_, first_tool) :: _ =>
          match validate_mcp_availability w
                  (adapter_under_test fuel w module_name first_tool)
                  test_cases (mgr ps') with
          | Some (r, st) =>
              Some (r, {| mgr := st; _config_cache := _config_cache ps';
                          allocated := allocated ps' |})
          | None => None
          end
      end
  end.

(** ** [get_mcp_tools_schema] *)

(** The inner dictionary, with its keys [parameters] and [description]. *)
Record tool_schema : Type := {
  s_parameters : value;
  s_description : option string
}.

(** The arguments the function is given: a path, a tool object, or an
    adapter, which has the attributes [parameters] and [description]
    but no attribute [name]. *)
Inductive schema_source : Type :=
| OfPath (config_path : string)
| OfTool (tool_obj : ToolClass)
| OfAdapter (adapter : ToolClass).

Definition schema_of (tool_obj : ToolClass) : tool_schema :=
  {| s_parameters := parameters tool_obj; s_description := description tool_obj |}.

Definition get_mcp_tools_schema (w : World) (config_path_or_tool : schema_source)
    : P (list (string * tool_schema)) :=
  fun ps =>
    match config_path_or_tool with
    | OfPath config_path =>
        match _get_cached_callable_tools w config_path ps with
        | (Raise e, ps') => (Raise e, ps')
        | (Ret callable_tools, ps') =>
            match functions_map callable_tools with
            | [] => (Ret [], ps')
            | (first_tool_name, _) :: _ =>
                match adapter_of (functions_map callable_tools) first_tool_name with
                | Some first_tool =>
                    (Ret [(first_tool_name, schema_of first_tool)], ps')
                | None => (Raise (key_error first_tool_name), ps')
                end
            end
        end
    | OfTool tool_obj => (Ret [(name tool_obj, schema_of tool_obj)], ps)
    | OfAdapter adapter => (Ret [("unknown_tool", schema_of adapter)], ps)
    end.

(** ** What the registry lets through *)

(** The schema of a tool object that has passed [is_tool_schema]. *)
Definition declared (props : dict) (req : value) : bool :=
  match req with
  | VStr k => dict_mem props k
  | _ => false
  end.

Definition gated (tool_obj : ToolClass) : Prop :=
  exists props reqs,
    parameters tool_obj =
      VDict [("type", VStr "object"); ("properties", VDict props);
             ("required", VList reqs)] /\
    forallb (declared props) reqs = true.

(** The properties the format check finds without a [type]. *)
Definition lacks_type (item : string * value) : bool :=
  match py_contains (snd item) (VStr "type") with
  | Ret false => true
  | _ => false
  end.

Definition untyped_properties (props : dict) : list string :=
  map fst (List.filter lacks_type props).

Definition missing_type (nm : string) : string :=
  "Parameter " +:+ nm +:+ " is missing the type field.".

Definition add_type (nm : string) : string :=
  "Please add the type field for parameter " +:+ nm +:+ ".".

(** The report of the format check on a gated schema. *)
Definition report_of_properties (params_schema : value) (props : dict)
    : Validator.report :=
  {| Validator.valid := (length (untyped_properties props) =? 0)%nat;
     Validator.issues := map missing_type (untyped_properties props);
     Validator.suggestions := map add_type (untyped_properties props);
     Validator.parameters := Some params_schema |}.

(** What holds of every entry of a map of [wrap_tools]: its key is the
    name of its tool object, and that object has passed the gate. *)
Definition entry_ok (entry : string * ToolClass) : Prop :=
  fst entry = name (snd entry) /\ gated (snd entry).

(** The cache holds nothing but maps of [wrap_tools]. *)
Definition well_cached (ps : process) : Prop :=
  forall key cached,
    _config_cache ps !! key = Some cached -> Forall entry_ok (functions_map cached).

(** A tool one of whose properties declares no [type]. *)
Definition translate : McpTool :=
  {| mt_name := "translate";
     mt_description := Some "Translate the text";
     mt_inputSchema :=
       [("type", VStr "object");
        ("properties", VDict [("text", VDict [("type", VStr "string")]);
                              ("lang", VDict [])]);
        ("required", VList [VStr "text"])] |}.

(** A path whose file is missing, is not JSON, or fails the shape
    check. *)
Definition unloadable (w : World) (path : string) : Prop :=
  (exists e, read_file w path = Raise e) \/
  (exists text, read_file w path = Ret text /\ json_loads w text = None) \/
  (exists text config, read_file w path = Ret text /\
                       json_loads w text = Some config /\
                       is_valid_mcp_servers config = false).

(** The empty map a failed load leaves in the cache, and the process
    once it is there. *)
Definition empty_map (ps : process) : adapter_map :=
  {| map_id := allocated ps; functions_map := [] |}.

Definition remembered (path : string) (ps : process) : process :=
  {| mgr := mgr ps;
     _config_cache := <[path := empty_map ps]> (_config_cache ps);
     allocated := S (allocated ps) |}.

Lemma is_tool_schema_gate (w : World) nm desc type properties required :
  is_tool_schema w nm desc
    (VDict [("type", type); ("properties", properties); ("required", required)]) =
    Ret true ->
  type = VStr "object" /\
  exists props reqs,
    properties = VDict props /\ required = VList reqs /\
    forallb (declared props) reqs = true.
Proof.
  unfold is_tool_schema.
  destruct (negb (strip_nonempty nm)); [discriminate|].
  destruct desc as [d|]; cbn [negb]; [|discriminate].
  replace (same_keys [("type", type); ("properties", properties); ("required", required)]
             ["type"; "properties"; "required"]) with true by reflexivity.
  cbn [negb].
  replace (py_getitem (VDict [("type", type); ("properties", properties);
                              ("required", required)]) "type") with (Ret type)
    by reflexivity.
  replace (py_getitem (VDict [("type", type); ("properties", properties);
                              ("required", required)]) "properties") with (Ret properties)
    by reflexivity.
  replace (py_getitem (VDict [("type", type); ("properties", properties);
                              ("required", required)]) "required") with (Ret required)
    by reflexivity.
  cbn [bind].
  destruct (py_eq type (VStr "object")) eqn:Htype; cbn [negb]; [|discriminate].
  assert (type = VStr "object") as ->.
  { destruct type; try discriminate Htype. apply String.eqb_eq in Htype. congruence. }
  destruct properties as [| | | | |props|]; try discriminate;
    destruct required as [| | | |reqs| |]; try discriminate.
  destruct (forallb hashable reqs); cbn [negb]; [|discriminate].
  fold (declared props).
  destruct (forallb (declared props) reqs) eqn:Hreqs; cbn [negb]; [|discriminate].
  intros _. split; [reflexivity|]. eauto.
Qed.

Lemma create_tool_class_gate (w : World) rn id tn desc cleaned tool_obj :
  is_dict cleaned = true ->
  create_tool_class w rn id tn desc cleaned = Ret tool_obj ->
  is_tool_schema w rn desc cleaned = Ret true /\ parameters tool_obj = cleaned.
Proof.
  intros Hdict H. split; [|eapply create_tool_class_parameters; exact H].
  unfold create_tool_class in H. rewrite Hdict in H.
  destruct (String.eqb rn EmptyString); [discriminate|].
  destruct (is_tool_schema w rn desc cleaned) as [[|]|e]; cbn [bind] in H;
    [reflexivity | discriminate | discriminate].
Qed.

Lemma register_operation_gated (w : World) server_name id tool tool_obj :
  register_operation w server_name id tool = Ret tool_obj ->
  exists props reqs,
    dict_get (mt_inputSchema tool) "properties" = Some (VDict props) /\
    parameters tool_obj =
      VDict [("type", VStr "object"); ("properties", VDict props);
             ("required", VList reqs)] /\
    forallb (declared props) reqs = true.
Proof.
  unfold register_operation.
  destruct (clean_parameters (mt_inputSchema tool)) as [cleaned|e] eqn:Hclean;
    cbn [bind]; [|discriminate].
  apply clean_parameters_ok in Hclean
    as (type & properties & required & -> & _ & Hprops & _).
  intros H. apply create_tool_class_gate in H as [Hgate Hparams]; [|reflexivity].
  apply is_tool_schema_gate in Hgate as (-> & props & reqs & -> & -> & Hreqs).
  exists props, reqs. auto.
Qed.

Lemma check_top_level_present (p : dict) fields :
  forallb (dict_mem p) fields = true ->
  forall f, Validator.check_top_level fields (VDict p) f = Ret f.
Proof.
  induction fields as [|field rest IH]; cbn [forallb Validator.check_top_level];
    intros Hall f; [reflexivity|].
  apply andb_prop in Hall as [Hfield Hrest].
  cbn [py_contains hashable bind]. rewrite Hfield. apply IH, Hrest.
Qed.

Lemma check_each_required_declared (p props : dict) reqs :
  dict_get p "properties" = Some (VDict props) ->
  forallb (declared props) reqs = true ->
  forall f, Validator.check_each_required reqs (VDict p) f = Ret f.
Proof.
  intros Hprops. induction reqs as [|req rest IH];
    cbn [forallb Validator.check_each_required]; intros Hall f; [reflexivity|].
  apply andb_prop in Hall as [Hreq Hrest].
  cbn [py_get]. rewrite Hprops. cbn [bind].
  destruct req as [| | |k| | |]; try discriminate Hreq.
  cbn [declared] in Hreq. cbn [py_contains hashable bind]. rewrite Hreq.
  apply IH, Hrest.
Qed.

Lemma check_each_property_untyped items :
  forall f f',
    Validator.check_each_property items f = Ret f' ->
    Validator.f_issues f' =
      Validator.f_issues f ++ map missing_type (untyped_properties items) /\
    Validator.f_suggestions f' =
      Validator.f_suggestions f ++ map add_type (untyped_properties items).
Proof.
  induction items as [|[nm prop] rest IH]; cbn [Validator.check_each_property];
    intros f f' H.
  - injection H as <-. unfold untyped_properties. cbn. rewrite !app_nil_r. auto.
  - destruct (py_contains prop (VStr "type")) as [[|]|e] eqn:E; cbn [bind] in H;
      [| |discriminate].
    + replace (untyped_properties ((nm, prop) :: rest)) with (untyped_properties rest)
        by (unfold untyped_properties; cbn [List.filter]; unfold lacks_type at 2;
            cbn [snd]; rewrite E; reflexivity).
      apply IH, H.
    + replace (untyped_properties ((nm, prop) :: rest))
        with (nm :: untyped_properties rest)
        by (unfold untyped_properties; cbn [List.filter]; unfold lacks_type at 2;
            cbn [snd]; rewrite E; reflexivity).
      apply IH in H as [Hi Hs].
      cbn [Validator.append_finding Validator.f_issues Validator.f_suggestions] in Hi, Hs.
      rewrite Hi, Hs, <- !app_assoc. cbn [map app]. auto.
Qed.

Lemma check_each_property_returns items :
  forallb (fun item => is_dict (snd item)) items = true ->
  forall f, exists f', Validator.check_each_property items f = Ret f'.
Proof. apply Validator.check_each_property_dicts. Qed.

Lemma check_schema_gated (props : dict) reqs :
  forallb (declared props) reqs = true ->
  Validator.check_schema
    (VDict [("type", VStr "object"); ("properties", VDict props);
            ("required", VList reqs)]) =
    match Validator.check_each_property props (Validator.Findings [] []) with
    | Ret _ =>
        Ret (report_of_properties
               (VDict [("type", VStr "object"); ("properties", VDict props);
                       ("required", VList reqs)]) props)
    | Raise e => Raise e
    end.
Proof.
  intros Hreqs. unfold Validator.check_schema.
  rewrite check_top_level_present by reflexivity. cbn [bind].
  unfold Validator.check_properties.
  replace (py_contains (VDict [("type", VStr "object"); ("properties", VDict props);
                               ("required", VList reqs)]) (VStr "properties"))
    with (Ret true) by reflexivity.
  replace (py_getitem (VDict [("type", VStr "object"); ("properties", VDict props);
                              ("required", VList reqs)]) "properties")
    with (Ret (VDict props)) by reflexivity.
  cbn [bind py_items].
  destruct (Validator.check_each_property props (Validator.Findings [] []))
    as [f2|e] eqn:E; [|reflexivity].
  unfold Validator.check_required.
  replace (py_contains (VDict [("type", VStr "object"); ("properties", VDict props);
                               ("required", VList reqs)]) (VStr "required"))
    with (Ret true) by reflexivity.
  replace (py_get (VDict [("type", VStr "object"); ("properties", VDict props);
                          ("required", VList reqs)]) "required" (VList []))
    with (Ret (VList reqs)) by reflexivity.
  cbn [bind py_iter].
  rewrite (check_each_required_declared _ props) by (reflexivity || exact Hreqs).
  cbn [bind].
  apply check_each_property_untyped in E as [Hi Hs].
  cbn [Validator.f_issues Validator.f_suggestions app] in Hi, Hs.
  unfold report_of_properties. rewrite Hi, Hs, length_map. reflexivity.
Qed.

(** X18.  A tool that [init_config_async] has registered passes the
    top-level and the [required] parts of the format check by
    construction: the check can only report the properties that lack a
    [type], one issue and one suggestion for each, in the order of the
    schema.  It returns that report whenever every property sub-schema
    is a dict. *)
Theorem registered_tool_format (w : World) (server_name id : string) (tool : McpTool)
    (tool_obj : ToolClass) :
  register_operation w server_name id tool = Ret tool_obj ->
  exists props,
    dict_get (mt_inputSchema tool) "properties" = Some (VDict props) /\
    (forall r,
        Validator.check_mcp_format (adapter_parameters tool_obj) = Ret r ->
        r = report_of_properties (parameters tool_obj) props) /\
    (forallb (fun item => is_dict (snd item)) props = true ->
     Validator.check_mcp_format (adapter_parameters tool_obj) =
       Ret (report_of_properties (parameters tool_obj) props)).
Proof.
  intros H.
  apply register_operation_gated in H as (props & reqs & Hprops & Hparams & Hreqs).
  exists props. split; [exact Hprops|].
  unfold Validator.check_mcp_format, adapter_parameters.
  cbn [Validator.tool_parameters]. rewrite Hparams.
  rewrite (check_schema_gated props reqs Hreqs). split.
  - intros r.
    destruct (Validator.check_each_property props (Validator.Findings [] []));
      [congruence | discriminate].
  - intros Hdicts.
    destruct (Validator.check_each_property_dicts props Hdicts (Validator.Findings [] []))
      as [f' ->]. reflexivity.
Qed.

Lemma registered_tool_format_witness :
  exists tool_obj r,
    register_operation (world files always_live) "echo" "echo_u0" translate =
      Ret tool_obj /\
    Validator.check_mcp_format (adapter_parameters tool_obj) = Ret r /\
    Validator.valid r = false /\
    Validator.issues r = ["Parameter lang is missing the type field."].
Proof.
  destruct (register_operation (world files always_live) "echo" "echo_u0" translate)
    as [tool_obj|e] eqn:E; [|vm_compute in E; discriminate E].
  destruct (registered_tool_format _ _ _ _ _ E) as (props & Hprops & _ & Hret).
  vm_compute in Hprops. injection Hprops as <-.
  exists tool_obj, (report_of_properties (parameters tool_obj)
                      [("text", VDict [("type", VStr "string")]); ("lang", VDict [])]).
  split; [reflexivity|]. split; [apply Hret; reflexivity|]. split; reflexivity.
Defined.

(** ** From the registry to the cache *)

Lemma register_operations_gated (w : World) server_name id discovered :
  forall acc registered,
    Forall gated acc ->
    register_operations w server_name id discovered acc = Ret registered ->
    Forall gated registered.
Proof.
  induction discovered as [|tool rest IH]; cbn [register_operations];
    intros acc registered Hacc H.
  - congruence.
  - destruct (register_operation w server_name id tool) as [tool_obj|e] eqn:E;
      cbn [bind] in H; [|discriminate].
    eapply IH; [|exact H].
    apply Forall_app; split; [exact Hacc|].
    constructor; [|constructor].
    apply register_operation_gated in E as (props & reqs & _ & Hparams & Hreqs).
    exists props, reqs. auto.
Qed.

Lemma connect_servers_gated (w : World) mcp_servers :
  forall acc st registered st',
    Forall gated acc ->
    connect_servers w mcp_servers acc st = (Ret registered, st') ->
    Forall gated registered.
Proof.
  induction mcp_servers as [|[server_name server] rest IH];
    intros acc st registered st' Hacc H.
  - injection H as <- _. exact Hacc.
  - apply Lifecycle.connect_servers_turn in H
      as [(e & _ & He)|(connected & st1 & _ & Hrest)]; [discriminate|].
    destruct Hrest as [(e & He & _)|(discovered & acc1 & _ & Hreg & Hloop)];
      [discriminate|].
    eapply IH; [|exact Hloop].
    eapply register_operations_gated; [exact Hacc | exact Hreg].
Qed.

Lemma initConfig_gated (w : World) config st registered st' :
  initConfig w config st = (Ret registered, st') -> Forall gated registered.
Proof.
  unfold initConfig, init_config_async, bindM, liftM.
  destruct (is_valid_mcp_servers config); cbn; [|discriminate].
  destruct (py_getitem config "mcpServers") as [mcp_servers|e]; [|discriminate].
  destruct (py_items mcp_servers) as [entries|e]; [|discriminate].
  apply connect_servers_gated; constructor.
Qed.

Lemma load_mcp_config_gated (w : World) path ps loaded ps' :
  load_mcp_config w path false ps = (Ret loaded, ps') -> Forall gated loaded.
Proof.
  unfold load_mcp_config.
  destruct (load_mcp_config_body w path false ps) as [[tool_objs|e] ps1] eqn:E;
    intros [= <- <-]; [|constructor].
  unfold load_mcp_config_body, bindP, liftP, retP in E.
  destruct (read_file w path) as [text|e]; [|discriminate].
  destruct (json_loads w text) as [config|]; [|discriminate].
  unfold on_manager in E.
  destruct (initConfig w config (mgr ps)) as [[registered|e] st] eqn:E0;
    [|discriminate].
  injection E as <- _. eapply initConfig_gated; exact E0.
Qed.

Lemma wrap_each_entries tool_objs :
  forall acc functions,
    Forall gated tool_objs ->
    Forall entry_ok acc ->
    wrap_each tool_objs acc = Ret functions ->
    Forall entry_ok functions.
Proof.
  induction tool_objs as [|tool rest IH]; cbn [wrap_each];
    intros acc functions Htools Hacc H.
  - congruence.
  - destruct (create_wrapper tool) as [adapter|e] eqn:Hw; cbn [bind] in H;
      [|discriminate].
    apply create_wrapper_same in Hw. subst adapter.
    apply Forall_cons in Htools as [Htool Hrest].
    eapply IH; [exact Hrest| |exact H].
    destruct (existsb (fun kv => String.eqb (fst kv) (name tool)) acc).
    + apply List.Forall_forall. intros entry Hin.
      apply in_map_iff in Hin as (kv & <- & Hkv).
      rewrite List.Forall_forall in Hacc.
      destruct (String.eqb_spec (fst kv) (name tool)) as [Heq|_]; [|apply Hacc, Hkv].
      split; [exact Heq | exact Htool].
    + apply Forall_app; split; [exact Hacc|].
      constructor; [|constructor]. split; [reflexivity | exact Htool].
Qed.

Lemma create_callable_mcp_tools_entries (w : World) path ps callable_tools ps' :
  create_callable_mcp_tools w path ps = (Ret callable_tools, ps') ->
  Forall entry_ok (functions_map callable_tools).
Proof.
  unfold create_callable_mcp_tools, bindP.
  destruct (Adapters.load_mcp_config_returns w path false ps) as (loaded & ps1 & Hload).
  rewrite Hload. apply load_mcp_config_gated in Hload.
  unfold wrap_tools.
  destruct (wrap_each loaded []) as [functions|e] eqn:E; [|discriminate].
  intros [= <- _]. cbn [functions_map].
  eapply wrap_each_entries; [exact Hload | constructor | exact E].
Qed.

Lemma get_cached_callable_tools_entries (w : World) path ps r ps' :
  well_cached ps ->
  _get_cached_callable_tools w path ps = (r, ps') ->
  well_cached ps' /\
  (forall callable_tools,
      r = Ret callable_tools ->
      Forall entry_ok (functions_map callable_tools) /\
      _config_cache ps' !! path = Some callable_tools).
Proof.
  intros Hwell. unfold _get_cached_callable_tools.
  destruct (_config_cache ps !! path) as [hit|] eqn:Hhit.
  - intros [= <- <-]. split; [exact Hwell|].
    intros callable_tools [= <-]. split; [eapply Hwell; exact Hhit | exact Hhit].
  - destruct (create_callable_mcp_tools w path ps) as [[callable_tools|e] ps1] eqn:E.
    + pose proof (create_callable_mcp_tools_cache _ _ _ _ _ E) as Hcache.
      apply create_callable_mcp_tools_entries in E.
      intros [= <- <-]. split.
      * intros key cached. cbn [_config_cache].
        destruct (decide (path = key)) as [->|Hne].
        -- rewrite lookup_insert_eq. intros [= <-]. exact E.
        -- rewrite lookup_insert_ne by exact Hne. rewrite Hcache. apply Hwell.
      * intros m [= <-]. split; [exact E|]. cbn [_config_cache].
        apply lookup_insert_eq.
    + pose proof (create_callable_mcp_tools_cache _ _ _ _ _ E) as Hcache.
      intros [= <- <-]. split; [|discriminate].
      intros key cached. rewrite Hcache. apply Hwell.
Qed.

(** ** The checks on a configuration file *)

(** X19.  In a process whose cache holds only maps that the cached
    loader has put there, the format check on a configuration file
    never reports a missing top-level field or a required parameter
    that is not declared: its report is either the fixed one for a
    file without tools, or the list of the properties of the first
    tool that lack a [type], and it is valid exactly when there is no
    such property.  The tool is the first of the map the cache then
    holds under the path, and the cache stays as it should. *)
Theorem check_mcp_format_from_config_report (w : World) (config_path : string)
    (ps ps' : process) (r : Validator.report) :
  well_cached ps ->
  check_mcp_format_from_config w config_path ps = (Ret r, ps') ->
  well_cached ps' /\
  (r = no_tool_format \/
   exists props reqs,
     forallb (declared props) reqs = true /\
     r = report_of_properties
           (VDict [("type", VStr "object"); ("properties", VDict props);
                   ("required", VList reqs)]) props /\
     (Validator.valid r = true <-> untyped_properties props = [])) /\
  exists callable_tools,
    _config_cache ps' !! config_path = Some callable_tools /\
    match functions_map callable_tools with
    | [] => r = no_tool_format
    | (_, first_tool) :: _ =>
        Validator.check_mcp_format (adapter_parameters first_tool) = Ret r /\
        exists props reqs,
          parameters first_tool =
            VDict [("type", VStr "object"); ("properties", VDict props);
                   ("required", VList reqs)] /\
          r = report_of_properties (parameters first_tool) props
    end.
Proof.
  intros Hwell. unfold check_mcp_format_from_config.
  destruct (_get_cached_callable_tools w config_path ps) as [[callable_tools|e] ps1] eqn:E;
    [|discriminate].
  destruct (get_cached_callable_tools_entries _ _ _ _ _ Hwell E) as [Hwell1 Hentries].
  destruct (Hentries callable_tools eq_refl) as [Hall Hcached].
  destruct (functions_map callable_tools) as [|[first_tool_name first_tool] others]
    eqn:Hmap.
  - intros [= <- <-]. split; [exact Hwell1|]. split; [auto|].
    exists callable_tools. rewrite Hmap. auto.
  - apply Forall_cons in Hall as [[_ (props & reqs & Hparams & Hreqs)] _].
    cbn [snd] in Hparams.
    intros H.
    assert (Hcheck : Validator.check_mcp_format (adapter_parameters first_tool) = Ret r /\
                     ps' = ps1) by (split; congruence).
    destruct Hcheck as [Hcheck ->]. clear H.
    assert (Hr : r = report_of_properties
                       (VDict [("type", VStr "object"); ("properties", VDict props);
                               ("required", VList reqs)]) props).
    { unfold Validator.check_mcp_format, adapter_parameters in Hcheck.
      cbn [Validator.tool_parameters] in Hcheck. rewrite Hparams in Hcheck.
      rewrite (check_schema_gated props reqs Hreqs) in Hcheck.
      destruct (Validator.check_each_property props (Validator.Findings [] []));
        [congruence | discriminate]. }
    split; [exact Hwell1|]. split.
    + right. exists props, reqs.
      split; [exact Hreqs|]. split; [exact Hr|].
      rewrite Hr. unfold report_of_properties. cbn [Validator.valid].
      destruct (untyped_properties props); cbn; split; congruence.
    + exists callable_tools. split; [exact Hcached|]. rewrite Hmap.
      split; [exact Hcheck|]. exists props, reqs. rewrite Hparams. auto.
Qed.

Lemma check_mcp_format_from_config_report_witness :
  exists r ps',
    check_mcp_format_from_config (world files (fun _ => Ret (live_session, [translate])))
      "cfg.json" empty_process = (Ret r, ps') /\
    well_cached ps' /\
    Validator.issues r = ["Parameter lang is missing the type field."].
Proof.
  destruct (check_mcp_format_from_config
              (world files (fun _ => Ret (live_session, [translate])))
              "cfg.json" empty_process) as [[r|e] ps'] eqn:E;
    [|vm_compute in E; discriminate E].
  exists r, ps'. split; [reflexivity|].
  assert (Hempty : well_cached empty_process).
  { intros key cached Hkey. cbn [_config_cache empty_process] in Hkey.
    rewrite lookup_empty in Hkey. discriminate Hkey. }
  destruct (check_mcp_format_from_config_report _ _ _ _ _ Hempty E) as [Hwell _].
  split; [exact Hwell|].
  vm_compute in E. injection E as <- _. reflexivity.
Defined.



(** ** A file that cannot be loaded *)

Lemma get_cached_unloadable (w : World) path ps :
  unloadable w path ->
  _config_cache ps !! path = None ->
  _get_cached_callable_tools w path ps = (Ret (empty_map ps), remembered path ps).
Proof.
  intros Hfail Hmiss.
  assert (Hload : load_mcp_config w path false ps = (Ret [], ps)).
  { unfold load_mcp_config.
    destruct (load_mcp_config_body_fails w path false ps Hfail) as [e ->]. reflexivity. }
  unfold _get_cached_callable_tools. rewrite Hmiss.
  unfold create_callable_mcp_tools, bindP. rewrite Hload. reflexivity.
Qed.

Lemma get_cached_hit (w : World) path ps cached :
  _config_cache ps !! path = Some cached ->
  _get_cached_callable_tools w path ps = (Ret cached, ps).
Proof. intros Hhit. unfold _get_cached_callable_tools. rewrite Hhit. reflexivity. Qed.

(** X21.  For a path whose file is missing, is not JSON or fails the
    shape check, and that is not yet in the cache, the three checks
    from a configuration file return their fixed report, invalid with
    the one issue that no tool was found, and [get_mcp_tools_schema]
    returns the empty dictionary; none of them raises, and the
    availability check does not even look at its test cases, so that
    cases that are not JSON go unnoticed.  Each of them leaves the
    empty map in the cache, and from then on all four give that same
    answer, without a further load and whatever the file has become. *)
Theorem checks_of_unloadable_config (w : World) (path : string) (ps : process)
    (getdoc_of : ToolClass -> option string) (fuel : nat) (module_name : string)
    (test_cases : value) :
  unloadable w path ->
  _config_cache ps !! path = None ->
  (check_mcp_format_from_config w path ps = (Ret no_tool_format, remembered path ps) /\
   check_mcp_description_from_config w getdoc_of path ps =
     (Ret no_tool_description, remembered path ps) /\
   validate_mcp_availability_from_config fuel w module_name path test_cases ps =
     Some (Ret no_tool_availability, remembered path ps) /\
   get_mcp_tools_schema w (OfPath path) ps = (Ret [], remembered path ps)) /\
  forall w' paths later,
    later = load_sequence w' paths (remembered path ps) ->
    check_mcp_format_from_config w' path later = (Ret no_tool_format, later) /\
    check_mcp_description_from_config w' getdoc_of path later =
      (Ret no_tool_description, later) /\
    validate_mcp_availability_from_config fuel w' module_name path test_cases later =
      Some (Ret no_tool_availability, later) /\
    get_mcp_tools_schema w' (OfPath path) later = (Ret [], later).
Proof.
  intros Hfail Hmiss. split.
  - unfold check_mcp_format_from_config, check_mcp_description_from_config,
      validate_mcp_availability_from_config, get_mcp_tools_schema.
    rewrite (get_cached_unloadable w path ps Hfail Hmiss). cbn [functions_map empty_map].
    auto.
  - intros w' paths later ->.
    assert (Hhit : _config_cache (load_sequence w' paths (remembered path ps)) !! path =
                     Some (empty_map ps)).
    { apply load_sequence_cache. cbn [_config_cache remembered]. apply lookup_insert_eq. }
    unfold check_mcp_format_from_config, check_mcp_description_from_config,
      validate_mcp_availability_from_config, get_mcp_tools_schema.
    rewrite (get_cached_hit w' path _ _ Hhit). cbn [functions_map empty_map].
    auto.
Qed.

Lemma checks_of_unloadable_config_witness :
  validate_mcp_availability_from_config 1 (world files always_live) "mcp_utils"
    "broken.json" (VStr "{not json") empty_process =
    Some (Ret no_tool_availability, remembered "broken.json" empty_process) /\
  fst (check_mcp_format_from_config (world [("broken.json", echo_config_text)] always_live)
         "broken.json" (remembered "broken.json" empty_process)) = Ret no_tool_format.
Proof.
  assert (Hfail : unloadable (world files always_live) "broken.json").
  { right. left. exists "{not json". split; reflexivity. }
  destruct (checks_of_unloadable_config (world files always_live) "broken.json"
              empty_process (fun _ => None) 1 "mcp_utils" (VStr "{not json")
              Hfail eq_refl) as [(_ & _ & Havailable & _) Hlater].
  split; [exact Havailable|].
  destruct (Hlater (world [("broken.json", echo_config_text)] always_live) []
              _ eq_refl) as (Hformat & _).
  cbn [load_sequence] in Hformat. rewrite Hformat. reflexivity.
Defined.

End ConfigChecks.
